(** * Order lifecycle and split-bill settlement: a shallow embedding

    The development follows the Express route handlers of the server
    (order creation, confirmation, item status update, item cancellation,
    plain payment, split-bill creation, bill-share settlement) and the
    relational schema of [shared/schema.ts].

    Conventions of the embedding.
    - A relational table is the list of its rows, in insertion order.  An
      [UPDATE ... WHERE] rewrites every matching row in place, a [SELECT ...
      WHERE] filters, [LIMIT 1] and array destructuring [[x] = ...] take the
      first row.
    - [decimal(10,2)] columns of the order side (prices, totals, payment
      amounts) are integers counted in cents, so [parseFloat(price) * quantity]
      and [total.toFixed(2)] are exact; the double rounding of the JavaScript
      arithmetic and the range limit of the column are not modelled.
    - A JavaScript number read from the request ([parseFloat(share.amount)]) is
      a [number]: [NaN] or an exact rational.
    - Statuses are the strings of the source; the [pgEnum] of a column is
      checked when a row is written.
    - Columns that no handler studied here reads (timestamps, organisation,
      QR code, descriptions) are left out of the records. *)

From Stdlib Require Import ZArith QArith Qabs Qround List String Ascii Bool Lia.
From Stdlib Require Import DecimalString.
Import ListNotations.

Local Open Scope string_scope.
Local Open Scope Z_scope.

(** ** JavaScript values used by the handlers *)

Module Js.

(** [String.prototype.trim] on the ASCII white space characters. *)
Definition isWhiteSpace (c : ascii) : bool :=
  let n := nat_of_ascii c in
  ((n =? 32) || ((9 <=? n) && (n <=? 13)))%nat.

Fixpoint trimStart (s : string) : string :=
  match s with
  | EmptyString => EmptyString
  | String c rest => if isWhiteSpace c then trimStart rest else s
  end.

Fixpoint trimEnd (s : string) : string :=
  match s with
  | EmptyString => EmptyString
  | String c rest =>
      match trimEnd rest with
      | EmptyString => if isWhiteSpace c then EmptyString else String c EmptyString
      | kept => String c kept
      end
  end.

Definition trim (s : string) : string := trimEnd (trimStart s).

(** Truthiness of a string: only the empty string is falsy. *)
Definition truthy_string (s : string) : bool := negb (s =? EmptyString)%string.

(** Truthiness of an integer id: only [0] is falsy. *)
Definition truthy_int (n : Z) : bool := negb (n =? 0).

(** [Array.prototype.includes] on strings. *)
Definition includes (l : list string) (s : string) : bool :=
  existsb (fun x => (x =? s)%string) l.

(** A JavaScript number: [NaN] or a finite value, kept exact. *)
Inductive number :=
| NaN
| Num (q : Q).

Definition isNaN (n : number) : bool :=
  match n with NaN => true | Num _ => false end.

Definition add (a b : number) : number :=
  match a, b with
  | Num x, Num y => Num (x + y)
  | _, _ => NaN
  end.

Definition sub (a b : number) : number :=
  match a, b with
  | Num x, Num y => Num (x - y)
  | _, _ => NaN
  end.

Definition abs (a : number) : number :=
  match a with
  | Num x => Num (Qabs x)
  | NaN => NaN
  end.

(** [a <= b]; every comparison with [NaN] is false. *)
Definition leb (a b : number) : bool :=
  match a, b with
  | Num x, Num y => Qle_bool x y
  | _, _ => false
  end.

(** [a > b]. *)
Definition gtb (a b : number) : bool :=
  match a, b with
  | Num x, Num y => negb (Qle_bool x y)
  | _, _ => false
  end.

(** [parseFloat] of a [decimal(10,2)] column holding [cents] cents. *)
Definition parseFloat_decimal (cents : Z) : number := Num (cents # 100).

(** Decimal digits of a natural number and of an index. *)
Definition string_of_nat (n : nat) : string :=
  NilEmpty.string_of_uint (Nat.to_uint n).

Definition string_of_Z (z : Z) : string :=
  NilEmpty.string_of_int (Z.to_int z).

(** [x.toFixed(2)]: nearest multiple of 0.01, two digits after the point. *)
Definition toFixed2_cents (c : Z) : string :=
  let a := Z.abs c in
  let frac := a mod 100 in
  let sign := if Z.ltb c 0 then "-" else EmptyString in
  let whole := if Z.eqb (a / 100) 0 then "0" else string_of_Z (a / 100) in
  let pad := if Z.ltb frac 10 then "0" else EmptyString in
  let digits := if Z.eqb frac 0 then "0" else string_of_Z frac in
  (sign ++ whole ++ "." ++ pad ++ digits)%string.

(** The magnitude is rounded, ties upwards, and the sign put back. *)
Definition round_cents (q : Q) : Z :=
  let n := Qfloor (Qabs q * 100 + (1 # 2)) in
  if Qle_bool 0 q then n else - n.

Definition toFixed2 (n : number) : string :=
  match n with
  | NaN => "NaN"
  | Num q => toFixed2_cents (round_cents q)
  end.

End Js.

(** ** Schema: enumerations and rows ([shared/schema.ts]) *)

Definition tableStatusEnum : list string := ["free"; "occupied"; "reserved"].
Definition orderStatusEnum : list string :=
  ["pending"; "confirmed"; "completed"; "cancelled"].
Definition orderItemStatusEnum : list string :=
  ["queued"; "preparing"; "almost_ready"; "ready"; "delivered"; "cancelled"].
Definition paymentMethodEnum : list string := ["cash"; "card"].

Module Table.
Record t := mk { id : Z; number : Z; capacity : Z; status : string }.
Definition set_status (s : string) (r : t) : t :=
  mk (id r) (number r) (capacity r) s.
End Table.

Module MenuItem.
Record t := mk { id : Z; name : string; price : Z; available : bool }.
End MenuItem.

Module Order.
Record t := mk { id : Z; tableId : Z; status : string; total : Z }.
Definition set_status (s : string) (r : t) : t :=
  mk (id r) (tableId r) s (total r).
Definition set_total (c : Z) (r : t) : t :=
  mk (id r) (tableId r) (status r) c.
End Order.

Module OrderItem.
Record t := mk {
  id : Z; orderId : Z; menuItemId : Z; quantity : Z;
  notes : option string; status : string; price : Z }.
Definition set_status (s : string) (r : t) : t :=
  mk (id r) (orderId r) (menuItemId r) (quantity r) (notes r) s (price r).
End OrderItem.

Module Payment.
Record t := mk { id : Z; orderId : Z; tableId : Z; amount : Z; method : string }.
End Payment.

(** [amount] is the amount as the request sent it; the rounding of the column
  to two places is not modelled. *)
Module BillShare.
Record t := mk {
  id : Z; paymentId : Z; customerName : string; amount : Js.number; paid : bool }.
Definition set_paid (b : bool) (r : t) : t :=
  mk (id r) (paymentId r) (customerName r) (amount r) b.
End BillShare.

(** [OrderWithItems]: an order hydrated with its items and its table. *)
Module OrderWithItems.
Record t := mk {
  order : Order.t;
  orderItems : list OrderItem.t;
  table : option Table.t }.
End OrderWithItems.

(** The database: one list of rows per table and the identity sequences. *)
Record Db := mkDb {
  tables : list Table.t;
  menuItems : list MenuItem.t;
  orders : list Order.t;
  orderItems : list OrderItem.t;
  payments : list Payment.t;
  billShares : list BillShare.t;
  nextOrderId : Z;
  nextOrderItemId : Z;
  nextPaymentId : Z;
  nextBillShareId : Z }.

(** [UPDATE ... SET ... WHERE key = k]: every row whose key is [k] is
    rewritten by [f]; the other rows are left as they are. *)
Definition update_where {A : Type} (key : A -> Z) (f : A -> A) (k : Z)
  (l : list A) : list A :=
  map (fun r => if key r =? k then f r else r) l.

Definition set_tables (l : list Table.t) (d : Db) : Db :=
  mkDb l (menuItems d) (orders d) (orderItems d) (payments d) (billShares d)
       (nextOrderId d) (nextOrderItemId d) (nextPaymentId d) (nextBillShareId d).

Definition set_orders (l : list Order.t) (d : Db) : Db :=
  mkDb (tables d) (menuItems d) l (orderItems d) (payments d) (billShares d)
       (nextOrderId d) (nextOrderItemId d) (nextPaymentId d) (nextBillShareId d).

Definition set_orderItems (l : list OrderItem.t) (d : Db) : Db :=
  mkDb (tables d) (menuItems d) (orders d) l (payments d) (billShares d)
       (nextOrderId d) (nextOrderItemId d) (nextPaymentId d) (nextBillShareId d).

Definition set_billShares (l : list BillShare.t) (d : Db) : Db :=
  mkDb (tables d) (menuItems d) (orders d) (orderItems d) (payments d) l
       (nextOrderId d) (nextOrderItemId d) (nextPaymentId d) (nextBillShareId d).

(** [INSERT ... RETURNING]: the row takes the next value of the identity
    sequence of its table. *)
Definition insert_order (row : Order.t) (d : Db) : Db :=
  mkDb (tables d) (menuItems d) (orders d ++ [row]) (orderItems d) (payments d)
       (billShares d)
       (nextOrderId d + 1) (nextOrderItemId d) (nextPaymentId d) (nextBillShareId d).

Definition insert_orderItem (row : OrderItem.t) (d : Db) : Db :=
  mkDb (tables d) (menuItems d) (orders d) (orderItems d ++ [row]) (payments d)
       (billShares d)
       (nextOrderId d) (nextOrderItemId d + 1) (nextPaymentId d) (nextBillShareId d).

Definition insert_payment (row : Payment.t) (d : Db) : Db :=
  mkDb (tables d) (menuItems d) (orders d) (orderItems d) (payments d ++ [row])
       (billShares d)
       (nextOrderId d) (nextOrderItemId d) (nextPaymentId d + 1) (nextBillShareId d).

Definition insert_billShare (row : BillShare.t) (d : Db) : Db :=
  mkDb (tables d) (menuItems d) (orders d) (orderItems d) (payments d)
       (billShares d ++ [row])
       (nextOrderId d) (nextOrderItemId d) (nextPaymentId d) (nextBillShareId d + 1).

(** Foreign keys and the unique index of [payments.order_id]. *)
Definition table_exists (d : Db) (id : Z) : bool :=
  existsb (fun r => Table.id r =? id) (tables d).
Definition menuItem_exists (d : Db) (id : Z) : bool :=
  existsb (fun r => MenuItem.id r =? id) (menuItems d).
Definition order_exists (d : Db) (id : Z) : bool :=
  existsb (fun r => Order.id r =? id) (orders d).
Definition payment_exists (d : Db) (id : Z) : bool :=
  existsb (fun r => Payment.id r =? id) (payments d).
Definition order_has_payment (d : Db) (orderId : Z) : bool :=
  existsb (fun r => Payment.orderId r =? orderId) (payments d).

(** ** Events: broadcasts and transaction boundaries *)

(** The messages of the catalogue that the handlers below send, with their
    payloads. *)
Inductive Message :=
| order_created (data : option OrderWithItems.t)
| order_confirmed (data : option OrderWithItems.t)
| order_item_status_updated (item : OrderItem.t) (order : option OrderWithItems.t)
| order_ready (data : OrderWithItems.t)
| order_item_cancelled (data : option OrderWithItems.t)
| payment_processed (payment : Payment.t) (orderId tableId : Z) (isSplitBill : bool)
| split_bill_completed (paymentId orderId tableId : Z).

Inductive Event :=
| Broadcast (m : Message)
| TxBegin
| TxCommit
| TxRollback.

(** The messages of a trace, in the order they were sent. *)
Fixpoint broadcasts (tr : list Event) : list Message :=
  match tr with
  | [] => []
  | Broadcast m :: rest => m :: broadcasts rest
  | _ :: rest => broadcasts rest
  end.

(** ** Handlers: state, exceptions, transactions *)

Record World := mkWorld { db : Db; trace : list Event }.

Inductive Outcome (A : Type) :=
| Return (a : A)
| Throw (message : string).
Arguments Return {A} a.
Arguments Throw {A} message.

(** A computation reads and writes the world and ends by returning or by
    throwing [new Error(message)].  What was written before a throw stays
    written. *)
Definition Handler (A : Type) : Type := World -> Outcome A * World.

Definition ret {A} (a : A) : Handler A := fun w => (Return a, w).

Definition throw {A} (message : string) : Handler A := fun w => (Throw message, w).

Definition bind {A B} (m : Handler A) (k : A -> Handler B) : Handler B :=
  fun w =>
    match m w with
    | (Return a, w') => k a w'
    | (Throw message, w') => (Throw message, w')
    end.

Declare Scope handler_scope.
Delimit Scope handler_scope with handler.
Notation "x <- m ;; k" := (bind m (fun x => k))
  (at level 100, m at next level, right associativity) : handler_scope.
Notation "m ;; k" := (bind m (fun _ => k))
  (at level 100, right associativity) : handler_scope.
Local Open Scope handler_scope.

(** A read of the database. *)
Definition query {A} (f : Db -> A) : Handler A :=
  fun w => (Return (f (db w)), w).

(** One SQL statement: it fails without writing, or writes and returns. *)
Definition statement {A} (f : Db -> Outcome (A * Db)) : Handler A :=
  fun w =>
    match f (db w) with
    | Return (a, d) => (Return a, mkWorld d (trace w))
    | Throw message => (Throw message, w)
    end.

(** [broadcast(message)]: the message leaves the server at once. *)
Definition broadcast (m : Message) : Handler unit :=
  fun w => (Return tt, mkWorld (db w) (trace w ++ [Broadcast m])).

(** [db.transaction(async (tx) => body)]: the writes of [body] are committed
    when it returns and undone when it throws; the exception is thrown again.
    [commits] tells whether the final [COMMIT] is accepted by the store; a
    refused commit undoes the writes and throws an error of the store, whose
    message stands here as a fixed text.  Messages already sent are not taken
    back. *)
Definition transaction {A} (commits : bool) (body : Handler A) : Handler A :=
  fun w =>
    match body (mkWorld (db w) (trace w ++ [TxBegin])) with
    | (Return a, w') =>
        if commits then (Return a, mkWorld (db w') (trace w' ++ [TxCommit]))
        else (Throw "transaction commit failed",
              mkWorld (db w) (trace w' ++ [TxRollback]))
    | (Throw message, w') =>
        (Throw message, mkWorld (db w) (trace w' ++ [TxRollback]))
    end.

(** ** Responses *)

Inductive Json :=
| JError (error : string)
| JOrder (o : option OrderWithItems.t)
| JOrderItem (i : option OrderItem.t)
| JPayment (p : Payment.t)
| JSplitBill (payment : Payment.t) (shares : list BillShare.t)
| JSuccess.

Module Response.
Record t := mk { status : Z; body : Json }.
Definition error (code : Z) (message : string) : t := mk code (JError message).
End Response.

(** [try { body } catch (error) { res.status(code).json({error: error.message}) }] *)
Definition try_catch (body : Handler Response.t) (code : Z)
  : World -> Response.t * World :=
  fun w =>
    match body w with
    | (Return r, w') => (r, w')
    | (Throw message, w') => (Response.error code message, w')
    end.

(** A request is served from a database, with an empty trace. *)
Definition serve (h : World -> Response.t * World) (d : Db) : Response.t * World :=
  h (mkWorld d []).

(** [catch] of the two bill-share handlers:
    [error.message || fallback]. *)
Definition try_catch_or (body : Handler Response.t) (code : Z) (fallback : string)
  : World -> Response.t * World :=
  fun w =>
    match body w with
    | (Return r, w') => (r, w')
    | (Throw message, w') =>
        (Response.error code (if Js.truthy_string message then message else fallback),
         w')
    end.

(** ** The persistence gateway ([./storage]) *)

Module Storage.

(** Modelled from the spec: [storage.getMenuItemById], a point lookup by id
    of the persistence gateway, whose source file is not part of the listing. *)
Definition getMenuItemById (id : Z) : Handler (option MenuItem.t) :=
  query (fun d => find (fun r => MenuItem.id r =? id) (menuItems d)).

(** Modelled from the spec: [storage.getOrderItemById], a point lookup by id. *)
Definition getOrderItemById (id : Z) : Handler (option OrderItem.t) :=
  query (fun d => find (fun r => OrderItem.id r =? id) (orderItems d)).

(** The hydrated order of [OrderWithItems]: the row, its items and its table. *)
Definition hydrate (d : Db) (o : Order.t) : OrderWithItems.t :=
  OrderWithItems.mk o
    (filter (fun i => OrderItem.orderId i =? Order.id o) (orderItems d))
    (find (fun r => Table.id r =? Order.tableId o) (tables d)).

Definition lookupOrder (d : Db) (id : Z) : option OrderWithItems.t :=
  option_map (hydrate d) (find (fun r => Order.id r =? id) (orders d)).

(** Modelled from the spec: [storage.getOrderById], which returns the fully
    hydrated order (items and table) or nothing. *)
Definition getOrderById (id : Z) : Handler (option OrderWithItems.t) :=
  query (fun d => lookupOrder d id).

(** Modelled from the spec: [storage.createOrder], an insert-returning under
    the enum of [orders.status] and the foreign key of [orders.table_id]. *)
Definition createOrder (tableId : Z) (status : string) (total : Z)
  : Handler Order.t :=
  statement (fun d =>
    if negb (Js.includes orderStatusEnum status) then
      Throw "invalid input value for enum order_status"
    else if negb (table_exists d tableId) then
      Throw "insert on orders violates foreign key constraint on table_id"
    else
      let row := Order.mk (nextOrderId d) tableId status total in
      Return (row, insert_order row d)).

(** Modelled from the spec: [storage.createOrderItem], an insert-returning
    under the enum of [order_items.status] and the two foreign keys. *)
Definition createOrderItem (orderId menuItemId quantity : Z)
  (notes : option string) (status : string) (price : Z) : Handler OrderItem.t :=
  statement (fun d =>
    if negb (Js.includes orderItemStatusEnum status) then
      Throw "invalid input value for enum order_item_status"
    else if negb (order_exists d orderId) then
      Throw "insert on order_items violates foreign key constraint on order_id"
    else if negb (menuItem_exists d menuItemId) then
      Throw "insert on order_items violates foreign key constraint on menu_item_id"
    else
      let row :=
        OrderItem.mk (nextOrderItemId d) orderId menuItemId quantity notes status price in
      Return (row, insert_orderItem row d)).

(** Modelled from the spec: [storage.updateOrderTotal], an update by id. *)
Definition updateOrderTotal (id : Z) (total : Z) : Handler unit :=
  statement (fun d =>
    Return (tt, set_orders
                  (update_where Order.id (Order.set_total total) id (orders d)) d)).

(** Modelled from the spec: [storage.updateOrderStatus], an update-returning
    by id under the enum of [orders.status]; nothing when no row matches. *)
Definition updateOrderStatus (id : Z) (status : string) : Handler (option Order.t) :=
  statement (fun d =>
    if negb (Js.includes orderStatusEnum status) then
      Throw "invalid input value for enum order_status"
    else
      let rows := update_where Order.id (Order.set_status status) id (orders d) in
      Return (find (fun r => Order.id r =? id) rows, set_orders rows d)).

(** Modelled from the spec: [storage.updateTableStatus], an update-returning
    by id under the enum of [tables.status]. *)
Definition updateTableStatus (id : Z) (status : string) : Handler (option Table.t) :=
  statement (fun d =>
    if negb (Js.includes tableStatusEnum status) then
      Throw "invalid input value for enum table_status"
    else
      let rows := update_where Table.id (Table.set_status status) id (tables d) in
      Return (find (fun r => Table.id r =? id) rows, set_tables rows d)).

(** Modelled from the spec: [storage.updateOrderItemStatus], the unconditional
    status overwrite of one item, under the enum of [order_items.status];
    nothing when no row matches. *)
Definition updateOrderItemStatus (id : Z) (status : string)
  : Handler (option OrderItem.t) :=
  statement (fun d =>
    if negb (Js.includes orderItemStatusEnum status) then
      Throw "invalid input value for enum order_item_status"
    else
      let rows :=
        update_where OrderItem.id (OrderItem.set_status status) id (orderItems d) in
      Return (find (fun r => OrderItem.id r =? id) rows, set_orderItems rows d)).

(** Modelled from the spec: [storage.createPayment], an insert-returning under
    the foreign keys of [payments] and the unique index of [order_id]. *)
Definition createPayment (orderId tableId amount : Z) (method : string)
  : Handler Payment.t :=
  statement (fun d =>
    if negb (order_exists d orderId) then
      Throw "insert on payments violates foreign key constraint on order_id"
    else if negb (table_exists d tableId) then
      Throw "insert on payments violates foreign key constraint on table_id"
    else if order_has_payment d orderId then
      Throw "duplicate key value violates unique constraint on payments.order_id"
    else
      let row := Payment.mk (nextPaymentId d) orderId tableId amount method in
      Return (row, insert_payment row d)).

End Storage.

(** [insertPaymentSchema.parse]: the fields are typed by the request records
    below; what is left to check is the enum of [method]. *)
Definition insertPaymentSchema_parse (method : string) : Handler unit :=
  if Js.includes paymentMethodEnum method then ret tt
  else throw "Invalid enum value. Expected 'cash' | 'card'".

(** ** Statements issued on the transaction handle [tx] *)

Module Sql.

(** [tx.select().from(orders).where(eq(orders.id, orderId)).limit(1)] *)
Definition select_order (orderId : Z) : Handler (option Order.t) :=
  query (fun d => find (fun r => Order.id r =? orderId) (orders d)).

(** [tx.insert(payments).values(paymentData).returning()] *)
Definition insert_payments (orderId tableId amount : Z) (method : string)
  : Handler Payment.t :=
  Storage.createPayment orderId tableId amount method.

(** [tx.insert(billShares).values({paymentId, customerName, amount, paid}).returning()] *)
Definition insert_billShares (paymentId : Z) (customerName : string)
  (amount : Js.number) (paid : bool) : Handler BillShare.t :=
  statement (fun d =>
    if negb (payment_exists d paymentId) then
      Throw "insert on bill_shares violates foreign key constraint on payment_id"
    else
      let row := BillShare.mk (nextBillShareId d) paymentId customerName amount paid in
      Return (row, insert_billShare row d)).

(** [tx.update(billShares).set({ paid: true }).where(eq(billShares.id, shareId)).returning()] *)
Definition update_billShares_paid (shareId : Z) : Handler (list BillShare.t) :=
  statement (fun d =>
    let rows :=
      update_where BillShare.id (BillShare.set_paid true) shareId (billShares d) in
    Return (filter (fun r => BillShare.id r =? shareId) rows, set_billShares rows d)).

(** [tx.select().from(billShares).where(eq(billShares.paymentId, paymentId))] *)
Definition select_billShares (paymentId : Z) : Handler (list BillShare.t) :=
  query (fun d => filter (fun r => BillShare.paymentId r =? paymentId) (billShares d)).

(** [tx.select().from(payments).where(eq(payments.id, paymentId)).limit(1)] *)
Definition select_payment (paymentId : Z) : Handler (option Payment.t) :=
  query (fun d => find (fun r => Payment.id r =? paymentId) (payments d)).

(** [tx.update(orders).set({ status: "completed" }).where(eq(orders.id, orderId))] *)
Definition update_orders_status (orderId : Z) (status : string) : Handler unit :=
  statement (fun d =>
    Return (tt, set_orders
                  (update_where Order.id (Order.set_status status) orderId (orders d))
                  d)).

(** [tx.update(tables).set({ status: "free" }).where(eq(tables.id, tableId))] *)
Definition update_tables_status (tableId : Z) (status : string) : Handler unit :=
  statement (fun d =>
    Return (tt, set_tables
                  (update_where Table.id (Table.set_status status) tableId (tables d))
                  d)).

End Sql.

(** ** Request bodies *)

Module OrderItemRequest.
Record t := mk { menuItemId : Z; quantity : Z; notes : option string }.
End OrderItemRequest.

Module PaymentRequest.
Record t := mk {
  orderId : Z; tableId : Z; amount : Z; method : string; isSplitBill : bool }.
End PaymentRequest.

(** A share of the request; [amount] holds [parseFloat(share.amount)]. *)
Module ShareRequest.
Record t := mk { customerName : string; amount : Js.number }.
End ShareRequest.

(** ** Order lifecycle *)

(** The loop of [POST /api/orders]: [for (const item of items)], with the
    running [total]. *)
Fixpoint addOrderItems (orderId : Z) (items : list OrderItemRequest.t) (total : Z)
  : Handler Z :=
  match items with
  | [] => ret total
  | item :: rest =>
      menuItem <- Storage.getMenuItemById (OrderItemRequest.menuItemId item) ;;
      match menuItem with
      | None => addOrderItems orderId rest total
      | Some menuItem =>
          Storage.createOrderItem orderId
            (OrderItemRequest.menuItemId item)
            (OrderItemRequest.quantity item)
            (OrderItemRequest.notes item)
            "queued"
            (MenuItem.price menuItem) ;;
          addOrderItems orderId rest
            (total + MenuItem.price menuItem * OrderItemRequest.quantity item)
      end
  end.

(** [POST /api/orders] (createOrder) *)
Definition createOrder (tableId : Z) (items : list OrderItemRequest.t)
  : World -> Response.t * World :=
  try_catch
    (order <- Storage.createOrder tableId "pending" 0 ;;
     total <- addOrderItems (Order.id order) items 0 ;;
     Storage.updateOrderTotal (Order.id order) total ;;
     Storage.updateTableStatus tableId "occupied" ;;
     completeOrder <- Storage.getOrderById (Order.id order) ;;
     broadcast (order_created completeOrder) ;;
     ret (Response.mk 201 (JOrder completeOrder)))
    400.

(** [PATCH /api/orders/:id/confirm] (confirmOrder) *)
Definition confirmOrder (id : Z) : World -> Response.t * World :=
  try_catch
    (order <- Storage.updateOrderStatus id "confirmed" ;;
     match order with
     | None => ret (Response.error 404 "Order not found")
     | Some order =>
         completeOrder <- Storage.getOrderById (Order.id order) ;;
         broadcast (order_confirmed completeOrder) ;;
         ret (Response.mk 200 (JOrder completeOrder))
     end)
    500.

(** The test of [allReady]: ready, delivered or cancelled. *)
Definition isReadyOrDone (i : OrderItem.t) : bool :=
  ((OrderItem.status i =? "ready") || (OrderItem.status i =? "delivered")
   || (OrderItem.status i =? "cancelled"))%string.

(** [PATCH /api/orders/:orderId/items/:itemId/status] (updateOrderItemStatus) *)
Definition updateOrderItemStatus (orderId itemId : Z) (status : string)
  : World -> Response.t * World :=
  try_catch
    (item <- Storage.updateOrderItemStatus itemId status ;;
     match item with
     | None => ret (Response.error 404 "Order item not found")
     | Some item =>
         order <- Storage.getOrderById orderId ;;
         broadcast (order_item_status_updated item order) ;;
         match order with
         | Some order =>
             if (status =? "ready")%string then
               let allReady := forallb isReadyOrDone (OrderWithItems.orderItems order) in
               if allReady then broadcast (order_ready order) else ret tt
             else ret tt
         | None => ret tt
         end ;;
         ret (Response.mk 200 (JOrderItem (Some item)))
     end)
    500.

(** The recomputed total of the cancel handler: the sum of
    [parseFloat(i.price) * i.quantity] over the items that are not cancelled. *)
Definition activeItems (items : list OrderItem.t) : list OrderItem.t :=
  filter (fun i => negb (OrderItem.status i =? "cancelled")%string) items.

Definition activeTotal (items : list OrderItem.t) : Z :=
  fold_left (fun sum i => sum + OrderItem.price i * OrderItem.quantity i)
            (activeItems items) 0.

(** [PATCH /api/orders/:orderId/items/:itemId/cancel] (cancelOrderItem) *)
Definition cancelOrderItem (orderId itemId : Z) : World -> Response.t * World :=
  try_catch
    (item <- Storage.getOrderItemById itemId ;;
     match item with
     | None => ret (Response.error 404 "Order item not found")
     | Some item =>
         if negb (Js.includes ["queued"; "pending"] (OrderItem.status item)) then
           ret (Response.error 400
                  "Cannot cancel item that is already being prepared or delivered")
         else
           updatedItem <- Storage.updateOrderItemStatus itemId "cancelled" ;;
           order <- Storage.getOrderById orderId ;;
           match order with
           | Some order =>
               let total := activeTotal (OrderWithItems.orderItems order) in
               Storage.updateOrderTotal (Order.id (OrderWithItems.order order)) total ;;
               updatedOrder <-
                 Storage.getOrderById (Order.id (OrderWithItems.order order)) ;;
               broadcast (order_item_cancelled updatedOrder)
           | None => ret tt
           end ;;
           ret (Response.mk 200 (JOrderItem updatedItem))
     end)
    500.

(** [POST /api/payments] (recordPayment) *)
Definition recordPayment (data : PaymentRequest.t) : World -> Response.t * World :=
  try_catch
    (insertPaymentSchema_parse (PaymentRequest.method data) ;;
     payment <- Storage.createPayment (PaymentRequest.orderId data)
                  (PaymentRequest.tableId data) (PaymentRequest.amount data)
                  (PaymentRequest.method data) ;;
     (if negb (PaymentRequest.isSplitBill data) then
        Storage.updateOrderStatus (PaymentRequest.orderId data) "completed" ;;
        Storage.updateTableStatus (PaymentRequest.tableId data) "free" ;;
        ret tt
      else ret tt) ;;
     broadcast (payment_processed payment (PaymentRequest.orderId data)
                  (PaymentRequest.tableId data) (PaymentRequest.isSplitBill data)) ;;
     ret (Response.mk 201 (JPayment payment)))
    400.

(** ** Split-bill settlement *)

(** [shares.map((share, index) => ...)]: the first share that fails a test
    throws, naming its 1-based index; a valid share keeps its trimmed name. *)
Fixpoint validateShares (index : nat) (shares : list ShareRequest.t)
  : Handler (list ShareRequest.t) :=
  match shares with
  | [] => ret []
  | share :: rest =>
      if negb (Js.truthy_string (ShareRequest.customerName share))
         || negb (Js.truthy_string (Js.trim (ShareRequest.customerName share))) then
        throw ("Share " ++ Js.string_of_nat (index + 1) ++ ": Customer name is required")
      else
        let shareAmount := ShareRequest.amount share in
        if Js.isNaN shareAmount || Js.leb shareAmount (Js.Num 0) then
          throw ("Share " ++ Js.string_of_nat (index + 1) ++ ": Amount must be positive")
        else
          validated <- validateShares (S index) rest ;;
          ret (ShareRequest.mk (Js.trim (ShareRequest.customerName share))
                 (ShareRequest.amount share) :: validated)
  end.

(** [validatedShares.reduce((sum, s) => sum + parseFloat(s.amount), 0)] *)
Definition sharesTotal (validatedShares : list ShareRequest.t) : Js.number :=
  fold_left (fun sum s => Js.add sum (ShareRequest.amount s)) validatedShares (Js.Num 0).

(** [for (const share of validatedShares)]: one row per share, [paid: false]. *)
Fixpoint insertShares (paymentId : Z) (validatedShares : list ShareRequest.t)
  (createdShares : list BillShare.t) : Handler (list BillShare.t) :=
  match validatedShares with
  | [] => ret createdShares
  | share :: rest =>
      createdShare <- Sql.insert_billShares paymentId
                        (ShareRequest.customerName share)
                        (ShareRequest.amount share) false ;;
      insertShares paymentId rest (createdShares ++ [createdShare])
  end.

(** The body of the transaction of [POST /api/split-bill]. *)
Definition createSplitBill_tx (orderId tableId : Z) (method : string)
  (shares : list ShareRequest.t) : Handler (Payment.t * list BillShare.t) :=
  order <- Sql.select_order orderId ;;
  match order with
  | None => throw "Order not found"
  | Some order =>
      if negb (Order.status order =? "confirmed")%string then
        throw "Order must be confirmed to create split bill"
      else
        let authoritativeTotal := Js.parseFloat_decimal (Order.total order) in
        validatedShares <- validateShares 0 shares ;;
        let sharesTotal := sharesTotal validatedShares in
        if Js.gtb (Js.abs (Js.sub sharesTotal authoritativeTotal)) (Js.Num (1 # 100)) then
          throw ("Shares total ($" ++ Js.toFixed2 sharesTotal
                 ++ ") must equal order total ($" ++ Js.toFixed2 authoritativeTotal ++ ")")
        else
          insertPaymentSchema_parse method ;;
          payment <- Sql.insert_payments orderId tableId (Order.total order) method ;;
          createdShares <- insertShares (Payment.id payment) validatedShares [] ;;
          ret (payment, createdShares)
  end.

(** [POST /api/split-bill] (createSplitBill) *)
Definition createSplitBill (commits : bool) (orderId tableId : Z) (method : string)
  (shares : list ShareRequest.t) : World -> Response.t * World :=
  try_catch_or
    (if (List.length shares =? 0)%nat then
       ret (Response.error 400 "At least one bill share is required")
     else
       result <- transaction commits (createSplitBill_tx orderId tableId method shares) ;;
       ret (Response.mk 201 (JSplitBill (fst result) (snd result))))
    400 "Failed to create split bill".

(** The body of the transaction of [PATCH /api/bill-shares/:id/paid]. *)
Definition markShareAsPaid_tx (shareId : Z) : Handler unit :=
  updated <- Sql.update_billShares_paid shareId ;;
  match updated with
  | [] => throw "Share not found"
  | updatedShare :: _ =>
      if negb (Js.truthy_int (BillShare.paymentId updatedShare)) then
        throw "Share not found"
      else
        allShares <- Sql.select_billShares (BillShare.paymentId updatedShare) ;;
        let allPaid := forallb BillShare.paid allShares in
        if allPaid then
          payment <- Sql.select_payment (BillShare.paymentId updatedShare) ;;
          match payment with
          | None => throw "Payment not found or missing order/table reference"
          | Some payment =>
              if negb (Js.truthy_int (Payment.orderId payment))
                 || negb (Js.truthy_int (Payment.tableId payment)) then
                throw "Payment not found or missing order/table reference"
              else
                Sql.update_orders_status (Payment.orderId payment) "completed" ;;
                Sql.update_tables_status (Payment.tableId payment) "free" ;;
                broadcast (split_bill_completed (BillShare.paymentId updatedShare)
                             (Payment.orderId payment) (Payment.tableId payment))
          end
        else ret tt
  end.

(** [PATCH /api/bill-shares/:id/paid] (markShareAsPaid) *)
Definition markShareAsPaid (commits : bool) (shareId : Z)
  : World -> Response.t * World :=
  try_catch_or
    (transaction commits (markShareAsPaid_tx shareId) ;;
     ret (Response.mk 200 JSuccess))
    500 "Failed to update bill share".

(** ** Worked example: two dishes, one table *)

Definition table1 : Table.t := Table.mk 1 1 4 "free".
Definition dishA : MenuItem.t := MenuItem.mk 1 "A" 1000 true.
Definition dishB : MenuItem.t := MenuItem.mk 2 "B" 500 true.

Definition db0 : Db := mkDb [table1] [dishA; dishB] [] [] [] [] 1 1 1 1.

Definition request0 : list OrderItemRequest.t :=
  [OrderItemRequest.mk 1 2 None; OrderItemRequest.mk 2 1 None].

(** The database after a request has been served. *)
Definition after (h : World -> Response.t * World) (d : Db) : Db :=
  db (snd (serve h d)).

Definition db1 : Db := after (createOrder 1 request0) db0.
Definition db2 : Db := after (confirmOrder 1) db1.

(** ** Vocabulary of the properties *)

(** The response of the guard of the cancel handler (InvalidState). *)
Definition cancel_refused : Response.t :=
  Response.error 400 "Cannot cancel item that is already being prepared or delivered".

(** The database once item [itemId] has been given [status]. *)
Definition with_item_status (itemId : Z) (status : string) (d : Db) : Db :=
  set_orderItems
    (update_where OrderItem.id (OrderItem.set_status status) itemId (orderItems d)) d.

(** The database once the total of order [orderId] has been set. *)
Definition with_order_total (orderId total : Z) (d : Db) : Db :=
  set_orders (update_where Order.id (Order.set_total total) orderId (orders d)) d.

(** The database once share [shareId] has been flagged as paid. *)
Definition with_share_paid (shareId : Z) (d : Db) : Db :=
  set_billShares
    (update_where BillShare.id (BillShare.set_paid true) shareId (billShares d)) d.

(** The database once order [orderId] is completed and table [tableId] free. *)
Definition settled (orderId tableId : Z) (d : Db) : Db :=
  set_tables (update_where Table.id (Table.set_status "free") tableId (tables d))
    (set_orders
       (update_where Order.id (Order.set_status "completed") orderId (orders d)) d).

(** The shares of payment [paymentId] other than [shareId]. *)
Definition siblings (d : Db) (paymentId shareId : Z) : list BillShare.t :=
  filter (fun r => (BillShare.paymentId r =? paymentId) && negb (BillShare.id r =? shareId))
         (billShares d).

(** Continuation of the worked example: the order is split between two
    payers, then the first share is settled. *)
Definition alice : ShareRequest.t := ShareRequest.mk "Alice" (Js.Num 10).
Definition bob : ShareRequest.t := ShareRequest.mk " Bob" (Js.Num 15).

Definition db3 : Db := after (createSplitBill true 1 1 "cash" [alice; bob]) db2.
Definition db4 : Db := after (markShareAsPaid true 1) db3.
Definition db5 : Db := after (markShareAsPaid true 2) db4.

(** A share whose name is blank once trimmed. *)
Definition blank_name (s : ShareRequest.t) : Prop :=
  Js.trim (ShareRequest.customerName s) = EmptyString.

(** A share whose amount is not a positive number. *)
Definition not_positive (s : ShareRequest.t) : Prop :=
  match ShareRequest.amount s with
  | Js.NaN => True
  | Js.Num q => (q <= 0)%Q
  end.

(** Two amounts further apart than 0.01. *)
Definition differ_by_more_than_a_cent (a b : Js.number) : Prop :=
  match a, b with
  | Js.Num x, Js.Num y => (1 # 100 < Qabs (x - y))%Q
  | _, _ => False
  end.

(** The two tests of the validation of one share, as the handler makes them. *)
Definition validShare (s : ShareRequest.t) : bool :=
  negb (negb (Js.truthy_string (ShareRequest.customerName s))
        || negb (Js.truthy_string (Js.trim (ShareRequest.customerName s))))
  && negb (Js.isNaN (ShareRequest.amount s)
           || Js.leb (ShareRequest.amount s) (Js.Num 0)).

(** A validated share: the name trimmed, the amount as sent. *)
Definition validated (s : ShareRequest.t) : ShareRequest.t :=
  ShareRequest.mk (Js.trim (ShareRequest.customerName s)) (ShareRequest.amount s).

(** The rows created for a list of validated shares, numbered from [first]. *)
Fixpoint shareRows (paymentId first : Z) (l : list ShareRequest.t)
  : list BillShare.t :=
  match l with
  | [] => []
  | s :: rest =>
      BillShare.mk first paymentId (ShareRequest.customerName s)
        (ShareRequest.amount s) false
      :: shareRows paymentId (first + 1) rest
  end.

(** The database once [rows] have been appended to the bill shares. *)
Definition with_shares (rows : list BillShare.t) (d : Db) : Db :=
  mkDb (tables d) (menuItems d) (orders d) (orderItems d) (payments d)
       (billShares d ++ rows)
       (nextOrderId d) (nextOrderItemId d) (nextPaymentId d)
       (nextBillShareId d + Z.of_nat (List.length rows)).

(** The requested items whose [menuItemId] resolves, each with its menu row. *)
Fixpoint resolved (menu : list MenuItem.t) (items : list OrderItemRequest.t)
  : list (OrderItemRequest.t * MenuItem.t) :=
  match items with
  | [] => []
  | item :: rest =>
      match find (fun r => MenuItem.id r =? OrderItemRequest.menuItemId item) menu with
      | Some m => (item, m) :: resolved menu rest
      | None => resolved menu rest
      end
  end.

(** The order items created for resolved requests, numbered from [first]:
    status queued, price copied from the menu row. *)
Fixpoint itemRows (orderId first : Z) (l : list (OrderItemRequest.t * MenuItem.t))
  : list OrderItem.t :=
  match l with
  | [] => []
  | (item, m) :: rest =>
      OrderItem.mk first orderId (OrderItemRequest.menuItemId item)
        (OrderItemRequest.quantity item) (OrderItemRequest.notes item)
        "queued" (MenuItem.price m)
      :: itemRows orderId (first + 1) rest
  end.

(** The sum of quantity times snapshot price, added to [total]. *)
Definition snapshotTotal (l : list (OrderItemRequest.t * MenuItem.t)) (total : Z) : Z :=
  fold_left (fun sum p => sum + MenuItem.price (snd p) * OrderItemRequest.quantity (fst p))
            l total.

(** The database once [rows] have been appended to the order items. *)
Definition with_items (rows : list OrderItem.t) (d : Db) : Db :=
  mkDb (tables d) (menuItems d) (orders d) (orderItems d ++ rows) (payments d)
       (billShares d)
       (nextOrderId d) (nextOrderItemId d + Z.of_nat (List.length rows))
       (nextPaymentId d) (nextBillShareId d).

(** The database once table [tableId] has been given [status]. *)
Definition with_table_status (tableId : Z) (status : string) (d : Db) : Db :=
  set_tables (update_where Table.id (Table.set_status status) tableId (tables d)) d.

(** The identity sequence of [orders] is ahead of every order id in use. *)
Definition order_ids_fresh (d : Db) : Prop :=
  (forall o, In o (orders d) -> Order.id o < nextOrderId d)
  /\ (forall i, In i (orderItems d) -> OrderItem.orderId i < nextOrderId d).

Definition list_sum_Z (l : list Z) : Z := fold_right Z.add 0 l.

(** The sum of price times quantity over the items that are not cancelled, as
    the spec writes the derived total. *)
Definition derivedTotal (items : list OrderItem.t) : Z :=
  list_sum_Z
    (map (fun i => OrderItem.price i * OrderItem.quantity i)
         (filter (fun i => negb (OrderItem.status i =? "cancelled")%string) items)).

(** The stored total of every order is its derived total. *)
Definition totals_consistent (d : Db) : bool :=
  forallb (fun o =>
             Order.total o
             =? derivedTotal
                  (filter (fun i => OrderItem.orderId i =? Order.id o) (orderItems d)))
          (orders d).

(** The database left by an accepted [createOrder tableId items]. *)
Definition with_new_order (tableId : Z) (items : list OrderItemRequest.t) (d : Db)
  : Db :=
  let oid := nextOrderId d in
  let rs := resolved (menuItems d) items in
  with_table_status tableId "occupied"
    (with_order_total oid (snapshotTotal rs 0)
       (with_items (itemRows oid (nextOrderItemId d) rs)
          (insert_order (Order.mk oid tableId "pending" 0) d))).

(** A response is a success when its status is below 400. *)
Definition succeeded (r : Response.t) : bool := Response.status r <? 400.

(** The messages broadcast while a request is served. *)
Definition sent (h : World -> Response.t * World) (d : Db) : list Message :=
  broadcasts (trace (snd (serve h d))).

(** The reading of the spec: a success sends exactly one message, a failure
    none. *)
Definition one_broadcast_per_success (h : World -> Response.t * World) (d : Db)
  : Prop :=
  if succeeded (fst (serve h d)) then List.length (sent h d) = 1%nat
  else sent h d = [].

(** The example order once its first item is ready. *)
Definition db1_ready : Db := after (updateOrderItemStatus 1 1 "ready") db1.

(** Two databases with the same stored totals, order by order. *)
Definition same_totals (d d' : Db) : Prop :=
  map Order.total (orders d') = map Order.total (orders d).

(** Two databases with the same order ids in use and the same sequence. *)
Definition same_order_ids (d d' : Db) : Prop :=
  map Order.id (orders d') = map Order.id (orders d)
  /\ map OrderItem.orderId (orderItems d') = map OrderItem.orderId (orderItems d)
  /\ nextOrderId d' = nextOrderId d.

From Stdlib Require Import Permutation.

(** ** Vocabulary of the further properties *)

(** The database once order [orderId] has been given [status]. *)
Definition with_order_status (orderId : Z) (status : string) (d : Db) : Db :=
  set_orders (update_where Order.id (Order.set_status status) orderId (orders d)) d.

(** The payment row that [Storage.createPayment] inserts. *)
Definition new_payment (d : Db) (orderId tableId amount : Z) (method : string)
  : Payment.t :=
  Payment.mk (nextPaymentId d) orderId tableId amount method.

(** At most one payment per order: the unique index of [payments.order_id]. *)
Definition one_payment_per_order (d : Db) : Prop :=
  NoDup (map Payment.orderId (payments d)).

(** A share that passes both tests: a name that is not blank, a positive
    amount. *)
Definition well_formed_share (s : ShareRequest.t) : Prop :=
  ~ blank_name s /\ ~ not_positive s.

(** The example with a second order placed on the same table. *)
Definition db1_two_orders : Db := after (createOrder 1 request0) db1.

(** The example order after its second item was set to cancelled through the
    status handler: the stored total is stale. *)
Definition db1_stale : Db := after (updateOrderItemStatus 1 2 "cancelled") db1.

(** ** The connected terminals ([clients], [broadcast], the [connection]
    handler of the WebSocket server) *)

Module Ws.

(** [WebSocket.readyState] *)
Inductive ReadyState := CONNECTING | OPEN | CLOSING | CLOSED.

Definition isOpen (s : ReadyState) : bool :=
  match s with OPEN => true | _ => false end.

(** [clients]: a [Set] of sockets.  A socket is named by an integer; the set
    keeps its members in insertion order, each once. *)
Definition Clients := list Z.

Definition has (clients : Clients) (ws : Z) : bool :=
  existsb (fun c => c =? ws) clients.

(** [clients.add(ws)] *)
Definition add (ws : Z) (clients : Clients) : Clients :=
  if has clients ws then clients else (clients ++ [ws])%list.

(** [clients.delete(ws)] *)
Definition delete (ws : Z) (clients : Clients) : Clients :=
  filter (fun c => negb (c =? ws)) clients.

(** What happens to the set of clients: a connection, and the [close] and
    [error] events of a socket that has connected. *)
Inductive Event :=
| connection (ws : Z)
| close (ws : Z)
| error (ws : Z).

(** [wss.on("connection", ...)], [ws.on("close", ...)], [ws.on("error", ...)] *)
Definition handle (clients : Clients) (e : Event) : Clients :=
  match e with
  | connection ws => add ws clients
  | close ws => delete ws clients
  | error ws => delete ws clients
  end.

(** The set of clients after a history of events, from the empty set. *)
Definition clients_after (history : list Event) : Clients :=
  fold_left handle history [].

Section Broadcast.

(** Payloads and their serialisation [JSON.stringify]. *)
Context {Payload : Type} (stringify : Payload -> string).

(** The state of each socket at the time of a broadcast. *)
Variable readyState : Z -> ReadyState.

(** [broadcast(message)]: [client.send(data)] for each member that is open,
    in the order of the set.  The result lists the sends: socket and data. *)
Definition broadcast (clients : Clients) (message : Payload) : list (Z * string) :=
  let data := stringify message in
  flat_map (fun client => if isOpen (readyState client) then [(client, data)] else [])
           clients.

(** What one socket is sent by a broadcast. *)
Definition received (ws : Z) (sends : list (Z * string)) : list string :=
  map snd (filter (fun s => fst s =? ws) sends).

End Broadcast.

End Ws.

(** ** Super-admin views: organisations with their subscription, statistics

    Times are milliseconds since the epoch ([Date.getTime]); the division of
    [daysRemaining] is taken exact. *)

Module Admin.

Record Plan := mkPlan { planId : Z; planName : string; durationMonths : Z }.

(** A row of [subscriptions] with its plan ([with: { plan: true }]). *)
Record Subscription := mkSubscription {
  subscriptionId : Z;
  organizationId : Z;
  status : string;
  startDate : Z;
  endDate : Z;
  plan : Plan }.

(** A row of the query of [GET /api/admin/organizations]: the organisation
    with the array [subscriptions] that the query attached to it. *)
Record Organization := mkOrganization {
  id : Z;
  name : string;
  subscriptions : list Subscription }.

(** One element of [orgsWithStatus]. *)
Record OrgWithStatus := mkOrgWithStatus {
  org : Organization;
  subscriptionStatus : string;
  currentPlan : option Plan;
  expiresAt : option Z;
  daysRemaining : Z }.

Definition msPerDay : Z := 1000 * 60 * 60 * 24.

(** [Math.ceil(x / d)] for a positive [d]. *)
Definition ceil_div (x d : Z) : Z := - ((- x) / d).

(** [latestSub && latestSub.status === "active" && new Date(latestSub.endDate) > now] *)
Definition isActive (now : Z) (latestSub : option Subscription) : bool :=
  match latestSub with
  | None => false
  | Some sub => (status sub =? "active")%string && (now <? endDate sub)
  end.

(** The callback of [orgs.map]; [now] is the [new Date()] of that call. *)
Definition withStatus (now : Z) (o : Organization) : OrgWithStatus :=
  let latestSub := hd_error (subscriptions o) in
  let active := isActive now latestSub in
  mkOrgWithStatus o
    (if active then "active" else "expired")
    (option_map plan latestSub)
    (option_map endDate latestSub)
    (match latestSub with
     | Some sub => if active then ceil_div (endDate sub - now) msPerDay else 0
     | None => 0
     end).

(** The filters of [GET /api/admin/stats]. *)
Definition countsAsActive (now : Z) (sub : Subscription) : bool :=
  (status sub =? "active")%string && (now <=? endDate sub).

Definition countsAsExpiring (now : Z) (sub : Subscription) : bool :=
  (status sub =? "active")%string && (now <=? endDate sub)
  && (endDate sub <=? now + 7 * 24 * 60 * 60 * 1000).

Record Stats := mkStats {
  totalOrganizations : nat;
  activeSubscriptions : nat;
  expiringSoon : nat }.

(** The counts of the rows that pass each [where] clause. *)
Definition stats (now : Z) (organizations : list Organization)
  (subs : list Subscription) : Stats :=
  mkStats (List.length organizations)
          (List.length (filter (countsAsActive now) subs))
          (List.length (filter (countsAsExpiring now) subs)).

End Admin.

(** ** Settling the shares of a bill one request after the other *)

(** The shares named by [shareIds] are settled in that order, each by its own
    request, with the commit accepted; the result is the last database and the
    messages broadcast along the way. *)
Fixpoint settle (shareIds : list Z) (d : Db) : Db * list Message :=
  match shareIds with
  | [] => (d, [])
  | shareId :: rest =>
      let w := snd (serve (markShareAsPaid true shareId) d) in
      let (d', later) := settle rest (db w) in
      (d', (broadcasts (trace w) ++ later)%list)
  end.

(** The rows of a bill once the shares named in [settled] are paid. *)
Definition paidRows (settled : list Z) (rows : list BillShare.t) : list BillShare.t :=
  map (fun r => if existsb (fun x => x =? BillShare.id r) settled
                then BillShare.set_paid true r else r)
      rows.

(** The sequences of payments and of bill shares are ahead of the ids in
    use, and no share refers to a payment yet to come. *)
Definition settlement_ids_fresh (d : Db) : Prop :=
  (forall p, In p (payments d) -> Payment.id p < nextPaymentId d)
  /\ (forall s, In s (billShares d) ->
        BillShare.id s < nextBillShareId d /\ BillShare.paymentId s < nextPaymentId d).

(** ** Login and session ([POST /api/auth/login], [GET /api/auth/session]) *)

Module Auth.

(** A row of [users]; the password column is read by [authenticateUser] only
    and is left out. *)
Record User := mkUser {
  id : Z;
  organizationId : option Z;
  username : string;
  email : option string;
  globalRole : string;
  role : string;
  name : string;
  isActive : bool }.

Record Organization := mkOrganization {
  orgId : Z;
  orgName : string;
  orgType : string;
  logoUrl : option string }.

(** The fields the handlers put in a response. *)
Record UserSummary := mkUserSummary {
  sId : Z; sUsername : string; sName : string; sGlobalRole : string;
  sRole : string; sEmail : option string }.

Definition summary (u : User) : UserSummary :=
  mkUserSummary (id u) (username u) (name u) (globalRole u) (role u) (email u).

(** What [req.session] holds once a login has written it. *)
Record Session := mkSession {
  userId : Z;
  sessionUsername : string;
  sessionGlobalRole : string;
  sessionRole : string;
  sessionOrganizationId : option Z;
  organizationType : option string }.

Inductive Body :=
| Error (error : string)
| SubscriptionExpired
| LoggedIn (user : UserSummary) (organization : option Organization)
| Unauthenticated
| Authenticated (user : UserSummary) (organization : option Organization).

Record Response := mkResponse { status : Z; body : Body }.

(** Truthiness of a nullable id and of an optional string of the body. *)
Definition truthy_id (o : option Z) : bool :=
  match o with Some n => Js.truthy_int n | None => false end.

Definition truthy_field (o : option string) : bool :=
  match o with Some s => Js.truthy_string s | None => false end.

Section Handlers.

(** [authenticateUser] and [checkSubscriptionActive] are imported from
    [./auth], which is not part of the listing: they are taken as they come. *)
Variable authenticateUser : string -> string -> option User.
Variable checkSubscriptionActive : Z -> bool.

(** The tables the two handlers query themselves. *)
Variable users : list User.
Variable organizations : list Organization.

(** [if (user.organizationId) organization = await db.query.organizations.findFirst(...)] *)
Definition organizationOf (u : User) : option Organization :=
  match organizationId u with
  | Some oid =>
      if Js.truthy_int oid then find (fun o => orgId o =? oid) organizations else None
  | None => None
  end.

Definition text (o : option string) : string :=
  match o with Some s => s | None => EmptyString end.

(** The subscription gate of the login: it concerns a user that is not a super
    admin and has an organisation, and refuses when
    [checkSubscriptionActive(user.organizationId)] is false. *)
Definition subscriptionRefused (user : User) : bool :=
  match organizationId user with
  | Some oid =>
      if negb (globalRole user =? "super_admin")%string && Js.truthy_int oid
      then negb (checkSubscriptionActive oid)
      else false
  | None => false
  end.

(** [POST /api/auth/login]: the response and the session it leaves. *)
Definition login (reqUsername reqPassword : option string) (session : option Session)
  : Response * option Session :=
  if negb (truthy_field reqUsername) || negb (truthy_field reqPassword) then
    (mkResponse 400 (Error "Username and password are required"), session)
  else
    match authenticateUser (text reqUsername) (text reqPassword) with
    | None => (mkResponse 401 (Error "Invalid credentials"), session)
    | Some user =>
        if negb (isActive user) then
          (mkResponse 403 (Error "Account is disabled"), session)
        else if subscriptionRefused user then
          (mkResponse 403 SubscriptionExpired, session)
        else
          let organization := organizationOf user in
          (mkResponse 200 (LoggedIn (summary user) organization),
           Some (mkSession (id user) (username user) (globalRole user) (role user)
                   (organizationId user) (option_map orgType organization)))
    end.

(** [GET /api/auth/session] *)
Definition getSession (session : option Session) : Response :=
  match session with
  | None => mkResponse 200 Unauthenticated
  | Some s =>
      if negb (Js.truthy_int (userId s)) then mkResponse 200 Unauthenticated
      else
        match find (fun u => id u =? userId s) users with
        | None => mkResponse 200 Unauthenticated
        | Some user =>
            mkResponse 200 (Authenticated (summary user) (organizationOf user))
        end
  end.

End Handlers.

End Auth.

(** An example: one organisation, its admin, and a super admin. *)
Definition bistro : Auth.Organization := Auth.mkOrganization 1 "Bistro" "restaurant" None.
Definition ana : Auth.User :=
  Auth.mkUser 1 (Some 1) "ana" None "org_admin" "admin" "Ana" true.
Definition root : Auth.User :=
  Auth.mkUser 2 None "root" None "super_admin" "admin" "Root" true.

Definition exampleAuthenticate (u p : string) : option Auth.User :=
  if (u =? "ana")%string && (p =? "secret")%string then Some ana
  else if (u =? "root")%string && (p =? "toor")%string then Some root
  else None.

(** ** The slug of a new organisation ([POST /api/auth/register])

    [organizationName.toLowerCase().replace(/[^a-z0-9]/g, "-").replace(/-+/g, "-")]
    on a name written in ASCII; a character above 127 is outside [a-z0-9]
    and is replaced like any other. *)

Module Slug.

Definition dash : ascii := "-"%char.

(** [toLowerCase] of one ASCII character. *)
Definition toLowerCase (c : ascii) : ascii :=
  let n := nat_of_ascii c in
  if ((65 <=? n) && (n <=? 90))%nat then ascii_of_nat (n + 32) else c.

(** The class [a-z0-9]. *)
Definition alphanumeric (c : ascii) : bool :=
  let n := nat_of_ascii c in
  (((97 <=? n) && (n <=? 122)) || ((48 <=? n) && (n <=? 57)))%nat.

(** [.replace(/[^a-z0-9]/g, "-")] on one character. *)
Definition replaceOther (c : ascii) : ascii :=
  if alphanumeric c then c else dash.

Fixpoint mapChars (f : ascii -> ascii) (s : string) : string :=
  match s with
  | EmptyString => EmptyString
  | String c rest => String (f c) (mapChars f rest)
  end.

(** [.replace(/-+/g, "-")]: each run of dashes becomes one dash. *)
Fixpoint collapseDashes (s : string) : string :=
  match s with
  | EmptyString => EmptyString
  | String c rest =>
      if Ascii.eqb c dash then
        match collapseDashes rest with
        | String c' rest' =>
            if Ascii.eqb c' dash then String c' rest' else String dash (String c' rest')
        | EmptyString => String dash EmptyString
        end
      else String c (collapseDashes rest)
  end.

Definition slug (organizationName : string) : string :=
  collapseDashes (mapChars replaceOther (mapChars toLowerCase organizationName)).

(** Every character is in [a-z0-9] or is a dash. *)
Fixpoint urlSafe (s : string) : bool :=
  match s with
  | EmptyString => true
  | String c rest => (alphanumeric c || Ascii.eqb c dash) && urlSafe rest
  end.

(** No two dashes in a row. *)
Fixpoint noDoubleDash (s : string) : bool :=
  match s with
  | String c (String c' _ as rest) =>
      negb (Ascii.eqb c dash && Ascii.eqb c' dash) && noDoubleDash rest
  | _ => true
  end.

End Slug.

(** * Properties *)

Local Open Scope list_scope.

#[local] Arguments String.eqb : simpl never.
#[local] Arguments Js.includes : simpl never.
#[local] Arguments Z.add : simpl never.
#[local] Arguments Z.mul : simpl never.
#[local] Arguments update_where : simpl never.

(** Closed string tests are evaluated; open ones are left alone. *)
Ltac ground_tests :=
  repeat match goal with
  | |- context [String.eqb ?a ?b] =>
      let v := eval vm_compute in (String.eqb a b) in
      lazymatch v with
      | true => change (String.eqb a b) with true
      | false => change (String.eqb a b) with false
      end
  | |- context [Js.includes ?l ?s] =>
      let v := eval vm_compute in (Js.includes l s) in
      lazymatch v with
      | true => change (Js.includes l s) with true
      | false => change (Js.includes l s) with false
      end
  end.

Ltac run :=
  unfold after;
  unfold serve, try_catch, try_catch_or, transaction, bind, ret, throw,
    query, statement, broadcast; cbn; ground_tests; cbn.

(** ** Rows and lookups *)

Section Lookup.

Context {A : Type} (key : A -> Z) (f : A -> A).
Hypothesis key_f : forall r, key (f r) = key r.

Lemma find_update_where (k : Z) (l : list A) :
  find (fun r => key r =? k) (update_where key f k l)
  = option_map f (find (fun r => key r =? k) l).
Proof.
  unfold update_where.
  induction l as [|r l IH]; simpl; [reflexivity|].
  destruct (key r =? k) eqn:E.
  - rewrite key_f, E. reflexivity.
  - rewrite E. exact IH.
Qed.

Lemma find_update_other (k k' : Z) (l : list A) :
  k' <> k ->
  find (fun r => key r =? k') (update_where key f k l)
  = find (fun r => key r =? k') l.
Proof.
  intros Hne. unfold update_where.
  induction l as [|r l IH]; simpl; [reflexivity|].
  destruct (key r =? k) eqn:E.
  - rewrite key_f. apply Z.eqb_eq in E.
    destruct (key r =? k') eqn:E'; [apply Z.eqb_eq in E'; congruence | exact IH].
  - destruct (key r =? k'); [reflexivity | exact IH].
Qed.

End Lookup.

(** ** Cancellation of an item *)

Lemma cancelOrderItem_refused (d : Db) (orderId itemId : Z) (item : OrderItem.t) :
  find (fun r => OrderItem.id r =? itemId) (orderItems d) = Some item ->
  Js.includes ["queued"; "pending"] (OrderItem.status item) = false ->
  serve (cancelOrderItem orderId itemId) d = (cancel_refused, mkWorld d []).
Proof.
  intros Hfind Hguard.
  unfold cancelOrderItem, Storage.getOrderItemById. run.
  rewrite Hfind, Hguard. reflexivity.
Qed.

(** The run of an accepted cancellation: the item is cancelled; when the
    order of the URL exists its total is recomputed and the refreshed order
    broadcast. *)
Lemma cancelOrderItem_run (d : Db) (orderId itemId : Z) (item : OrderItem.t) :
  find (fun r => OrderItem.id r =? itemId) (orderItems d) = Some item ->
  Js.includes ["queued"; "pending"] (OrderItem.status item) = true ->
  serve (cancelOrderItem orderId itemId) d
  = (Response.mk 200 (JOrderItem (Some (OrderItem.set_status "cancelled" item))),
     let d1 := with_item_status itemId "cancelled" d in
     match Storage.lookupOrder d1 orderId with
     | Some o =>
         let id := Order.id (OrderWithItems.order o) in
         let d2 := with_order_total id (activeTotal (OrderWithItems.orderItems o)) d1 in
         mkWorld d2 [Broadcast (order_item_cancelled (Storage.lookupOrder d2 id))]
     | None => mkWorld d1 []
     end).
Proof.
  intros Hfind Hguard.
  unfold cancelOrderItem, Storage.getOrderItemById, Storage.updateOrderItemStatus,
    Storage.getOrderById, Storage.updateOrderTotal. run.
  rewrite Hfind, Hguard. run.
  rewrite (find_update_where OrderItem.id (OrderItem.set_status "cancelled")
             (fun r => eq_refl)), Hfind. cbn.
  fold (with_item_status itemId "cancelled" d).
  destruct (Storage.lookupOrder (with_item_status itemId "cancelled" d) orderId)
    as [o|]; reflexivity.
Qed.

Lemma orderItems_after_cancel (d : Db) (orderId itemId : Z) (item : OrderItem.t) :
  find (fun r => OrderItem.id r =? itemId) (orderItems d) = Some item ->
  Js.includes ["queued"; "pending"] (OrderItem.status item) = true ->
  orderItems (after (cancelOrderItem orderId itemId) d)
  = update_where OrderItem.id (OrderItem.set_status "cancelled") itemId (orderItems d).
Proof.
  intros Hfind Hguard. unfold after.
  rewrite (cancelOrderItem_run d orderId itemId item Hfind Hguard). cbn.
  destruct (Storage.lookupOrder _ orderId); reflexivity.
Qed.

(** C5. With [item] the row found for [itemId]: the cancellation is refused
    with the InvalidState response, and nothing is written or broadcast, when
    the item is preparing, almost_ready, ready or delivered; it is accepted
    when the item is queued or pending, the item is then cancelled, and a
    second attempt is refused with the same InvalidState response. *)
Theorem cancelOrderItem_guard (d : Db) (orderId itemId : Z) (item : OrderItem.t) :
  find (fun r => OrderItem.id r =? itemId) (orderItems d) = Some item ->
  (In (OrderItem.status item) ["preparing"; "almost_ready"; "ready"; "delivered"] ->
   serve (cancelOrderItem orderId itemId) d = (cancel_refused, mkWorld d []))
  /\
  (In (OrderItem.status item) ["queued"; "pending"] ->
   let d' := after (cancelOrderItem orderId itemId) d in
   Response.status (fst (serve (cancelOrderItem orderId itemId) d)) = 200
   /\ find (fun r => OrderItem.id r =? itemId) (orderItems d')
      = Some (OrderItem.set_status "cancelled" item)
   /\ serve (cancelOrderItem orderId itemId) d' = (cancel_refused, mkWorld d' [])).
Proof.
  intros Hfind. split.
  - intros Hin. apply (cancelOrderItem_refused d orderId itemId item Hfind).
    simpl in Hin.
    destruct Hin as [H|[H|[H|[H|[]]]]]; rewrite <- H; reflexivity.
  - intros Hin d'.
    assert (Hguard : Js.includes ["queued"; "pending"] (OrderItem.status item) = true).
    { simpl in Hin. destruct Hin as [H|[H|[]]]; rewrite <- H; reflexivity. }
    assert (Hfind' : find (fun r => OrderItem.id r =? itemId) (orderItems d')
                     = Some (OrderItem.set_status "cancelled" item)).
    { unfold d'. rewrite (orderItems_after_cancel d orderId itemId item Hfind Hguard).
      rewrite (find_update_where OrderItem.id (OrderItem.set_status "cancelled")
                 (fun r => eq_refl)), Hfind. reflexivity. }
    split; [|split].
    + rewrite (cancelOrderItem_run d orderId itemId item Hfind Hguard). reflexivity.
    + exact Hfind'.
    + apply (cancelOrderItem_refused d' orderId itemId _ Hfind'). reflexivity.
Qed.

Lemma cancelOrderItem_guard_witness :
  serve (cancelOrderItem 1 2) (with_item_status 2 "preparing" db1)
  = (cancel_refused, mkWorld (with_item_status 2 "preparing" db1) [])
  /\ Response.status (fst (serve (cancelOrderItem 1 2) db1)) = 200.
Proof.
  split.
  - apply (proj1 (cancelOrderItem_guard (with_item_status 2 "preparing" db1) 1 2
                    (OrderItem.mk 2 1 2 1 None "preparing" 500) eq_refl)).
    simpl. left. reflexivity.
  - apply (proj2 (cancelOrderItem_guard db1 1 2
                    (OrderItem.mk 2 1 2 1 None "queued" 500) eq_refl)).
    simpl. left. reflexivity.
Defined.

(** ** Settlement of a share *)

Lemma filter_update_where_key {A : Type} (key : A -> Z) (f : A -> A) (k : Z)
  (l : list A) :
  (forall r, key (f r) = key r) ->
  filter (fun r => key r =? k) (update_where key f k l)
  = map f (filter (fun r => key r =? k) l).
Proof.
  intros key_f. unfold update_where.
  induction l as [|r l IH]; simpl; [reflexivity|].
  destruct (key r =? k) eqn:E.
  - rewrite key_f, E. simpl. f_equal. exact IH.
  - rewrite E. exact IH.
Qed.

Lemma filter_head_find {A : Type} (p : A -> bool) (l : list A) :
  find p l = hd_error (filter p l).
Proof.
  induction l as [|r l IH]; simpl; [reflexivity|].
  destruct (p r); [reflexivity | exact IH].
Qed.

(** After the flag flip, all shares of the payment are paid exactly when the
    siblings of the share were. *)
Lemma allPaid_after_flip (shareId paymentId : Z) (l : list BillShare.t) :
  forallb BillShare.paid
    (filter (fun r => BillShare.paymentId r =? paymentId)
       (update_where BillShare.id (BillShare.set_paid true) shareId l))
  = forallb BillShare.paid
      (filter (fun r => (BillShare.paymentId r =? paymentId)
                        && negb (BillShare.id r =? shareId)) l).
Proof.
  unfold update_where.
  induction l as [|r l IH]; simpl; [reflexivity|].
  destruct (BillShare.id r =? shareId) eqn:E; simpl.
  - destruct (BillShare.paymentId r =? paymentId); simpl; exact IH.
  - destruct (BillShare.paymentId r =? paymentId); simpl; [f_equal|]; exact IH.
Qed.

(** The run of the transaction body on a share that exists. *)
Lemma markShareAsPaid_tx_run (shareId : Z) (share : BillShare.t) (w : World) :
  find (fun r => BillShare.id r =? shareId) (billShares (db w)) = Some share ->
  BillShare.paymentId share <> 0 ->
  let pid := BillShare.paymentId share in
  let d1 := with_share_paid shareId (db w) in
  markShareAsPaid_tx shareId w
  = if forallb BillShare.paid (siblings (db w) pid shareId) then
      match find (fun r => Payment.id r =? pid) (payments (db w)) with
      | None =>
          (Throw "Payment not found or missing order/table reference",
           mkWorld d1 (trace w))
      | Some payment =>
          if negb (Js.truthy_int (Payment.orderId payment))
             || negb (Js.truthy_int (Payment.tableId payment)) then
            (Throw "Payment not found or missing order/table reference",
             mkWorld d1 (trace w))
          else
            (Return tt,
             mkWorld (settled (Payment.orderId payment) (Payment.tableId payment) d1)
               (trace w ++ [Broadcast (split_bill_completed pid
                                         (Payment.orderId payment)
                                         (Payment.tableId payment))]))
      end
    else (Return tt, mkWorld d1 (trace w)).
Proof.
  intros Hfind Hpid pid d1.
  unfold markShareAsPaid_tx, Sql.update_billShares_paid, Sql.select_billShares,
    Sql.select_payment, Sql.update_orders_status, Sql.update_tables_status. run.
  rewrite (filter_update_where_key BillShare.id (BillShare.set_paid true) shareId
             (billShares (db w)) (fun r => eq_refl)).
  rewrite filter_head_find in Hfind.
  destruct (filter (fun r => BillShare.id r =? shareId) (billShares (db w)))
    as [|s rest]; [discriminate|].
  cbn in Hfind. injection Hfind as ->. cbn.
  fold pid. unfold Js.truthy_int at 1.
  destruct (pid =? 0) eqn:E; [apply Z.eqb_eq in E; contradiction|]. cbn.
  rewrite allPaid_after_flip. fold (siblings (db w) pid shareId).
  destruct (forallb BillShare.paid (siblings (db w) pid shareId)); [|reflexivity].
  simpl.
  destruct (find (fun r => Payment.id r =? pid) (payments (db w))) as [p|];
    [|reflexivity].
  destruct (negb (Js.truthy_int (Payment.orderId p))
            || negb (Js.truthy_int (Payment.tableId p))); reflexivity.
Qed.

(** The run on a share that does not exist. *)
Lemma markShareAsPaid_tx_missing (shareId : Z) (w : World) :
  find (fun r => BillShare.id r =? shareId) (billShares (db w)) = None ->
  markShareAsPaid_tx shareId w
  = (Throw "Share not found", mkWorld (with_share_paid shareId (db w)) (trace w)).
Proof.
  intros Hfind.
  unfold markShareAsPaid_tx, Sql.update_billShares_paid. run.
  rewrite (filter_update_where_key BillShare.id (BillShare.set_paid true) shareId
             (billShares (db w)) (fun r => eq_refl)).
  rewrite filter_head_find in Hfind.
  destruct (filter (fun r => BillShare.id r =? shareId) (billShares (db w)));
    [reflexivity | discriminate].
Qed.

Lemma markShareAsPaid_run (commits : bool) (shareId : Z) (d : Db) :
  serve (markShareAsPaid commits shareId) d
  = match markShareAsPaid_tx shareId (mkWorld d [TxBegin]) with
    | (Return _, w') =>
        if commits then (Response.mk 200 JSuccess, mkWorld (db w') (trace w' ++ [TxCommit]))
        else (Response.error 500 "transaction commit failed",
              mkWorld d (trace w' ++ [TxRollback]))
    | (Throw message, w') =>
        (Response.error 500
           (if Js.truthy_string message then message else "Failed to update bill share"),
         mkWorld d (trace w' ++ [TxRollback]))
    end.
Proof.
  unfold markShareAsPaid, serve, try_catch_or, bind, transaction, ret.
  cbn [db trace app].
  destruct (markShareAsPaid_tx shareId (mkWorld d [TxBegin])) as [[[]|message] w'];
    [destruct commits|]; reflexivity.
Qed.

Lemma siblings_paid_iff (d : Db) (paymentId shareId : Z) :
  forallb BillShare.paid (siblings d paymentId shareId) = true
  <-> (forall s, In s (billShares d) -> BillShare.paymentId s = paymentId ->
                 BillShare.id s <> shareId -> BillShare.paid s = true).
Proof.
  unfold siblings. rewrite forallb_forall. split.
  - intros H s Hin Hp Hid. apply H. apply filter_In. split; [exact Hin|].
    apply andb_true_iff. split; [apply Z.eqb_eq; exact Hp|].
    apply negb_true_iff. apply Z.eqb_neq. exact Hid.
  - intros H s Hin. apply filter_In in Hin. destruct Hin as [Hin Hb].
    apply andb_true_iff in Hb. destruct Hb as [Hp Hid].
    apply H; [exact Hin | apply Z.eqb_eq; exact Hp |].
    apply negb_true_iff in Hid. apply Z.eqb_neq. exact Hid.
Qed.

Lemma siblings_unpaid (d : Db) (paymentId shareId : Z) (s : BillShare.t) :
  In s (billShares d) -> BillShare.paymentId s = paymentId ->
  BillShare.id s <> shareId -> BillShare.paid s = false ->
  forallb BillShare.paid (siblings d paymentId shareId) = false.
Proof.
  intros Hin Hp Hid Hpaid.
  destruct (forallb BillShare.paid (siblings d paymentId shareId)) eqn:E;
    [|reflexivity].
  rewrite siblings_paid_iff in E. rewrite (E s Hin Hp Hid) in Hpaid. discriminate.
Qed.

Lemma truthy_int_nonzero (n : Z) : n <> 0 -> Js.truthy_int n = true.
Proof.
  intros H. unfold Js.truthy_int. apply negb_true_iff. apply Z.eqb_neq. exact H.
Qed.

(** The run on the completion path and on the partial path, whatever the
    outcome of the final commit. *)
Lemma markShareAsPaid_completion (commits : bool) (d : Db) (shareId : Z)
  (share : BillShare.t) (payment : Payment.t) :
  find (fun r => BillShare.id r =? shareId) (billShares d) = Some share ->
  BillShare.paymentId share <> 0 ->
  find (fun r => Payment.id r =? BillShare.paymentId share) (payments d) = Some payment ->
  Payment.orderId payment <> 0 ->
  Payment.tableId payment <> 0 ->
  forallb BillShare.paid (siblings d (BillShare.paymentId share) shareId) = true ->
  let completed :=
    Broadcast (split_bill_completed (BillShare.paymentId share)
                 (Payment.orderId payment) (Payment.tableId payment)) in
  serve (markShareAsPaid commits shareId) d
  = if commits then
      (Response.mk 200 JSuccess,
       mkWorld (settled (Payment.orderId payment) (Payment.tableId payment)
                  (with_share_paid shareId d))
         [TxBegin; completed; TxCommit])
    else
      (Response.error 500 "transaction commit failed",
       mkWorld d [TxBegin; completed; TxRollback]).
Proof.
  intros Hshare Hpid Hpay Ho Ht Hsib completed.
  rewrite markShareAsPaid_run.
  rewrite (markShareAsPaid_tx_run shareId share (mkWorld d [TxBegin]) Hshare Hpid).
  cbn [db trace]. rewrite Hsib, Hpay.
  rewrite (truthy_int_nonzero _ Ho), (truthy_int_nonzero _ Ht). cbn.
  destruct commits; reflexivity.
Qed.

Lemma markShareAsPaid_partial (commits : bool) (d : Db) (shareId : Z)
  (share : BillShare.t) :
  find (fun r => BillShare.id r =? shareId) (billShares d) = Some share ->
  BillShare.paymentId share <> 0 ->
  forallb BillShare.paid (siblings d (BillShare.paymentId share) shareId) = false ->
  serve (markShareAsPaid commits shareId) d
  = if commits then
      (Response.mk 200 JSuccess, mkWorld (with_share_paid shareId d) [TxBegin; TxCommit])
    else
      (Response.error 500 "transaction commit failed", mkWorld d [TxBegin; TxRollback]).
Proof.
  intros Hshare Hpid Hsib.
  rewrite markShareAsPaid_run.
  rewrite (markShareAsPaid_tx_run shareId share (mkWorld d [TxBegin]) Hshare Hpid).
  cbn [db trace]. rewrite Hsib. destruct commits; reflexivity.
Qed.



Lemma update_where_fixed {A : Type} (key : A -> Z) (f : A -> A) (k : Z) (l : list A) :
  (forall r, In r l -> key r = k -> f r = r) ->
  update_where key f k l = l.
Proof.
  unfold update_where. induction l as [|r l IH]; intros H; simpl; [reflexivity|].
  rewrite IH by (intros r' Hin; apply H; right; exact Hin).
  destruct (key r =? k) eqn:E; [|reflexivity].
  rewrite (H r (or_introl eq_refl)) by (apply Z.eqb_eq; exact E). reflexivity.
Qed.

Lemma set_paid_fixed (r : BillShare.t) :
  BillShare.paid r = true -> BillShare.set_paid true r = r.
Proof. destruct r; simpl; intros ->; reflexivity. Qed.

Lemma set_order_status_fixed (s : string) (r : Order.t) :
  Order.status r = s -> Order.set_status s r = r.
Proof. destruct r; simpl; intros ->; reflexivity. Qed.

Lemma set_table_status_fixed (s : string) (r : Table.t) :
  Table.status r = s -> Table.set_status s r = r.
Proof. destruct r; simpl; intros ->; reflexivity. Qed.

(** C10. On a share that is already paid, of a payment whose shares are all
    paid, whose order is completed and whose table is free, the handler
    answers 200, leaves the database exactly as it was, and sends
    [split_bill_completed] once more. *)
Theorem markShareAsPaid_again (d : Db) (shareId : Z) (share : BillShare.t)
  (payment : Payment.t) :
  find (fun r => BillShare.id r =? shareId) (billShares d) = Some share ->
  BillShare.paymentId share <> 0 ->
  find (fun r => Payment.id r =? BillShare.paymentId share) (payments d)
  = Some payment ->
  Payment.orderId payment <> 0 ->
  Payment.tableId payment <> 0 ->
  (forall r, In r (billShares d) -> BillShare.id r = shareId ->
             BillShare.paid r = true) ->
  (forall s, In s (billShares d) ->
             BillShare.paymentId s = BillShare.paymentId share ->
             BillShare.paid s = true) ->
  (forall o, In o (orders d) -> Order.id o = Payment.orderId payment ->
             Order.status o = "completed") ->
  (forall t, In t (tables d) -> Table.id t = Payment.tableId payment ->
             Table.status t = "free") ->
  serve (markShareAsPaid true shareId) d
  = (Response.mk 200 JSuccess,
     mkWorld d [TxBegin;
                Broadcast (split_bill_completed (BillShare.paymentId share)
                             (Payment.orderId payment) (Payment.tableId payment));
                TxCommit]).
Proof.
  intros Hshare Hpid Hpay Ho Ht Hself Hall Horder Htable.
  assert (Hsib : forallb BillShare.paid
                   (siblings d (BillShare.paymentId share) shareId) = true).
  { apply siblings_paid_iff. intros s Hin Hp _. apply Hall; assumption. }
  pose proof (markShareAsPaid_completion true d shareId share payment
                Hshare Hpid Hpay Ho Ht Hsib) as Hrun.
  cbv zeta in Hrun. rewrite Hrun. f_equal. f_equal.
  unfold settled, with_share_paid.
  rewrite (update_where_fixed BillShare.id (BillShare.set_paid true) shareId)
    by (intros r Hin Hid; apply set_paid_fixed; apply Hself; assumption).
  destruct d; cbn in *.
  rewrite (update_where_fixed Order.id (Order.set_status "completed"))
    by (intros r Hin Hid; apply set_order_status_fixed; apply Horder; assumption).
  rewrite (update_where_fixed Table.id (Table.set_status "free"))
    by (intros r Hin Hid; apply set_table_status_fixed; apply Htable; assumption).
  reflexivity.
Qed.

Lemma markShareAsPaid_again_witness :
  serve (markShareAsPaid true 1) db5
  = (Response.mk 200 JSuccess,
     mkWorld db5 [TxBegin; Broadcast (split_bill_completed 1 1 1); TxCommit]).
Proof.
  apply (markShareAsPaid_again db5 1 (BillShare.mk 1 1 "Alice" (Js.Num 10) true)
           (Payment.mk 1 1 1 2500 "cash") eq_refl).
  - discriminate.
  - reflexivity.
  - discriminate.
  - discriminate.
  - intros r Hin _. vm_compute in Hin. destruct Hin as [<-|[<-|[]]]; reflexivity.
  - intros r Hin _. vm_compute in Hin. destruct Hin as [<-|[<-|[]]]; reflexivity.
  - intros r Hin _. vm_compute in Hin. destruct Hin as [<-|[]]; reflexivity.
  - intros r Hin _. vm_compute in Hin. destruct Hin as [<-|[]]; reflexivity.
Defined.

(** C4. On the completion path (the share exists, every other share of its
    payment is paid, the payment names an order and a table) the message
    [split_bill_completed] is sent inside the transaction: in the trace of the
    request it comes before the commit.  When the commit is not accepted the
    transaction is rolled back, the database is left as it was, the handler
    answers 500, and the message has been sent all the same. *)
Theorem split_bill_completed_sent_before_commit (d : Db) (shareId : Z)
  (share : BillShare.t) (payment : Payment.t) :
  find (fun r => BillShare.id r =? shareId) (billShares d) = Some share ->
  BillShare.paymentId share <> 0 ->
  find (fun r => Payment.id r =? BillShare.paymentId share) (payments d)
  = Some payment ->
  Payment.orderId payment <> 0 ->
  Payment.tableId payment <> 0 ->
  (forall s, In s (billShares d) ->
             BillShare.paymentId s = BillShare.paymentId share ->
             BillShare.id s <> shareId -> BillShare.paid s = true) ->
  let completed :=
    Broadcast (split_bill_completed (BillShare.paymentId share)
                 (Payment.orderId payment) (Payment.tableId payment)) in
  trace (snd (serve (markShareAsPaid true shareId) d)) = [TxBegin; completed; TxCommit]
  /\ serve (markShareAsPaid false shareId) d
     = (Response.error 500 "transaction commit failed",
        mkWorld d [TxBegin; completed; TxRollback]).
Proof.
  intros Hshare Hpid Hpay Ho Ht Hlast completed.
  apply siblings_paid_iff in Hlast.
  pose proof (markShareAsPaid_completion true d shareId share payment
                Hshare Hpid Hpay Ho Ht Hlast) as Hrun.
  pose proof (markShareAsPaid_completion false d shareId share payment
                Hshare Hpid Hpay Ho Ht Hlast) as Hrun'.
  cbv zeta in Hrun, Hrun'. rewrite Hrun, Hrun'. split; reflexivity.
Qed.

Lemma split_bill_completed_sent_before_commit_witness :
  trace (snd (serve (markShareAsPaid true 2) db4))
  = [TxBegin; Broadcast (split_bill_completed 1 1 1); TxCommit]
  /\ serve (markShareAsPaid false 2) db4
     = (Response.error 500 "transaction commit failed",
        mkWorld db4 [TxBegin; Broadcast (split_bill_completed 1 1 1); TxRollback]).
Proof.
  apply (split_bill_completed_sent_before_commit db4 2
           (BillShare.mk 2 1 "Bob" (Js.Num 15) false)
           (Payment.mk 1 1 1 2500 "cash") eq_refl).
  - discriminate.
  - reflexivity.
  - discriminate.
  - discriminate.
  - intros s Hin Hp Hid. vm_compute in Hin.
    destruct Hin as [<-|[<-|[]]]; [reflexivity | contradiction Hid; reflexivity].
Defined.

(** ** Creation of a split bill *)

Lemma validateShares_valid (shares : list ShareRequest.t) (index : nat) (w : World) :
  forallb validShare shares = true ->
  validateShares index shares w = (Return (map validated shares), w).
Proof.
  revert index. induction shares as [|s rest IH]; intros index Hall; [reflexivity|].
  simpl in Hall. apply andb_true_iff in Hall. destruct Hall as [Hs Hrest].
  unfold validShare in Hs. apply andb_true_iff in Hs. destruct Hs as [Hname Hamount].
  apply negb_true_iff in Hname, Hamount.
  cbn [validateShares]. rewrite Hname, Hamount.
  unfold bind. rewrite (IH (S index) Hrest). reflexivity.
Qed.

Lemma validateShares_invalid (shares : list ShareRequest.t) (index : nat) (w : World) :
  forallb validShare shares = false ->
  exists message, validateShares index shares w = (Throw message, w).
Proof.
  revert index. induction shares as [|s rest IH]; intros index Hall; [discriminate|].
  cbn [validateShares].
  destruct (negb (Js.truthy_string (ShareRequest.customerName s))
            || negb (Js.truthy_string (Js.trim (ShareRequest.customerName s))))
    eqn:Hname; [eexists; reflexivity|].
  destruct (Js.isNaN (ShareRequest.amount s)
            || Js.leb (ShareRequest.amount s) (Js.Num 0))
    eqn:Hamount; [eexists; reflexivity|].
  simpl in Hall. unfold validShare in Hall. rewrite Hname, Hamount in Hall.
  simpl in Hall. destruct (IH (S index) Hall) as [message Hm].
  exists message. unfold bind. rewrite Hm. reflexivity.
Qed.

Lemma sharesTotal_validated (shares : list ShareRequest.t) :
  sharesTotal (map validated shares) = sharesTotal shares.
Proof.
  unfold sharesTotal. generalize (Js.Num 0).
  induction shares as [|s rest IH]; intros acc; [reflexivity|].
  simpl. apply IH.
Qed.

Lemma blank_name_invalid (s : ShareRequest.t) : blank_name s -> validShare s = false.
Proof.
  unfold blank_name, validShare. intros ->.
  rewrite orb_true_r. reflexivity.
Qed.

Lemma not_positive_invalid (s : ShareRequest.t) :
  not_positive s -> validShare s = false.
Proof.
  unfold not_positive, validShare. intros H.
  destruct (ShareRequest.amount s) as [|q]; cbn [Js.isNaN Js.leb orb].
  - apply andb_false_r.
  - apply Qle_bool_iff in H. rewrite H. apply andb_false_r.
Qed.

Lemma Exists_invalid (shares : list ShareRequest.t) :
  Exists (fun s => validShare s = false) shares -> forallb validShare shares = false.
Proof.
  intros H. destruct (forallb validShare shares) eqn:E; [|reflexivity].
  rewrite forallb_forall in E. apply Exists_exists in H.
  destruct H as [s [Hin Hs]]. rewrite (E s Hin) in Hs. discriminate.
Qed.

Lemma differ_gtb (a b : Js.number) :
  differ_by_more_than_a_cent a b
  <-> Js.gtb (Js.abs (Js.sub a b)) (Js.Num (1 # 100)) = true.
Proof.
  unfold differ_by_more_than_a_cent.
  destruct a as [|x], b as [|y]; cbn [Js.gtb Js.abs Js.sub];
    try (split; [contradiction | discriminate]).
  rewrite negb_true_iff. split.
  - intros H. destruct (Qle_bool (Qabs (x - y)) (1 # 100)) eqn:E; [|reflexivity].
    apply Qle_bool_iff in E. exfalso. exact (Qlt_not_le _ _ H E).
  - intros E. apply Qnot_le_lt. intros H. apply Qle_bool_iff in H. congruence.
Qed.

Lemma insertShares_run (paymentId : Z) (l : list ShareRequest.t)
  (created : list BillShare.t) (w : World) :
  payment_exists (db w) paymentId = true ->
  insertShares paymentId l created w
  = (Return (created ++ shareRows paymentId (nextBillShareId (db w)) l)%list,
     mkWorld (with_shares (shareRows paymentId (nextBillShareId (db w)) l) (db w))
       (trace w)).
Proof.
  revert created w. induction l as [|s rest IH]; intros created w Hpay.
  - cbn. unfold ret, with_shares. rewrite !app_nil_r, Z.add_0_r.
    destruct w as [d tr], d; reflexivity.
  - cbn [insertShares shareRows]. unfold bind, Sql.insert_billShares, statement.
    rewrite Hpay. cbn [negb].
    rewrite IH by exact Hpay. cbn [db trace nextBillShareId insert_billShare].
    f_equal.
    + rewrite <- app_assoc. reflexivity.
    + unfold with_shares. cbn. f_equal. f_equal.
      * rewrite <- app_assoc. reflexivity.
      * lia.
Qed.

Lemma find_existsb {A : Type} (p : A -> bool) (l : list A) (x : A) :
  find p l = Some x -> existsb p l = true.
Proof.
  intros H. apply find_some in H. apply existsb_exists. exists x. exact H.
Qed.

Lemma payment_exists_insert (row : Payment.t) (d : Db) :
  payment_exists (insert_payment row d) (Payment.id row) = true.
Proof.
  unfold payment_exists, insert_payment. cbn [payments].
  rewrite existsb_app. cbn. rewrite Z.eqb_refl. apply orb_true_r.
Qed.

(** The transaction body of the split bill either throws, having sent
    nothing, or has passed every test and returns the payment and the rows
    it inserted. *)
Lemma createSplitBill_tx_cases (orderId tableId : Z) (method : string)
  (shares : list ShareRequest.t) (w : World) :
  (exists message w',
     createSplitBill_tx orderId tableId method shares w = (Throw message, w')
     /\ trace w' = trace w)
  \/
  (exists order,
     find (fun r => Order.id r =? orderId) (orders (db w)) = Some order
     /\ Order.status order = "confirmed"
     /\ forallb validShare shares = true
     /\ Js.gtb (Js.abs (Js.sub (sharesTotal shares)
                          (Js.parseFloat_decimal (Order.total order))))
               (Js.Num (1 # 100)) = false
     /\ Js.includes paymentMethodEnum method = true
     /\ table_exists (db w) tableId = true
     /\ order_has_payment (db w) orderId = false
     /\ let payment :=
          Payment.mk (nextPaymentId (db w)) orderId tableId (Order.total order) method in
        let rows :=
          shareRows (Payment.id payment) (nextBillShareId (db w)) (map validated shares) in
        createSplitBill_tx orderId tableId method shares w
        = (Return (payment, rows),
           mkWorld (with_shares rows (insert_payment payment (db w))) (trace w))).
Proof.
  unfold createSplitBill_tx, Sql.select_order, query, bind.
  destruct (find (fun r => Order.id r =? orderId) (orders (db w))) as [order|] eqn:Hfind;
    [|left; eexists; eexists; split; reflexivity].
  destruct (Order.status order =? "confirmed")%string eqn:Hstatus; cbn [negb];
    [|left; eexists; eexists; split; reflexivity].
  apply String.eqb_eq in Hstatus.
  destruct (forallb validShare shares) eqn:Hvalid.
  2:{ destruct (validateShares_invalid shares 0 w Hvalid) as [message Hm].
      rewrite Hm. left. eexists; eexists; split; reflexivity. }
  rewrite (validateShares_valid shares 0 w Hvalid), sharesTotal_validated.
  destruct (Js.gtb _ (Js.Num (1 # 100))) eqn:Hsum;
    [left; eexists; eexists; split; reflexivity|].
  unfold insertPaymentSchema_parse.
  destruct (Js.includes paymentMethodEnum method) eqn:Hmethod;
    [|left; eexists; eexists; split; reflexivity].
  unfold ret, Sql.insert_payments, Storage.createPayment, statement.
  unfold order_exists. rewrite (find_existsb _ _ _ Hfind). cbn [negb].
  destruct (table_exists (db w) tableId) eqn:Htable; cbn [negb];
    [|left; eexists; eexists; split; reflexivity].
  destruct (order_has_payment (db w) orderId) eqn:Hunique;
    [left; eexists; eexists; split; reflexivity|].
  right. exists order. repeat (split; [assumption || reflexivity|]).
  cbv zeta.
  rewrite insertShares_run by apply payment_exists_insert.
  reflexivity.
Qed.

Lemma createSplitBill_run (commits : bool) (orderId tableId : Z) (method : string)
  (shares : list ShareRequest.t) (d : Db) :
  shares <> [] ->
  serve (createSplitBill commits orderId tableId method shares) d
  = match createSplitBill_tx orderId tableId method shares (mkWorld d [TxBegin]) with
    | (Return result, w') =>
        if commits then
          (Response.mk 201 (JSplitBill (fst result) (snd result)),
           mkWorld (db w') (trace w' ++ [TxCommit]))
        else (Response.error 400 "transaction commit failed",
              mkWorld d (trace w' ++ [TxRollback]))
    | (Throw message, w') =>
        (Response.error 400
           (if Js.truthy_string message then message else "Failed to create split bill"),
         mkWorld d (trace w' ++ [TxRollback]))
    end.
Proof.
  intros Hne. destruct shares as [|s rest]; [contradiction|].
  unfold createSplitBill, serve, try_catch_or, bind, transaction, ret.
  cbn [List.length Nat.eqb db trace app].
  destruct (createSplitBill_tx orderId tableId method (s :: rest) (mkWorld d [TxBegin]))
    as [[result|message] w']; [destruct commits|]; reflexivity.
Qed.

Lemma shareRows_length (paymentId first : Z) (l : list ShareRequest.t) :
  List.length (shareRows paymentId first l) = List.length l.
Proof.
  revert first. induction l as [|s rest IH]; intros first; simpl; [reflexivity|].
  rewrite IH. reflexivity.
Qed.

Lemma shareRows_unpaid (paymentId first : Z) (l : list ShareRequest.t) :
  Forall (fun r => BillShare.paid r = false /\ BillShare.paymentId r = paymentId)
         (shareRows paymentId first l).
Proof.
  revert first. induction l as [|s rest IH]; intros first; simpl; constructor.
  - split; reflexivity.
  - apply IH.
Qed.



(** ** Creation of an order *)

Lemma addOrderItems_run (orderId : Z) (items : list OrderItemRequest.t) (total : Z)
  (w : World) :
  order_exists (db w) orderId = true ->
  let rs := resolved (menuItems (db w)) items in
  addOrderItems orderId items total w
  = (Return (snapshotTotal rs total),
     mkWorld (with_items (itemRows orderId (nextOrderItemId (db w)) rs) (db w))
       (trace w)).
Proof.
  revert total w. induction items as [|item rest IH]; intros total w Horder rs.
  - cbn. unfold ret, with_items. rewrite app_nil_r, Z.add_0_r.
    destruct w as [d tr], d; reflexivity.
  - subst rs. cbn [addOrderItems resolved].
    unfold bind at 1. unfold Storage.getMenuItemById, query.
    destruct (find (fun r => MenuItem.id r =? OrderItemRequest.menuItemId item)
                (menuItems (db w))) as [m|] eqn:Hm.
    + unfold bind, Storage.createOrderItem, statement. ground_tests. cbn [negb].
      rewrite Horder. unfold menuItem_exists. rewrite (find_existsb _ _ _ Hm).
      cbn [negb]. rewrite IH by exact Horder.
      cbn [db trace menuItems nextOrderItemId insert_orderItem itemRows snapshotTotal
           fold_left fst snd].
      f_equal. unfold with_items. cbn. f_equal. f_equal.
      * rewrite <- app_assoc. reflexivity.
      * lia.
    + apply IH. exact Horder.
Qed.

Lemma order_exists_insert (row : Order.t) (d : Db) :
  order_exists (insert_order row d) (Order.id row) = true.
Proof.
  unfold order_exists, insert_order. cbn [orders].
  rewrite existsb_app. cbn. rewrite Z.eqb_refl. apply orb_true_r.
Qed.

(** The run of [createOrder] on a table that exists: it always succeeds. *)
Lemma createOrder_run (tableId : Z) (items : list OrderItemRequest.t) (d : Db) :
  table_exists d tableId = true ->
  let d' := with_new_order tableId items d in
  let completeOrder := Storage.lookupOrder d' (nextOrderId d) in
  serve (createOrder tableId items) d
  = (Response.mk 201 (JOrder completeOrder),
     mkWorld d' [Broadcast (order_created completeOrder)]).
Proof.
  intros Htable d' completeOrder.
  unfold createOrder, serve, try_catch.
  unfold bind at 1. unfold Storage.createOrder, statement. ground_tests.
  cbn [negb db trace]. rewrite Htable. cbn [negb Order.id].
  unfold bind at 1.
  rewrite addOrderItems_run
    by (apply (order_exists_insert (Order.mk (nextOrderId d) tableId "pending" 0))).
  cbv zeta. cbn [db trace].
  unfold bind, Storage.updateOrderTotal, Storage.updateTableStatus,
    Storage.getOrderById, statement, query, broadcast, ret.
  ground_tests. cbn [negb db trace app].
  reflexivity.
Qed.

(** On a table that does not exist the insert of the order fails. *)
Lemma createOrder_no_table (tableId : Z) (items : list OrderItemRequest.t) (d : Db) :
  table_exists d tableId = false ->
  serve (createOrder tableId items) d
  = (Response.error 400 "insert on orders violates foreign key constraint on table_id",
     mkWorld d []).
Proof.
  intros Htable.
  unfold createOrder, serve, try_catch.
  unfold bind at 1. unfold Storage.createOrder, statement. ground_tests.
  cbn [negb db trace]. rewrite Htable. reflexivity.
Qed.

Lemma find_none_existsb {A : Type} (p : A -> bool) (l : list A) :
  find p l = None -> existsb p l = false.
Proof.
  induction l as [|r l IH]; simpl; [reflexivity|].
  destruct (p r); [discriminate | exact IH].
Qed.

Lemma find_app_none {A : Type} (p : A -> bool) (l1 l2 : list A) :
  (forall r, In r l1 -> p r = false) -> find p (l1 ++ l2) = find p l2.
Proof.
  induction l1 as [|r l1 IH]; intros H; simpl; [reflexivity|].
  rewrite (H r (or_introl eq_refl)). apply IH. intros r' Hin. apply H. right. exact Hin.
Qed.

Lemma filter_none {A : Type} (p : A -> bool) (l : list A) :
  (forall r, In r l -> p r = false) -> filter p l = [].
Proof.
  induction l as [|r l IH]; intros H; simpl; [reflexivity|].
  rewrite (H r (or_introl eq_refl)). apply IH. intros r' Hin. apply H. right. exact Hin.
Qed.

Lemma filter_all {A : Type} (p : A -> bool) (l : list A) :
  (forall r, In r l -> p r = true) -> filter p l = l.
Proof.
  induction l as [|r l IH]; intros H; simpl; [reflexivity|].
  rewrite (H r (or_introl eq_refl)). f_equal. apply IH.
  intros r' Hin. apply H. right. exact Hin.
Qed.

Lemma update_where_app {A : Type} (key : A -> Z) (f : A -> A) (k : Z) (l1 l2 : list A) :
  update_where key f k (l1 ++ l2) = update_where key f k l1 ++ update_where key f k l2.
Proof. unfold update_where. apply map_app. Qed.

Lemma fold_left_sum {A : Type} (g : A -> Z) (l : list A) (a : Z) :
  fold_left (fun sum x => sum + g x) l a = a + list_sum_Z (map g l).
Proof.
  revert a. induction l as [|x l IH]; intros a; simpl; [lia|].
  rewrite IH. unfold list_sum_Z. lia.
Qed.

(** The total of the cancel handler is the derived total of the spec. *)
Lemma activeTotal_derived (items : list OrderItem.t) :
  activeTotal items = derivedTotal items.
Proof.
  unfold activeTotal, activeItems, derivedTotal.
  rewrite (fold_left_sum (fun i => OrderItem.price i * OrderItem.quantity i)). lia.
Qed.

(** The rows created for an order: what each carries. *)
Lemma itemRows_snapshot (orderId first : Z) (rs : list (OrderItemRequest.t * MenuItem.t)) :
  Forall2 (fun p row =>
             OrderItem.orderId row = orderId
             /\ OrderItem.menuItemId row = OrderItemRequest.menuItemId (fst p)
             /\ OrderItem.quantity row = OrderItemRequest.quantity (fst p)
             /\ OrderItem.notes row = OrderItemRequest.notes (fst p)
             /\ OrderItem.status row = "queued"
             /\ OrderItem.price row = MenuItem.price (snd p))
          rs (itemRows orderId first rs).
Proof.
  revert first. induction rs as [|[item m] rest IH]; intros first; simpl; constructor.
  - repeat split.
  - apply IH.
Qed.

Lemma itemRows_orderId (orderId first : Z) (rs : list (OrderItemRequest.t * MenuItem.t)) :
  forall row, In row (itemRows orderId first rs) -> OrderItem.orderId row = orderId.
Proof.
  revert first. induction rs as [|[item m] rest IH]; intros first row Hin; simpl in Hin.
  - contradiction.
  - destruct Hin as [<-|Hin]; [reflexivity | exact (IH _ _ Hin)].
Qed.

Lemma itemRows_total (orderId first : Z) (rs : list (OrderItemRequest.t * MenuItem.t)) :
  snapshotTotal rs 0 = derivedTotal (itemRows orderId first rs).
Proof.
  unfold snapshotTotal, derivedTotal.
  rewrite (fold_left_sum
             (fun p => MenuItem.price (snd p) * OrderItemRequest.quantity (fst p))).
  rewrite Z.add_0_l. f_equal.
  revert first. induction rs as [|[item m] rest IH]; intros first; [reflexivity|].
  cbn [itemRows filter OrderItem.status]. ground_tests. cbn [negb map fst snd].
  cbn [OrderItem.price OrderItem.quantity].
  f_equal. apply IH.
Qed.

Lemma resolved_found (menu : list MenuItem.t) (items : list OrderItemRequest.t) :
  forall item m, In (item, m) (resolved menu items) ->
    In item items
    /\ find (fun r => MenuItem.id r =? OrderItemRequest.menuItemId item) menu = Some m.
Proof.
  induction items as [|i rest IH]; intros item m Hin; simpl in Hin; [contradiction|].
  destruct (find (fun r => MenuItem.id r =? OrderItemRequest.menuItemId i) menu)
    as [mi|] eqn:Hfind.
  - destruct Hin as [Heq|Hin].
    + injection Heq as <- <-. split; [left; reflexivity | exact Hfind].
    + destruct (IH _ _ Hin). split; [right|]; assumption.
  - destruct (IH _ _ Hin). split; [right|]; assumption.
Qed.

(** The skipped requests are exactly those whose menu item does not exist. *)
Lemma resolved_requests (d : Db) (items : list OrderItemRequest.t) :
  map fst (resolved (menuItems d) items)
  = filter (fun item => menuItem_exists d (OrderItemRequest.menuItemId item)) items.
Proof.
  unfold menuItem_exists.
  induction items as [|i rest IH]; simpl; [reflexivity|].
  destruct (find (fun r => MenuItem.id r =? OrderItemRequest.menuItemId i) (menuItems d))
    as [mi|] eqn:Hfind.
  - rewrite (find_existsb _ _ _ Hfind). simpl. f_equal. exact IH.
  - rewrite (find_none_existsb _ _ Hfind). exact IH.
Qed.

(** What an accepted [createOrder] leaves in the database, when the sequence
    of order ids is ahead of the ids in use. *)
Lemma with_new_order_rows (tableId : Z) (items : list OrderItemRequest.t) (d : Db) :
  order_ids_fresh d ->
  let oid := nextOrderId d in
  let rs := resolved (menuItems d) items in
  let rows := itemRows oid (nextOrderItemId d) rs in
  let order := Order.mk oid tableId "pending" (snapshotTotal rs 0) in
  let d' := with_new_order tableId items d in
  orders d' = orders d ++ [order]
  /\ orderItems d' = orderItems d ++ rows
  /\ tables d' = update_where Table.id (Table.set_status "occupied") tableId (tables d)
  /\ Storage.lookupOrder d' oid
     = Some (OrderWithItems.mk order rows
               (find (fun r => Table.id r =? tableId) (tables d'))).
Proof.
  intros [Horders Hitems] oid rs rows order d'.
  assert (Ho : orders d' = orders d ++ [order]).
  { unfold d', with_new_order, with_table_status, with_order_total, with_items,
      insert_order. cbn.
    rewrite update_where_app. f_equal.
    - apply update_where_fixed. intros r Hin Hid.
      specialize (Horders r Hin). lia.
    - unfold update_where. cbn. rewrite Z.eqb_refl. reflexivity. }
  assert (Hi : orderItems d' = orderItems d ++ rows) by reflexivity.
  assert (Ht : tables d'
               = update_where Table.id (Table.set_status "occupied") tableId (tables d))
    by reflexivity.
  repeat split; try assumption.
  unfold Storage.lookupOrder. rewrite Ho.
  rewrite find_app_none.
  2:{ intros r Hin. apply Z.eqb_neq. specialize (Horders r Hin). fold oid in Horders. lia. }
  cbn [find Order.id order]. rewrite Z.eqb_refl. cbn [option_map].
  unfold Storage.hydrate. rewrite Hi. cbn [Order.id Order.tableId order].
  rewrite filter_app, filter_none, filter_all.
  - reflexivity.
  - intros r Hin. apply Z.eqb_eq. exact (itemRows_orderId _ _ _ r Hin).
  - intros r Hin. apply Z.eqb_neq. specialize (Hitems r Hin). fold oid in Hitems. lia.
Qed.



Lemma resolved_nothing (menu : list MenuItem.t) (items : list OrderItemRequest.t) :
  (forall item, In item items ->
     find (fun r => MenuItem.id r =? OrderItemRequest.menuItemId item) menu = None) ->
  resolved menu items = [].
Proof.
  induction items as [|i rest IH]; intros H; simpl; [reflexivity|].
  rewrite (H i (or_introl eq_refl)). apply IH. intros item Hin. apply H. right. exact Hin.
Qed.

(** C9. On an existing table, with the sequence of order ids ahead of the ids
    in use, a request whose items are none, or all name menu items that do not
    exist, is answered 201: one pending order of total 0.00 is added, no order
    item is created, the table is set to occupied, and [order_created] is
    broadcast once, carrying the order with an empty list of items. *)
Theorem createOrder_without_items (d : Db) (tableId : Z)
  (items : list OrderItemRequest.t) :
  table_exists d tableId = true ->
  order_ids_fresh d ->
  (forall item, In item items ->
     find (fun r => MenuItem.id r =? OrderItemRequest.menuItemId item) (menuItems d)
     = None) ->
  let order := Order.mk (nextOrderId d) tableId "pending" 0 in
  let result := serve (createOrder tableId items) d in
  let d' := db (snd result) in
  let completeOrder :=
    Some (OrderWithItems.mk order []
            (find (fun r => Table.id r =? tableId) (tables d'))) in
  fst result = Response.mk 201 (JOrder completeOrder)
  /\ trace (snd result) = [Broadcast (order_created completeOrder)]
  /\ orders d' = orders d ++ [order]
  /\ Js.toFixed2_cents (Order.total order) = "0.00"
  /\ orderItems d' = orderItems d
  /\ tables d' = update_where Table.id (Table.set_status "occupied") tableId (tables d).
Proof.
  intros Htable Hfresh Hnone order result d' completeOrder.
  pose proof (createOrder_run tableId items d Htable) as Hrun. cbv zeta in Hrun.
  pose proof (with_new_order_rows tableId items d Hfresh) as Hrows. cbv zeta in Hrows.
  rewrite (resolved_nothing _ _ Hnone) in Hrows. cbn [itemRows snapshotTotal fold_left] in Hrows.
  fold order in Hrows. rewrite app_nil_r in Hrows.
  destruct Hrows as (Ho & Hi & Ht & Hlookup).
  unfold completeOrder, d', result. rewrite Hrun. cbn [fst snd db trace].
  rewrite Hlookup. repeat split; assumption.
Qed.

Lemma createOrder_without_items_witness :
  fst (serve (createOrder 1 [OrderItemRequest.mk 7 3 None]) db0)
  = Response.mk 201
      (JOrder (Some (OrderWithItems.mk (Order.mk 1 1 "pending" 0) []
                       (Some (Table.mk 1 1 4 "occupied")))))
  /\ orderItems (after (createOrder 1 []) db0) = [].
Proof.
  assert (Hfresh : order_ids_fresh db0) by (split; intros ? []).
  split.
  - pose proof (createOrder_without_items db0 1 [OrderItemRequest.mk 7 3 None]
                  eq_refl Hfresh) as H.
    cbv zeta in H. apply H.
    intros item [<-|[]]. reflexivity.
  - pose proof (createOrder_without_items db0 1 [] eq_refl Hfresh) as H.
    cbv zeta in H. apply H. intros item [].
Defined.

(** ** Broadcasts of each operation *)

Lemma createOrder_sent (d : Db) (tableId : Z) (items : list OrderItemRequest.t) :
  let h := createOrder tableId items in
  if succeeded (fst (serve h d)) then exists o, sent h d = [order_created o]
  else sent h d = [].
Proof.
  intros h. unfold h, sent.
  destruct (table_exists d tableId) eqn:Htable.
  - pose proof (createOrder_run tableId items d Htable) as Hrun. cbv zeta in Hrun.
    rewrite Hrun. cbn. eexists. reflexivity.
  - rewrite (createOrder_no_table tableId items d Htable). reflexivity.
Qed.

Lemma confirmOrder_sent (d : Db) (id : Z) :
  let h := confirmOrder id in
  if succeeded (fst (serve h d)) then exists o, sent h d = [order_confirmed o]
  else sent h d = [].
Proof.
  intros h. unfold h, sent, confirmOrder, Storage.updateOrderStatus,
    Storage.getOrderById. run.
  destruct (find (fun r => Order.id r =? id)
              (update_where Order.id (Order.set_status "confirmed") id (orders d)))
    as [o|]; cbn.
  - eexists. reflexivity.
  - reflexivity.
Qed.

Lemma recordPayment_sent (d : Db) (data : PaymentRequest.t) :
  let h := recordPayment data in
  if succeeded (fst (serve h d)) then
    exists p, sent h d = [payment_processed p (PaymentRequest.orderId data)
                            (PaymentRequest.tableId data)
                            (PaymentRequest.isSplitBill data)]
  else sent h d = [].
Proof.
  intros h. unfold h, sent, recordPayment, insertPaymentSchema_parse,
    Storage.createPayment, Storage.updateOrderStatus, Storage.updateTableStatus.
  destruct (Js.includes paymentMethodEnum (PaymentRequest.method data)); run;
    [|reflexivity].
  destruct (order_exists d (PaymentRequest.orderId data)); cbn; [|reflexivity].
  destruct (table_exists d (PaymentRequest.tableId data)); cbn; [|reflexivity].
  destruct (order_has_payment d (PaymentRequest.orderId data)); cbn; [reflexivity|].
  destruct (PaymentRequest.isSplitBill data); run; eexists; reflexivity.
Qed.

Lemma cancelOrderItem_sent (d : Db) (orderId itemId : Z) :
  let h := cancelOrderItem orderId itemId in
  if succeeded (fst (serve h d)) then
    match Storage.lookupOrder (with_item_status itemId "cancelled" d) orderId with
    | Some _ => exists o, sent h d = [order_item_cancelled o]
    | None => sent h d = []
    end
  else sent h d = [].
Proof.
  intros h. unfold h, sent.
  destruct (find (fun r => OrderItem.id r =? itemId) (orderItems d)) as [item|] eqn:Hfind.
  - destruct (Js.includes ["queued"; "pending"] (OrderItem.status item)) eqn:Hguard.
    + rewrite (cancelOrderItem_run d orderId itemId item Hfind Hguard). cbn.
      destruct (Storage.lookupOrder (with_item_status itemId "cancelled" d) orderId);
        cbn; [eexists|]; reflexivity.
    + rewrite (cancelOrderItem_refused d orderId itemId item Hfind Hguard). reflexivity.
  - unfold cancelOrderItem, Storage.getOrderItemById. run. rewrite Hfind. reflexivity.
Qed.

(** The messages of a status update: the update itself, then [order_ready]
    when the new status is ready and every item of the order of the URL is
    ready, delivered or cancelled. *)
Lemma updateOrderItemStatus_sent (d : Db) (orderId itemId : Z) (status : string) :
  let h := updateOrderItemStatus orderId itemId status in
  if succeeded (fst (serve h d)) then
    exists item,
      let order := Storage.lookupOrder (with_item_status itemId status d) orderId in
      sent h d
      = order_item_status_updated item order
        :: match order with
           | Some o =>
               if (status =? "ready")%string
                  && forallb isReadyOrDone (OrderWithItems.orderItems o)
               then [order_ready o] else []
           | None => []
           end
  else sent h d = [].
Proof.
  intros h. unfold h, sent, updateOrderItemStatus, Storage.updateOrderItemStatus,
    Storage.getOrderById.
  unfold serve, try_catch, bind, statement, query, broadcast, ret. cbn [db trace].
  destruct (Js.includes orderItemStatusEnum status); cbn [negb]; [|reflexivity].
  destruct (find (fun r => OrderItem.id r =? itemId)
              (update_where OrderItem.id (OrderItem.set_status status) itemId
                 (orderItems d))) as [item|]; [|reflexivity].
  cbn [db trace app]. fold (with_item_status itemId status d).
  destruct (Storage.lookupOrder (with_item_status itemId status d) orderId) as [o|].
  - destruct (status =? "ready")%string; cbn [andb].
    + destruct (forallb isReadyOrDone (OrderWithItems.orderItems o));
        cbn; eexists; reflexivity.
    + cbn. eexists. reflexivity.
  - cbn. eexists. reflexivity.
Qed.

Lemma createSplitBill_sent (commits : bool) (d : Db) (orderId tableId : Z)
  (method : string) (shares : list ShareRequest.t) :
  sent (createSplitBill commits orderId tableId method shares) d = [].
Proof.
  unfold sent. destruct shares as [|s rest]; [reflexivity|].
  rewrite createSplitBill_run by discriminate.
  destruct (createSplitBill_tx_cases orderId tableId method (s :: rest)
              (mkWorld d [TxBegin]))
    as [(message & w' & Hrun & Htrace) | (order & _ & _ & _ & _ & _ & _ & _ & Hrun)].
  - rewrite Hrun. cbn [snd trace]. rewrite Htrace. reflexivity.
  - cbv zeta in Hrun. rewrite Hrun. destruct commits; reflexivity.
Qed.

Lemma markShareAsPaid_tx_no_payment (shareId : Z) (share : BillShare.t) (w : World) :
  find (fun r => BillShare.id r =? shareId) (billShares (db w)) = Some share ->
  BillShare.paymentId share = 0 ->
  markShareAsPaid_tx shareId w
  = (Throw "Share not found", mkWorld (with_share_paid shareId (db w)) (trace w)).
Proof.
  intros Hfind Hpid.
  unfold markShareAsPaid_tx, Sql.update_billShares_paid. run.
  rewrite (filter_update_where_key BillShare.id (BillShare.set_paid true) shareId
             (billShares (db w)) (fun r => eq_refl)).
  rewrite filter_head_find in Hfind.
  destruct (filter (fun r => BillShare.id r =? shareId) (billShares (db w)))
    as [|s rest]; [discriminate|].
  cbn in Hfind. injection Hfind as ->. cbn. rewrite Hpid. reflexivity.
Qed.

(** With an accepted commit: [split_bill_completed] is sent once when the
    handler succeeds and every other share of the payment was paid; nothing is
    sent when it succeeds with an unpaid sibling, or when it fails. *)
Lemma markShareAsPaid_sent (d : Db) (shareId : Z) :
  let h := markShareAsPaid true shareId in
  if succeeded (fst (serve h d)) then
    exists share,
      find (fun r => BillShare.id r =? shareId) (billShares d) = Some share
      /\ if forallb BillShare.paid (siblings d (BillShare.paymentId share) shareId)
         then exists payment,
                find (fun r => Payment.id r =? BillShare.paymentId share) (payments d)
                = Some payment
                /\ sent h d = [split_bill_completed (BillShare.paymentId share)
                                 (Payment.orderId payment) (Payment.tableId payment)]
         else sent h d = []
  else sent h d = [].
Proof.
  intros h. unfold h, sent. rewrite markShareAsPaid_run.
  destruct (find (fun r => BillShare.id r =? shareId) (billShares d)) as [share|] eqn:Hfind.
  2:{ rewrite (markShareAsPaid_tx_missing shareId (mkWorld d [TxBegin]) Hfind).
      reflexivity. }
  destruct (Z.eq_dec (BillShare.paymentId share) 0) as [Hpid|Hpid].
  { rewrite (markShareAsPaid_tx_no_payment shareId share (mkWorld d [TxBegin]) Hfind Hpid).
    reflexivity. }
  rewrite (markShareAsPaid_tx_run shareId share (mkWorld d [TxBegin]) Hfind Hpid).
  cbn [db trace].
  destruct (forallb BillShare.paid (siblings d (BillShare.paymentId share) shareId))
    eqn:Hsib.
  2:{ cbn. exists share. rewrite Hsib. split; reflexivity. }
  destruct (find (fun r => Payment.id r =? BillShare.paymentId share) (payments d))
    as [payment|] eqn:Hpay; [|reflexivity].
  destruct (negb (Js.truthy_int (Payment.orderId payment))
            || negb (Js.truthy_int (Payment.tableId payment))); [reflexivity|].
  cbn. exists share. rewrite Hsib. split; [reflexivity|].
  exists payment. split; [first [exact Hpay | reflexivity] | reflexivity].
Qed.



(** ** The derived total *)

(** A status update never writes a total. *)
Lemma updateOrderItemStatus_keeps_orders (d : Db) (orderId itemId : Z) (status : string) :
  orders (after (updateOrderItemStatus orderId itemId status) d) = orders d.
Proof.
  unfold after, updateOrderItemStatus, Storage.updateOrderItemStatus,
    Storage.getOrderById.
  unfold serve, try_catch, bind, statement, query, broadcast, ret. cbn [db trace].
  destruct (Js.includes orderItemStatusEnum status); cbn [negb]; [|reflexivity].
  destruct (find (fun r => OrderItem.id r =? itemId)
              (update_where OrderItem.id (OrderItem.set_status status) itemId
                 (orderItems d))) as [item|]; [|reflexivity].
  cbn [db trace app].
  destruct (Storage.lookupOrder _ orderId) as [o|]; [|reflexivity].
  destruct (status =? "ready")%string; [|reflexivity].
  destruct (forallb isReadyOrDone (OrderWithItems.orderItems o)); reflexivity.
Qed.

(** X24. An accepted cancellation stores, for the order of the URL, the
    derived total of its items as they are after the cancellation, whatever
    the stored total was before. *)
Lemma cancelOrderItem_recomputes (d : Db) (orderId itemId : Z) (item : OrderItem.t)
  (o : Order.t) :
  find (fun r => OrderItem.id r =? itemId) (orderItems d) = Some item ->
  Js.includes ["queued"; "pending"] (OrderItem.status item) = true ->
  find (fun r => Order.id r =? orderId) (orders d) = Some o ->
  let d' := after (cancelOrderItem orderId itemId) d in
  find (fun r => Order.id r =? orderId) (orders d')
  = Some (Order.set_total
            (derivedTotal
               (filter (fun i => OrderItem.orderId i =? orderId) (orderItems d')))
            o).
Proof.
  intros Hitem Hguard Horder d'. unfold d', after.
  rewrite (cancelOrderItem_run d orderId itemId item Hitem Hguard). cbv zeta.
  assert (Hid : Order.id o = orderId).
  { apply find_some in Horder. apply Z.eqb_eq. exact (proj2 Horder). }
  assert (Hlookup : Storage.lookupOrder (with_item_status itemId "cancelled" d) orderId
                    = Some (Storage.hydrate (with_item_status itemId "cancelled" d) o)).
  { unfold Storage.lookupOrder. cbn [orders with_item_status set_orderItems].
    rewrite Horder. reflexivity. }
  rewrite Hlookup.
  cbn [snd db Storage.hydrate OrderWithItems.order OrderWithItems.orderItems].
  rewrite Hid.
  cbn [orders orderItems with_order_total set_orders with_item_status set_orderItems].
  rewrite (find_update_where Order.id (Order.set_total _) (fun r => eq_refl)), Horder.
  cbn [option_map]. rewrite activeTotal_derived. reflexivity.
Qed.

(** C1. On the example order (two queued items, total 25.00) the stored total
    is the derived total.  A status update that sets the second item to
    cancelled is answered 200, leaves the stored total at 25.00 while the
    derived total of the order is 20.00; the cancel handler, on the same item,
    stores 20.00. *)
Theorem status_update_to_cancelled_keeps_total :
  totals_consistent db1 = true
  /\ Response.status (fst (serve (updateOrderItemStatus 1 2 "cancelled") db1)) = 200
  /\ orders (after (updateOrderItemStatus 1 2 "cancelled") db1)
     = [Order.mk 1 1 "pending" 2500]
  /\ derivedTotal (orderItems (after (updateOrderItemStatus 1 2 "cancelled") db1)) = 2000
  /\ totals_consistent (after (updateOrderItemStatus 1 2 "cancelled") db1) = false
  /\ orders (after (cancelOrderItem 1 2) db1) = [Order.mk 1 1 "pending" 2000]
  /\ totals_consistent (after (cancelOrderItem 1 2) db1) = true.
Proof. repeat split; vm_compute; reflexivity. Qed.

(** ** Missing entities *)

Lemma markShareAsPaid_missing (commits : bool) (d : Db) (shareId : Z) :
  find (fun r => BillShare.id r =? shareId) (billShares d) = None ->
  serve (markShareAsPaid commits shareId) d
  = (Response.error 500 "Share not found", mkWorld d [TxBegin; TxRollback]).
Proof.
  intros Hfind. rewrite markShareAsPaid_run.
  rewrite (markShareAsPaid_tx_missing shareId (mkWorld d [TxBegin]) Hfind).
  reflexivity.
Qed.

Lemma createSplitBill_missing_order (commits : bool) (d : Db) (orderId tableId : Z)
  (method : string) (shares : list ShareRequest.t) :
  shares <> [] ->
  find (fun r => Order.id r =? orderId) (orders d) = None ->
  serve (createSplitBill commits orderId tableId method shares) d
  = (Response.error 400 "Order not found", mkWorld d [TxBegin; TxRollback]).
Proof.
  intros Hne Hfind. rewrite createSplitBill_run by exact Hne.
  unfold createSplitBill_tx, Sql.select_order, query, bind. cbn [db].
  rewrite Hfind. reflexivity.
Qed.

(** C8. A share that does not exist is answered 500 and an order that does not
    exist is answered 400 by the two bill-share handlers, both with the
    message of the exception; the handlers of the order lifecycle answer 404
    for an order or an item that does not exist. *)
Theorem missing_entities_not_answered_404 :
  serve (markShareAsPaid true 7) db2
  = (Response.error 500 "Share not found", mkWorld db2 [TxBegin; TxRollback])
  /\ serve (createSplitBill true 9 1 "cash" [alice; bob]) db2
     = (Response.error 400 "Order not found", mkWorld db2 [TxBegin; TxRollback])
  /\ serve (confirmOrder 9) db2 = (Response.error 404 "Order not found", mkWorld db2 [])
  /\ serve (cancelOrderItem 1 9) db2
     = (Response.error 404 "Order item not found", mkWorld db2 []).
Proof.
  split; [|split; [|split]].
  - apply markShareAsPaid_missing. reflexivity.
  - apply createSplitBill_missing_order; [discriminate | reflexivity].
  - vm_compute. reflexivity.
  - vm_compute. reflexivity.
Qed.

(** ** What the handlers leave untouched *)

Lemma map_update_where {A B : Type} (key : A -> Z) (f : A -> A) (g : A -> B) (k : Z)
  (l : list A) :
  (forall r, g (f r) = g r) -> map g (update_where key f k l) = map g l.
Proof.
  intros Hg. unfold update_where. rewrite map_map. apply map_ext.
  intros r. destruct (key r =? k); [apply Hg | reflexivity].
Qed.

Lemma orders_after_confirmOrder (d : Db) (id : Z) :
  orders (after (confirmOrder id) d)
  = update_where Order.id (Order.set_status "confirmed") id (orders d)
  /\ orderItems (after (confirmOrder id) d) = orderItems d
  /\ nextOrderId (after (confirmOrder id) d) = nextOrderId d.
Proof.
  unfold confirmOrder, Storage.updateOrderStatus, Storage.getOrderById. run.
  destruct (find (fun r => Order.id r =? id)
              (update_where Order.id (Order.set_status "confirmed") id (orders d)))
    eqn:E; cbn; rewrite ?E; cbn; repeat split; reflexivity.
Qed.

Lemma orders_after_recordPayment (d : Db) (data : PaymentRequest.t) :
  (orders (after (recordPayment data) d) = orders d
   \/ orders (after (recordPayment data) d)
      = update_where Order.id (Order.set_status "completed")
          (PaymentRequest.orderId data) (orders d))
  /\ orderItems (after (recordPayment data) d) = orderItems d
  /\ nextOrderId (after (recordPayment data) d) = nextOrderId d.
Proof.
  unfold recordPayment, insertPaymentSchema_parse, Storage.createPayment,
    Storage.updateOrderStatus, Storage.updateTableStatus.
  destruct (Js.includes paymentMethodEnum (PaymentRequest.method data)); run;
    [|repeat split; left; reflexivity].
  destruct (order_exists d (PaymentRequest.orderId data)); cbn;
    [|repeat split; left; reflexivity].
  destruct (table_exists d (PaymentRequest.tableId data)); cbn;
    [|repeat split; left; reflexivity].
  destruct (order_has_payment d (PaymentRequest.orderId data)); cbn;
    [repeat split; left; reflexivity|].
  destruct (PaymentRequest.isSplitBill data); run; repeat split;
    [left | right]; reflexivity.
Qed.

Lemma orders_after_createSplitBill (commits : bool) (d : Db) (orderId tableId : Z)
  (method : string) (shares : list ShareRequest.t) :
  let d' := after (createSplitBill commits orderId tableId method shares) d in
  orders d' = orders d /\ orderItems d' = orderItems d /\ nextOrderId d' = nextOrderId d.
Proof.
  intros d'. unfold d', after. destruct shares as [|s rest]; [repeat split|].
  rewrite createSplitBill_run by discriminate.
  destruct (createSplitBill_tx_cases orderId tableId method (s :: rest)
              (mkWorld d [TxBegin]))
    as [(message & w' & Hrun & Htrace) | (order & _ & _ & _ & _ & _ & _ & _ & Hrun)].
  - rewrite Hrun. repeat split.
  - cbv zeta in Hrun. rewrite Hrun. destruct commits; repeat split.
Qed.

Lemma orders_after_markShareAsPaid (commits : bool) (d : Db) (shareId : Z) :
  let d' := after (markShareAsPaid commits shareId) d in
  (orders d' = orders d
   \/ exists orderId,
        orders d' = update_where Order.id (Order.set_status "completed") orderId (orders d))
  /\ orderItems d' = orderItems d
  /\ nextOrderId d' = nextOrderId d.
Proof.
  intros d'. unfold d', after. rewrite markShareAsPaid_run.
  destruct (find (fun r => BillShare.id r =? shareId) (billShares d)) as [share|] eqn:Hfind.
  2:{ rewrite (markShareAsPaid_tx_missing shareId (mkWorld d [TxBegin]) Hfind).
      repeat split. left. reflexivity. }
  destruct (Z.eq_dec (BillShare.paymentId share) 0) as [Hpid|Hpid].
  { rewrite (markShareAsPaid_tx_no_payment shareId share (mkWorld d [TxBegin]) Hfind Hpid).
    repeat split. left. reflexivity. }
  rewrite (markShareAsPaid_tx_run shareId share (mkWorld d [TxBegin]) Hfind Hpid).
  cbn [db trace].
  destruct (forallb BillShare.paid (siblings d (BillShare.paymentId share) shareId)).
  2:{ destruct commits; repeat split; left; reflexivity. }
  destruct (find (fun r => Payment.id r =? BillShare.paymentId share) (payments d))
    as [payment|]; [|repeat split; left; reflexivity].
  destruct (negb (Js.truthy_int (Payment.orderId payment))
            || negb (Js.truthy_int (Payment.tableId payment)));
    [repeat split; left; reflexivity|].
  destruct commits; repeat split; [right; eexists | left]; reflexivity.
Qed.

(** X25. After creation, a stored total is written by the cancel handler only:
    confirmation, status update, payment, split-bill creation and share
    settlement leave every stored total as it was. *)
Lemma totals_untouched (d : Db) :
  (forall id, same_totals d (after (confirmOrder id) d))
  /\ (forall orderId itemId status,
        same_totals d (after (updateOrderItemStatus orderId itemId status) d))
  /\ (forall data, same_totals d (after (recordPayment data) d))
  /\ (forall commits orderId tableId method shares,
        same_totals d (after (createSplitBill commits orderId tableId method shares) d))
  /\ (forall commits shareId, same_totals d (after (markShareAsPaid commits shareId) d)).
Proof.
  unfold same_totals. repeat split.
  - intros id. rewrite (proj1 (orders_after_confirmOrder d id)).
    apply map_update_where. reflexivity.
  - intros orderId itemId status. rewrite updateOrderItemStatus_keeps_orders. reflexivity.
  - intros data. destruct (proj1 (orders_after_recordPayment d data)) as [-> | ->];
      [reflexivity | apply map_update_where; reflexivity].
  - intros commits orderId tableId method shares.
    rewrite (proj1 (orders_after_createSplitBill commits d orderId tableId method shares)).
    reflexivity.
  - intros commits shareId.
    destruct (proj1 (orders_after_markShareAsPaid commits d shareId)) as [-> | [o ->]];
      [reflexivity | apply map_update_where; reflexivity].
Qed.

(** ** The sequence of order ids stays ahead *)

Lemma same_order_ids_fresh (d d' : Db) :
  same_order_ids d d' -> order_ids_fresh d -> order_ids_fresh d'.
Proof.
  intros (Ho & Hi & Hn) [Horders Hitems]. split.
  - intros o Hin. rewrite Hn.
    apply (in_map Order.id) in Hin. rewrite Ho in Hin.
    apply in_map_iff in Hin. destruct Hin as (o0 & <- & Hin0). exact (Horders o0 Hin0).
  - intros i Hin. rewrite Hn.
    apply (in_map OrderItem.orderId) in Hin. rewrite Hi in Hin.
    apply in_map_iff in Hin. destruct Hin as (i0 & <- & Hin0). exact (Hitems i0 Hin0).
Qed.

Lemma same_order_ids_cancelOrderItem (d : Db) (orderId itemId : Z) :
  same_order_ids d (after (cancelOrderItem orderId itemId) d).
Proof.
  unfold same_order_ids.
  destruct (find (fun r => OrderItem.id r =? itemId) (orderItems d)) as [item|] eqn:Hfind.
  - destruct (Js.includes ["queued"; "pending"] (OrderItem.status item)) eqn:Hguard.
    + unfold after. rewrite (cancelOrderItem_run d orderId itemId item Hfind Hguard).
      cbv zeta. cbn [snd].
      destruct (Storage.lookupOrder (with_item_status itemId "cancelled" d) orderId);
        cbn; repeat split;
        try (apply map_update_where; reflexivity).
    + unfold after. rewrite (cancelOrderItem_refused d orderId itemId item Hfind Hguard).
      repeat split.
  - unfold cancelOrderItem, Storage.getOrderItemById. run. rewrite Hfind.
    repeat split.
Qed.

Lemma same_order_ids_updateOrderItemStatus (d : Db) (orderId itemId : Z)
  (status : string) :
  same_order_ids d (after (updateOrderItemStatus orderId itemId status) d).
Proof.
  unfold same_order_ids. rewrite updateOrderItemStatus_keeps_orders.
  split; [reflexivity|].
  unfold after, updateOrderItemStatus, Storage.updateOrderItemStatus,
    Storage.getOrderById.
  unfold serve, try_catch, bind, statement, query, broadcast, ret. cbn [db trace].
  destruct (Js.includes orderItemStatusEnum status); cbn [negb]; [|split; reflexivity].
  assert (Hmap : map OrderItem.orderId
                   (update_where OrderItem.id (OrderItem.set_status status) itemId
                      (orderItems d))
                 = map OrderItem.orderId (orderItems d))
    by (apply map_update_where; reflexivity).
  destruct (find (fun r => OrderItem.id r =? itemId)
              (update_where OrderItem.id (OrderItem.set_status status) itemId
                 (orderItems d))) as [item|]; [|split; [exact Hmap | reflexivity]].
  cbn [db trace app].
  destruct (Storage.lookupOrder _ orderId) as [o|]; [|split; [exact Hmap | reflexivity]].
  destruct (status =? "ready")%string; [|split; [exact Hmap | reflexivity]].
  destruct (forallb isReadyOrDone (OrderWithItems.orderItems o));
    split; first [exact Hmap | reflexivity].
Qed.

(** X26. Every handler keeps the sequence of order ids ahead of the ids in
    use. *)
Lemma order_ids_fresh_invariant (d : Db) :
  order_ids_fresh d ->
  (forall tableId items, order_ids_fresh (after (createOrder tableId items) d))
  /\ (forall id, order_ids_fresh (after (confirmOrder id) d))
  /\ (forall orderId itemId status,
        order_ids_fresh (after (updateOrderItemStatus orderId itemId status) d))
  /\ (forall orderId itemId, order_ids_fresh (after (cancelOrderItem orderId itemId) d))
  /\ (forall data, order_ids_fresh (after (recordPayment data) d))
  /\ (forall commits orderId tableId method shares,
        order_ids_fresh
          (after (createSplitBill commits orderId tableId method shares) d))
  /\ (forall commits shareId, order_ids_fresh (after (markShareAsPaid commits shareId) d)).
Proof.
  intros Hfresh. repeat split.
  - destruct (table_exists d tableId) eqn:Htable.
    + pose proof (createOrder_run tableId items d Htable) as Hrun. cbv zeta in Hrun.
      unfold after. rewrite Hrun. cbn [snd db].
      pose proof (with_new_order_rows tableId items d Hfresh) as Hrows.
      cbv zeta in Hrows. destruct Hrows as (Ho & _). rewrite Ho.
      intros o Hin. change (nextOrderId (with_new_order tableId items d))
        with (nextOrderId d + 1).
      apply in_app_or in Hin. destruct Hin as [Hin|[<-|[]]].
      * pose proof (proj1 Hfresh o Hin). lia.
      * cbn. lia.
    + unfold after. rewrite (createOrder_no_table tableId items d Htable).
      exact (proj1 Hfresh).
  - destruct (table_exists d tableId) eqn:Htable.
    + pose proof (createOrder_run tableId items d Htable) as Hrun. cbv zeta in Hrun.
      unfold after. rewrite Hrun. cbn [snd db].
      pose proof (with_new_order_rows tableId items d Hfresh) as Hrows.
      cbv zeta in Hrows. destruct Hrows as (_ & Hi & _). rewrite Hi.
      intros i Hin. change (nextOrderId (with_new_order tableId items d))
        with (nextOrderId d + 1).
      apply in_app_or in Hin. destruct Hin as [Hin|Hin].
      * pose proof (proj2 Hfresh i Hin). lia.
      * rewrite (itemRows_orderId _ _ _ i Hin). lia.
    + unfold after. rewrite (createOrder_no_table tableId items d Htable).
      exact (proj2 Hfresh).
  - apply (same_order_ids_fresh d); [|exact Hfresh].
    destruct (orders_after_confirmOrder d id) as (Ho & Hi & Hn).
    unfold same_order_ids. rewrite Ho, Hi, Hn.
    repeat split. apply map_update_where. reflexivity.
  - apply (same_order_ids_fresh d); [|exact Hfresh].
    destruct (orders_after_confirmOrder d id) as (Ho & Hi & Hn).
    unfold same_order_ids. rewrite Ho, Hi, Hn.
    repeat split. apply map_update_where. reflexivity.
  - apply (same_order_ids_fresh d); [|exact Hfresh].
    apply same_order_ids_updateOrderItemStatus.
  - apply (same_order_ids_fresh d); [|exact Hfresh].
    apply same_order_ids_updateOrderItemStatus.
  - apply (same_order_ids_fresh d); [|exact Hfresh].
    apply same_order_ids_cancelOrderItem.
  - apply (same_order_ids_fresh d); [|exact Hfresh].
    apply same_order_ids_cancelOrderItem.
  - apply (same_order_ids_fresh d); [|exact Hfresh].
    destruct (orders_after_recordPayment d data) as (Ho & Hi & Hn).
    unfold same_order_ids. rewrite Hi, Hn.
    destruct Ho as [-> | ->]; repeat split. apply map_update_where. reflexivity.
  - apply (same_order_ids_fresh d); [|exact Hfresh].
    destruct (orders_after_recordPayment d data) as (Ho & Hi & Hn).
    unfold same_order_ids. rewrite Hi, Hn.
    destruct Ho as [-> | ->]; repeat split. apply map_update_where. reflexivity.
  - apply (same_order_ids_fresh d); [|exact Hfresh].
    destruct (orders_after_createSplitBill commits d orderId tableId method shares)
      as (Ho & Hi & Hn).
    unfold same_order_ids. rewrite Ho, Hi, Hn. repeat split.
  - apply (same_order_ids_fresh d); [|exact Hfresh].
    destruct (orders_after_createSplitBill commits d orderId tableId method shares)
      as (Ho & Hi & Hn).
    unfold same_order_ids. rewrite Ho, Hi, Hn. repeat split.
  - apply (same_order_ids_fresh d); [|exact Hfresh].
    destruct (orders_after_markShareAsPaid commits d shareId) as (Ho & Hi & Hn).
    unfold same_order_ids. rewrite Hi, Hn.
    destruct Ho as [-> | [o ->]]; repeat split. apply map_update_where. reflexivity.
  - apply (same_order_ids_fresh d); [|exact Hfresh].
    destruct (orders_after_markShareAsPaid commits d shareId) as (Ho & Hi & Hn).
    unfold same_order_ids. rewrite Hi, Hn.
    destruct Ho as [-> | [o ->]]; repeat split. apply map_update_where. reflexivity.
Qed.

(** * Further properties of the handlers *)

Lemma update_where_absent {A : Type} (key : A -> Z) (f : A -> A) (k : Z) (l : list A) :
  find (fun r => key r =? k) l = None -> update_where key f k l = l.
Proof.
  intros Hnone. apply update_where_fixed. intros r Hin Hk.
  pose proof (find_none _ _ Hnone r Hin) as Hr. cbv beta in Hr.
  apply Z.eqb_neq in Hr. contradiction.
Qed.

Lemma update_where_idempotent {A : Type} (key : A -> Z) (f : A -> A) (k : Z)
  (l : list A) :
  (forall r, key (f r) = key r) -> (forall r, f (f r) = f r) ->
  update_where key f k (update_where key f k l) = update_where key f k l.
Proof.
  intros Hkey Hf. unfold update_where. rewrite map_map. apply map_ext.
  intros r. destruct (key r =? k) eqn:E.
  - rewrite Hkey, E. apply Hf.
  - rewrite E. reflexivity.
Qed.

Lemma set_orders_same (d : Db) : set_orders (orders d) d = d.
Proof. destruct d; reflexivity. Qed.

Lemma set_orderItems_same (d : Db) : set_orderItems (orderItems d) d = d.
Proof. destruct d; reflexivity. Qed.

Lemma set_tables_same (d : Db) : set_tables (tables d) d = d.
Proof. destruct d; reflexivity. Qed.

Lemma set_billShares_same (d : Db) : set_billShares (billShares d) d = d.
Proof. destruct d; reflexivity. Qed.

(** ** Confirmation *)

(** X1. [confirmOrder] on an id that names no order answers 404, writes
    nothing and broadcasts nothing.  On an order that exists it answers 200
    with the hydrated order, broadcasts it once as [order_confirmed], and
    stores the status confirmed whatever the status was before: there is no
    guard, so a completed or cancelled order is set back to confirmed. *)
Theorem confirmOrder_outcome (d : Db) (id : Z) :
  match find (fun r => Order.id r =? id) (orders d) with
  | None =>
      serve (confirmOrder id) d = (Response.error 404 "Order not found", mkWorld d [])
  | Some o =>
      let d' := with_order_status id "confirmed" d in
      let completeOrder := Storage.lookupOrder d' id in
      serve (confirmOrder id) d
      = (Response.mk 200 (JOrder completeOrder),
         mkWorld d' [Broadcast (order_confirmed completeOrder)])
      /\ find (fun r => Order.id r =? id) (orders d')
         = Some (Order.set_status "confirmed" o)
      /\ orderItems d' = orderItems d
      /\ tables d' = tables d
  end.
Proof.
  unfold confirmOrder, Storage.updateOrderStatus, Storage.getOrderById. run.
  rewrite (find_update_where Order.id (Order.set_status "confirmed") (fun r => eq_refl)).
  destruct (find (fun r => Order.id r =? id) (orders d)) as [o|] eqn:Hfind; cbn.
  - assert (Hid : Order.id o = id).
    { apply find_some in Hfind. apply Z.eqb_eq. exact (proj2 Hfind). }
    rewrite Hid. fold (with_order_status id "confirmed" d).
    repeat split.
  - rewrite (update_where_absent Order.id _ id (orders d) Hfind), set_orders_same.
    reflexivity.
Qed.

Lemma after_confirmOrder (d : Db) (id : Z) :
  after (confirmOrder id) d = with_order_status id "confirmed" d.
Proof.
  unfold confirmOrder, Storage.updateOrderStatus, Storage.getOrderById. run.
  destruct (find (fun r => Order.id r =? id)
              (update_where Order.id (Order.set_status "confirmed") id (orders d)));
    reflexivity.
Qed.

(** X2. Confirming twice is confirming once: the second request leaves the
    database of the first. *)
Theorem confirmOrder_idempotent (d : Db) (id : Z) :
  after (confirmOrder id) (after (confirmOrder id) d) = after (confirmOrder id) d.
Proof.
  rewrite !after_confirmOrder. unfold with_order_status. cbn [orders set_orders].
  rewrite update_where_idempotent by reflexivity. destruct d; reflexivity.
Qed.

(** ** Plain payment *)

Lemma includes_In (l : list string) (s : string) : Js.includes l s = true <-> In s l.
Proof.
  unfold Js.includes. rewrite existsb_exists. split.
  - intros (x & Hin & Heq). apply String.eqb_eq in Heq. subst x. exact Hin.
  - intros Hin. exists s. split; [exact Hin | apply String.eqb_refl].
Qed.

Lemma recordPayment_run (d : Db) (data : PaymentRequest.t) :
  Js.includes paymentMethodEnum (PaymentRequest.method data) = true ->
  order_exists d (PaymentRequest.orderId data) = true ->
  table_exists d (PaymentRequest.tableId data) = true ->
  order_has_payment d (PaymentRequest.orderId data) = false ->
  let p := new_payment d (PaymentRequest.orderId data) (PaymentRequest.tableId data)
             (PaymentRequest.amount data) (PaymentRequest.method data) in
  serve (recordPayment data) d
  = (Response.mk 201 (JPayment p),
     mkWorld (if PaymentRequest.isSplitBill data then insert_payment p d
              else settled (PaymentRequest.orderId data) (PaymentRequest.tableId data)
                     (insert_payment p d))
       [Broadcast (payment_processed p (PaymentRequest.orderId data)
                     (PaymentRequest.tableId data) (PaymentRequest.isSplitBill data))]).
Proof.
  intros Hmethod Horder Htable Hunique p.
  unfold recordPayment, insertPaymentSchema_parse, Storage.createPayment,
    Storage.updateOrderStatus, Storage.updateTableStatus.
  rewrite Hmethod. run. rewrite Horder, Htable, Hunique. cbn.
  destruct (PaymentRequest.isSplitBill data); run; reflexivity.
Qed.



(** The four checks of a payment, in the order the handler meets them. *)
Lemma recordPayment_checks_fail (d : Db) (data : PaymentRequest.t) :
  Js.includes paymentMethodEnum (PaymentRequest.method data)
  && order_exists d (PaymentRequest.orderId data)
  && table_exists d (PaymentRequest.tableId data)
  && negb (order_has_payment d (PaymentRequest.orderId data)) = false ->
  Response.status (fst (serve (recordPayment data) d)) = 400
  /\ snd (serve (recordPayment data) d) = mkWorld d [].
Proof.
  intros Hbad.
  unfold recordPayment, insertPaymentSchema_parse, Storage.createPayment.
  destruct (Js.includes paymentMethodEnum (PaymentRequest.method data)) eqn:Hmethod;
    run; [|split; reflexivity].
  destruct (order_exists d (PaymentRequest.orderId data)) eqn:Horder; cbn;
    [|split; reflexivity].
  destruct (table_exists d (PaymentRequest.tableId data)) eqn:Htable; cbn;
    [|split; reflexivity].
  destruct (order_has_payment d (PaymentRequest.orderId data)) eqn:Hunique; cbn;
    [split; reflexivity|].
  discriminate Hbad.
Qed.



(** ** The database a request leaves *)

Lemma after_createOrder (d : Db) (tableId : Z) (items : list OrderItemRequest.t) :
  after (createOrder tableId items) d
  = if table_exists d tableId then with_new_order tableId items d else d.
Proof.
  unfold after. destruct (table_exists d tableId) eqn:Htable.
  - pose proof (createOrder_run tableId items d Htable) as Hrun. cbv zeta in Hrun.
    rewrite Hrun. reflexivity.
  - rewrite (createOrder_no_table tableId items d Htable). reflexivity.
Qed.

Lemma after_updateOrderItemStatus (d : Db) (orderId itemId : Z) (status : string) :
  after (updateOrderItemStatus orderId itemId status) d
  = if Js.includes orderItemStatusEnum status then with_item_status itemId status d
    else d.
Proof.
  unfold after, updateOrderItemStatus, Storage.updateOrderItemStatus,
    Storage.getOrderById.
  unfold serve, try_catch, bind, statement, query, broadcast, ret. cbn [db trace].
  destruct (Js.includes orderItemStatusEnum status); cbn [negb]; [|reflexivity].
  destruct (find (fun r => OrderItem.id r =? itemId)
              (update_where OrderItem.id (OrderItem.set_status status) itemId
                 (orderItems d))) as [item|]; [|reflexivity].
  cbn [db trace app].
  destruct (Storage.lookupOrder _ orderId) as [o|]; [|reflexivity].
  destruct (status =? "ready")%string; [|reflexivity].
  destruct (forallb isReadyOrDone (OrderWithItems.orderItems o)); reflexivity.
Qed.

Lemma cancelOrderItem_missing (d : Db) (orderId itemId : Z) :
  find (fun r => OrderItem.id r =? itemId) (orderItems d) = None ->
  serve (cancelOrderItem orderId itemId) d
  = (Response.error 404 "Order item not found", mkWorld d []).
Proof.
  intros Hfind. unfold cancelOrderItem, Storage.getOrderItemById. run.
  rewrite Hfind. reflexivity.
Qed.

Lemma after_cancelOrderItem (d : Db) (orderId itemId : Z) :
  after (cancelOrderItem orderId itemId) d
  = match find (fun r => OrderItem.id r =? itemId) (orderItems d) with
    | None => d
    | Some item =>
        if Js.includes ["queued"; "pending"] (OrderItem.status item) then
          let d1 := with_item_status itemId "cancelled" d in
          match Storage.lookupOrder d1 orderId with
          | Some o =>
              with_order_total (Order.id (OrderWithItems.order o))
                (activeTotal (OrderWithItems.orderItems o)) d1
          | None => d1
          end
        else d
    end.
Proof.
  unfold after.
  destruct (find (fun r => OrderItem.id r =? itemId) (orderItems d)) as [item|] eqn:Hfind.
  - destruct (Js.includes ["queued"; "pending"] (OrderItem.status item)) eqn:Hguard.
    + rewrite (cancelOrderItem_run d orderId itemId item Hfind Hguard). cbv zeta.
      cbn [snd]. destruct (Storage.lookupOrder _ orderId); reflexivity.
    + rewrite (cancelOrderItem_refused d orderId itemId item Hfind Hguard). reflexivity.
  - rewrite (cancelOrderItem_missing d orderId itemId Hfind). reflexivity.
Qed.

Lemma after_recordPayment (d : Db) (data : PaymentRequest.t) :
  after (recordPayment data) d = d
  \/ (order_has_payment d (PaymentRequest.orderId data) = false
      /\ let p := new_payment d (PaymentRequest.orderId data)
                    (PaymentRequest.tableId data) (PaymentRequest.amount data)
                    (PaymentRequest.method data) in
         after (recordPayment data) d
         = if PaymentRequest.isSplitBill data then insert_payment p d
           else settled (PaymentRequest.orderId data) (PaymentRequest.tableId data)
                  (insert_payment p d)).
Proof.
  destruct (Js.includes paymentMethodEnum (PaymentRequest.method data)
            && order_exists d (PaymentRequest.orderId data)
            && table_exists d (PaymentRequest.tableId data)
            && negb (order_has_payment d (PaymentRequest.orderId data))) eqn:Hchecks.
  - apply andb_true_iff in Hchecks. destruct Hchecks as [Hchecks Hunique].
    apply andb_true_iff in Hchecks. destruct Hchecks as [Hchecks Htable].
    apply andb_true_iff in Hchecks. destruct Hchecks as [Hmethod Horder].
    apply negb_true_iff in Hunique.
    right. split; [exact Hunique|]. cbv zeta. unfold after.
    pose proof (recordPayment_run d data Hmethod Horder Htable Hunique) as Hrun.
    cbv zeta in Hrun. rewrite Hrun. reflexivity.
  - left. unfold after.
    rewrite (proj2 (recordPayment_checks_fail d data Hchecks)). reflexivity.
Qed.

Lemma after_createSplitBill (commits : bool) (d : Db) (orderId tableId : Z)
  (method : string) (shares : list ShareRequest.t) :
  let result := serve (createSplitBill commits orderId tableId method shares) d in
  (Response.status (fst result) = 400 /\ db (snd result) = d)
  \/ (exists order,
        find (fun r => Order.id r =? orderId) (orders d) = Some order
        /\ order_has_payment d orderId = false
        /\ Response.status (fst result) = 201
        /\ db (snd result)
           = with_shares
               (shareRows (nextPaymentId d) (nextBillShareId d) (map validated shares))
               (insert_payment
                  (new_payment d orderId tableId (Order.total order) method) d)).
Proof.
  intros result. subst result.
  destruct shares as [|s rest]; [left; split; reflexivity|].
  rewrite createSplitBill_run by discriminate.
  destruct (createSplitBill_tx_cases orderId tableId method (s :: rest)
              (mkWorld d [TxBegin]))
    as [(message & w' & Hrun & Htrace)
       | (order & Hfind & _ & _ & _ & _ & _ & Hunique & Hrun)].
  - rewrite Hrun. left. split; reflexivity.
  - cbv zeta in Hrun. rewrite Hrun. cbn [db] in *.
    destruct commits; [|left; split; reflexivity].
    right. exists order. repeat split; assumption.
Qed.

Lemma after_markShareAsPaid (commits : bool) (d : Db) (shareId : Z) :
  let result := serve (markShareAsPaid commits shareId) d in
  (Response.status (fst result) = 500 /\ db (snd result) = d)
  \/ (Response.status (fst result) = 200
      /\ (db (snd result) = with_share_paid shareId d
          \/ exists orderId tableId,
               db (snd result) = settled orderId tableId (with_share_paid shareId d))).
Proof.
  intros result. subst result. rewrite markShareAsPaid_run.
  destruct (find (fun r => BillShare.id r =? shareId) (billShares d)) as [share|] eqn:Hfind.
  2:{ rewrite (markShareAsPaid_tx_missing shareId (mkWorld d [TxBegin]) Hfind).
      left. split; reflexivity. }
  destruct (Z.eq_dec (BillShare.paymentId share) 0) as [Hpid|Hpid].
  { rewrite (markShareAsPaid_tx_no_payment shareId share (mkWorld d [TxBegin]) Hfind Hpid).
    left. split; reflexivity. }
  rewrite (markShareAsPaid_tx_run shareId share (mkWorld d [TxBegin]) Hfind Hpid).
  cbn [db trace].
  destruct (forallb BillShare.paid (siblings d (BillShare.paymentId share) shareId)).
  2:{ destruct commits; [right | left]; repeat split. left. reflexivity. }
  destruct (find (fun r => Payment.id r =? BillShare.paymentId share) (payments d))
    as [payment|]; [|left; split; reflexivity].
  destruct (negb (Js.truthy_int (Payment.orderId payment))
            || negb (Js.truthy_int (Payment.tableId payment)));
    [left; split; reflexivity|].
  destruct commits; [right | left]; repeat split.
  right. eexists. eexists. reflexivity.
Qed.

(** ** All or nothing *)


(** X6. [markShareAsPaid] answers 200 or 500 and nothing else; whenever it
    answers 500 (share or payment missing, payment without order or table,
    commit not accepted) the database is exactly as it was: the flag of the
    share is not left set. *)
Theorem markShareAsPaid_all_or_nothing (commits : bool) (d : Db) (shareId : Z) :
  let result := serve (markShareAsPaid commits shareId) d in
  (Response.status (fst result) = 500 /\ db (snd result) = d)
  \/ (Response.status (fst result) = 200
      /\ forall s, In s (billShares (db (snd result))) ->
                   BillShare.id s = shareId -> BillShare.paid s = true).
Proof.
  intros result. subst result.
  destruct (after_markShareAsPaid commits d shareId) as [H | [Hstatus Hdb]];
    [left; exact H|].
  right. split; [exact Hstatus|].
  assert (Hshares : billShares (db (snd (serve (markShareAsPaid commits shareId) d)))
                    = update_where BillShare.id (BillShare.set_paid true) shareId
                        (billShares d)).
  { destruct Hdb as [-> | (o & t & ->)]; reflexivity. }
  rewrite Hshares. intros s Hin Hid.
  unfold update_where in Hin. apply in_map_iff in Hin.
  destruct Hin as (r & Hr & _).
  destruct (BillShare.id r =? shareId) eqn:E.
  - subst s. reflexivity.
  - subst s. apply Z.eqb_neq in E. contradiction.
Qed.

(** ** One payment per order *)

Lemma no_payment_not_in (d : Db) (orderId : Z) :
  order_has_payment d orderId = false -> ~ In orderId (map Payment.orderId (payments d)).
Proof.
  unfold order_has_payment. intros Hnone Hin.
  apply in_map_iff in Hin. destruct Hin as (p & Hp & Hin).
  assert (existsb (fun r => Payment.orderId r =? orderId) (payments d) = true).
  { apply existsb_exists. exists p. split; [exact Hin | apply Z.eqb_eq; exact Hp]. }
  congruence.
Qed.

Lemma NoDup_snoc {A : Type} (l : list A) (a : A) :
  NoDup l -> ~ In a l -> NoDup (l ++ [a]).
Proof.
  induction l as [|x l IH]; intros Hnodup Hnotin; cbn.
  - constructor; [intros [] | constructor].
  - inversion Hnodup as [|? ? Hx Hl]; subst. constructor.
    + intros Hin. apply in_app_or in Hin. destruct Hin as [Hin|[<-|[]]].
      * contradiction.
      * apply Hnotin. left. reflexivity.
    + apply IH; [exact Hl|]. intros Hin. apply Hnotin. right. exact Hin.
Qed.

Lemma one_payment_per_order_insert (d : Db) (p : Payment.t) :
  one_payment_per_order d ->
  order_has_payment d (Payment.orderId p) = false ->
  NoDup (map Payment.orderId (payments d ++ [p])).
Proof.
  intros Hnodup Hnone. rewrite map_app. cbn [map].
  apply NoDup_snoc; [exact Hnodup | exact (no_payment_not_in d _ Hnone)].
Qed.

Lemma payments_kept (d : Db) :
  (forall tableId items, payments (after (createOrder tableId items) d) = payments d)
  /\ (forall id, payments (after (confirmOrder id) d) = payments d)
  /\ (forall orderId itemId status,
        payments (after (updateOrderItemStatus orderId itemId status) d) = payments d)
  /\ (forall orderId itemId,
        payments (after (cancelOrderItem orderId itemId) d) = payments d)
  /\ (forall commits shareId,
        payments (after (markShareAsPaid commits shareId) d) = payments d).
Proof.
  repeat split.
  - intros tableId items. rewrite after_createOrder.
    destruct (table_exists d tableId); reflexivity.
  - intros id. rewrite after_confirmOrder. reflexivity.
  - intros orderId itemId status. rewrite after_updateOrderItemStatus.
    destruct (Js.includes orderItemStatusEnum status); reflexivity.
  - intros orderId itemId. rewrite after_cancelOrderItem.
    destruct (find (fun r => OrderItem.id r =? itemId) (orderItems d)) as [item|];
      [|reflexivity].
    destruct (Js.includes ["queued"; "pending"] (OrderItem.status item)); [|reflexivity].
    cbv zeta. destruct (Storage.lookupOrder _ orderId); reflexivity.
  - intros commits shareId. unfold after.
    destruct (after_markShareAsPaid commits d shareId)
      as [[_ ->] | [_ [-> | (o & t & ->)]]]; reflexivity.
Qed.

(** X7. No sequence of requests gives an order two payments: each of the
    seven handlers keeps the order ids of the payment rows pairwise distinct.
    A plain payment after a split bill, a split bill after a plain payment and
    a second split bill are all refused by the same unique index. *)
Theorem one_payment_per_order_invariant (d : Db) :
  one_payment_per_order d ->
  (forall tableId items, one_payment_per_order (after (createOrder tableId items) d))
  /\ (forall id, one_payment_per_order (after (confirmOrder id) d))
  /\ (forall orderId itemId status,
        one_payment_per_order (after (updateOrderItemStatus orderId itemId status) d))
  /\ (forall orderId itemId,
        one_payment_per_order (after (cancelOrderItem orderId itemId) d))
  /\ (forall data, one_payment_per_order (after (recordPayment data) d))
  /\ (forall commits orderId tableId method shares,
        one_payment_per_order
          (after (createSplitBill commits orderId tableId method shares) d))
  /\ (forall commits shareId,
        one_payment_per_order (after (markShareAsPaid commits shareId) d)).
Proof.
  intros Hinv. unfold one_payment_per_order in *.
  destruct (payments_kept d) as (Hcreate & Hconfirm & Hstatus & Hcancel & Hpaid).
  split; [intros; rewrite Hcreate; exact Hinv|].
  split; [intros; rewrite Hconfirm; exact Hinv|].
  split; [intros; rewrite Hstatus; exact Hinv|].
  split; [intros; rewrite Hcancel; exact Hinv|].
  split; [|split; [|intros; rewrite Hpaid; exact Hinv]].
  - intros data.
    destruct (after_recordPayment d data) as [-> | [Hunique Hafter]]; [exact Hinv|].
    cbv zeta in Hafter. rewrite Hafter.
    destruct (PaymentRequest.isSplitBill data);
      exact (one_payment_per_order_insert d
               (new_payment d (PaymentRequest.orderId data)
                  (PaymentRequest.tableId data) (PaymentRequest.amount data)
                  (PaymentRequest.method data)) Hinv Hunique).
  - intros commits orderId tableId method shares. unfold after.
    destruct (after_createSplitBill commits d orderId tableId method shares)
      as [[_ ->] | (order & _ & Hunique & _ & ->)]; [exact Hinv|].
    exact (one_payment_per_order_insert d
             (new_payment d orderId tableId (Order.total order) method) Hinv Hunique).
Qed.

Lemma one_payment_per_order_invariant_witness :
  one_payment_per_order db3
  /\ one_payment_per_order (after (recordPayment (PaymentRequest.mk 1 1 2500 "cash" false)) db3).
Proof.
  assert (H0 : one_payment_per_order db2) by constructor.
  pose proof (proj1 (proj2 (proj2 (proj2 (proj2 (proj2
                (one_payment_per_order_invariant db2 H0))))))
                true 1 1 "cash" [alice; bob]) as H3.
  split; [exact H3|].
  exact (proj1 (proj2 (proj2 (proj2 (proj2
           (one_payment_per_order_invariant db3 H3)))))
           (PaymentRequest.mk 1 1 2500 "cash" false)).
Defined.

(** ** Validation of the shares *)

Lemma trim_empty : Js.trim EmptyString = EmptyString.
Proof. reflexivity. Qed.

Lemma truthy_string_iff (s : string) : Js.truthy_string s = true <-> s <> EmptyString.
Proof.
  unfold Js.truthy_string. rewrite negb_true_iff. split.
  - intros H Heq. subst s. discriminate H.
  - intros H. apply String.eqb_neq. exact H.
Qed.

Lemma validShare_iff (s : ShareRequest.t) :
  validShare s = true <-> well_formed_share s.
Proof.
  unfold well_formed_share. split.
  - intros Hvalid. split; intros Hbad.
    + rewrite (blank_name_invalid s Hbad) in Hvalid. discriminate.
    + rewrite (not_positive_invalid s Hbad) in Hvalid. discriminate.
  - intros [Hname Hamount]. unfold validShare, blank_name, not_positive in *.
    apply andb_true_iff. split.
    + apply negb_true_iff. apply orb_false_iff.
      split; apply negb_false_iff; apply truthy_string_iff; [|exact Hname].
      intros Heq. apply Hname. rewrite Heq. reflexivity.
    + apply negb_true_iff.
      destruct (ShareRequest.amount s) as [|q]; [exfalso; apply Hamount; exact I|].
      cbn [Js.isNaN Js.leb orb].
      destruct (Qle_bool q 0) eqn:E; [|reflexivity].
      exfalso. apply Hamount. apply Qle_bool_iff. exact E.
Qed.

Lemma forallb_validShare (shares : list ShareRequest.t) :
  forallb validShare shares = true <-> Forall well_formed_share shares.
Proof.
  rewrite forallb_forall, Forall_forall.
  split; intros H s Hin; apply validShare_iff; apply H; exact Hin.
Qed.

(** The first share that fails a test decides the exception. *)
Lemma validateShares_first_invalid (k : nat) (shares : list ShareRequest.t)
  (s : ShareRequest.t) (index : nat) (w : World) :
  forallb validShare (firstn k shares) = true ->
  nth_error shares k = Some s ->
  validShare s = false ->
  validateShares index shares w
  = (Throw ("Share " ++ Js.string_of_nat (index + k + 1)
            ++ (if negb (Js.truthy_string (ShareRequest.customerName s))
                   || negb (Js.truthy_string (Js.trim (ShareRequest.customerName s)))
                then ": Customer name is required"
                else ": Amount must be positive"))%string,
     w).
Proof.
  revert shares index. induction k as [|k IH]; intros shares index Hprefix Hnth Hbad.
  - destruct shares as [|s0 rest]; [discriminate|]. injection Hnth as ->.
    cbn [validateShares]. rewrite Nat.add_0_r.
    unfold validShare in Hbad.
    destruct (negb (Js.truthy_string (ShareRequest.customerName s))
              || negb (Js.truthy_string (Js.trim (ShareRequest.customerName s)))).
    + reflexivity.
    + cbn [negb andb] in Hbad. apply negb_false_iff in Hbad. rewrite Hbad.
      reflexivity.
  - destruct shares as [|s0 rest]; [discriminate|].
    cbn [firstn forallb] in Hprefix. apply andb_true_iff in Hprefix.
    destruct Hprefix as [Hs0 Hprefix]. cbn [nth_error] in Hnth.
    unfold validShare in Hs0. apply andb_true_iff in Hs0. destruct Hs0 as [Hn Ha].
    apply negb_true_iff in Hn, Ha.
    cbn [validateShares]. rewrite Hn, Ha. unfold bind.
    rewrite (IH rest (S index) Hprefix Hnth Hbad).
    replace (S index + k + 1)%nat with (index + S k + 1)%nat by lia. reflexivity.
Qed.

Lemma share_message_truthy (x : string) : Js.truthy_string ("Share " ++ x) = true.
Proof. reflexivity. Qed.



Lemma shareRows_names (paymentId first : Z) (shares : list ShareRequest.t) :
  map BillShare.customerName (shareRows paymentId first (map validated shares))
  = map (fun s => Js.trim (ShareRequest.customerName s)) shares.
Proof.
  revert first. induction shares as [|s rest IH]; intros first; [reflexivity|].
  cbn [map shareRows BillShare.customerName validated ShareRequest.customerName].
  f_equal. apply IH.
Qed.

Lemma shareRows_amounts (paymentId first : Z) (shares : list ShareRequest.t) :
  map BillShare.amount (shareRows paymentId first (map validated shares))
  = map ShareRequest.amount shares.
Proof.
  revert first. induction shares as [|s rest IH]; intros first; [reflexivity|].
  cbn [map shareRows BillShare.amount validated ShareRequest.amount].
  f_equal. apply IH.
Qed.

Lemma createSplitBill_accepted_run (d : Db) (orderId tableId : Z) (method : string)
  (shares : list ShareRequest.t) (order : Order.t) :
  find (fun r => Order.id r =? orderId) (orders d) = Some order ->
  Order.status order = "confirmed" ->
  shares <> [] ->
  Forall well_formed_share shares ->
  ~ differ_by_more_than_a_cent (sharesTotal shares)
      (Js.parseFloat_decimal (Order.total order)) ->
  In method paymentMethodEnum ->
  table_exists d tableId = true ->
  order_has_payment d orderId = false ->
  let payment := new_payment d orderId tableId (Order.total order) method in
  let rows :=
    shareRows (nextPaymentId d) (nextBillShareId d) (map validated shares) in
  serve (createSplitBill true orderId tableId method shares) d
  = (Response.mk 201 (JSplitBill payment rows),
     mkWorld (with_shares rows (insert_payment payment d)) [TxBegin; TxCommit]).
Proof.
  intros Hfind Hstatus Hne Hvalid Hsum Hmethod Htable Hunique payment rows.
  apply forallb_validShare in Hvalid. apply includes_In in Hmethod.
  assert (Hgtb : Js.gtb (Js.abs (Js.sub (sharesTotal shares)
                                   (Js.parseFloat_decimal (Order.total order))))
                        (Js.Num (1 # 100)) = false).
  { destruct (Js.gtb _ (Js.Num (1 # 100))) eqn:E; [|reflexivity].
    exfalso. apply Hsum. apply differ_gtb. exact E. }
  rewrite createSplitBill_run by exact Hne.
  unfold createSplitBill_tx, Sql.select_order, query, bind. cbn [db].
  rewrite Hfind, Hstatus. ground_tests. cbn [negb].
  rewrite (validateShares_valid shares 0 _ Hvalid), sharesTotal_validated, Hgtb.
  unfold insertPaymentSchema_parse. rewrite Hmethod.
  unfold ret, Sql.insert_payments, Storage.createPayment, statement. cbn [db trace].
  unfold order_exists. rewrite (find_existsb _ _ _ Hfind). cbn [negb].
  rewrite Htable, Hunique. cbn [negb].
  rewrite insertShares_run by apply payment_exists_insert.
  reflexivity.
Qed.



(** ** Item status update and cancellation: edges *)

(** X10. A status update whose status is not a member of
    [order_item_status] is refused by the store: the handler answers 500,
    writes nothing and broadcasts nothing.  With a valid status, an item id
    that names no item is answered 404, again with nothing written and nothing
    broadcast. *)
Theorem updateOrderItemStatus_refused (d : Db) (orderId itemId : Z) (status : string) :
  (~ In status orderItemStatusEnum ->
   Response.status (fst (serve (updateOrderItemStatus orderId itemId status) d)) = 500
   /\ snd (serve (updateOrderItemStatus orderId itemId status) d) = mkWorld d [])
  /\ (In status orderItemStatusEnum ->
      find (fun r => OrderItem.id r =? itemId) (orderItems d) = None ->
      serve (updateOrderItemStatus orderId itemId status) d
      = (Response.error 404 "Order item not found", mkWorld d [])).
Proof.
  unfold updateOrderItemStatus, Storage.updateOrderItemStatus, Storage.getOrderById.
  unfold serve, try_catch, bind, statement, query, broadcast, ret. cbn [db trace].
  split.
  - intros Hnot.
    destruct (Js.includes orderItemStatusEnum status) eqn:E.
    + exfalso. apply Hnot. apply includes_In. exact E.
    + split; reflexivity.
  - intros Hin Hnone. apply includes_In in Hin. rewrite Hin. cbn [negb].
    rewrite (find_update_where OrderItem.id (OrderItem.set_status status)
               (fun r => eq_refl)), Hnone. cbn [option_map].
    rewrite (update_where_absent OrderItem.id _ itemId _ Hnone), set_orderItems_same.
    reflexivity.
Qed.

Lemma updateOrderItemStatus_refused_witness :
  snd (serve (updateOrderItemStatus 1 1 "burnt") db1) = mkWorld db1 []
  /\ serve (updateOrderItemStatus 1 9 "ready") db1
     = (Response.error 404 "Order item not found", mkWorld db1 []).
Proof.
  split.
  - apply (proj1 (updateOrderItemStatus_refused db1 1 1 "burnt")).
    intros H. cbn in H.
    repeat (destruct H as [H|H]; [discriminate H|]). exact H.
  - apply (proj2 (updateOrderItemStatus_refused db1 1 9 "ready")).
    + cbn. right. right. right. left. reflexivity.
    + reflexivity.
Defined.

(** X11. The cancel handler recomputes the order named in the request, not
    the order the item belongs to.  When the two differ, the item is
    cancelled all the same, the row of its own order is left exactly as it
    was, with its total, and the order named in the request is given the
    derived total of its own items. *)
Theorem cancelOrderItem_recomputes_named_order (d : Db) (orderId itemId : Z)
  (item : OrderItem.t) (named : Order.t) :
  find (fun r => OrderItem.id r =? itemId) (orderItems d) = Some item ->
  In (OrderItem.status item) ["queued"; "pending"] ->
  find (fun r => Order.id r =? orderId) (orders d) = Some named ->
  orderId <> OrderItem.orderId item ->
  let d' := after (cancelOrderItem orderId itemId) d in
  find (fun r => OrderItem.id r =? itemId) (orderItems d')
  = Some (OrderItem.set_status "cancelled" item)
  /\ find (fun r => Order.id r =? OrderItem.orderId item) (orders d')
     = find (fun r => Order.id r =? OrderItem.orderId item) (orders d)
  /\ find (fun r => Order.id r =? orderId) (orders d')
     = Some (Order.set_total
               (derivedTotal
                  (filter (fun i => OrderItem.orderId i =? orderId) (orderItems d')))
               named).
Proof.
  intros Hitem Hstatus Hnamed Hother d'.
  apply includes_In in Hstatus.
  assert (Hid : Order.id named = orderId).
  { apply find_some in Hnamed. apply Z.eqb_eq. exact (proj2 Hnamed). }
  assert (Hlookup : Storage.lookupOrder (with_item_status itemId "cancelled" d) orderId
                    = Some (Storage.hydrate (with_item_status itemId "cancelled" d) named)).
  { unfold Storage.lookupOrder. cbn [orders with_item_status set_orderItems].
    rewrite Hnamed. reflexivity. }
  unfold d'. rewrite after_cancelOrderItem, Hitem, Hstatus. cbv zeta.
  rewrite Hlookup.
  cbn [Storage.hydrate OrderWithItems.order OrderWithItems.orderItems].
  rewrite Hid.
  cbn [orders orderItems with_order_total set_orders with_item_status set_orderItems].
  split; [|split].
  - rewrite (find_update_where OrderItem.id (OrderItem.set_status "cancelled")
               (fun r => eq_refl)), Hitem. reflexivity.
  - apply (find_update_other Order.id (Order.set_total _) (fun r => eq_refl)).
    intros Heq. apply Hother. symmetry. exact Heq.
  - rewrite (find_update_where Order.id (Order.set_total _) (fun r => eq_refl)), Hnamed.
    cbn [option_map]. rewrite activeTotal_derived. reflexivity.
Qed.

Lemma cancelOrderItem_recomputes_named_order_witness :
  let d' := after (cancelOrderItem 1 3) db1_two_orders in
  find (fun r => Order.id r =? 2) (orders d') = Some (Order.mk 2 1 "pending" 2500)
  /\ derivedTotal (filter (fun i => OrderItem.orderId i =? 2) (orderItems d')) = 500.
Proof.
  pose proof (cancelOrderItem_recomputes_named_order db1_two_orders 1 3
                (OrderItem.mk 3 2 1 2 None "queued" 1000)
                (Order.mk 1 1 "pending" 2500) eq_refl
                ltac:(left; reflexivity) eq_refl ltac:(discriminate)) as H.
  cbv zeta in H. destruct H as (_ & Hown & _).
  split; [exact Hown | reflexivity].
Defined.

Lemma derivedTotal_cons (r : OrderItem.t) (l : list OrderItem.t) :
  derivedTotal (r :: l)
  = (if negb (OrderItem.status r =? "cancelled")%string
     then OrderItem.price r * OrderItem.quantity r else 0)
    + derivedTotal l.
Proof.
  unfold derivedTotal. cbn [filter].
  destruct (negb (OrderItem.status r =? "cancelled")%string); cbn [map list_sum_Z fold_right];
    unfold list_sum_Z; lia.
Qed.

Lemma derivedTotal_after_cancel (l : list OrderItem.t) (itemId oid : Z)
  (item : OrderItem.t) :
  NoDup (map OrderItem.id l) ->
  find (fun r => OrderItem.id r =? itemId) l = Some item ->
  OrderItem.orderId item = oid ->
  OrderItem.status item <> "cancelled" ->
  derivedTotal
    (filter (fun i => OrderItem.orderId i =? oid)
       (update_where OrderItem.id (OrderItem.set_status "cancelled") itemId l))
  = derivedTotal (filter (fun i => OrderItem.orderId i =? oid) l)
    - OrderItem.price item * OrderItem.quantity item.
Proof.
  intros Hnodup Hfind Hoid Hstatus.
  induction l as [|r l IH]; [discriminate|].
  cbn [map] in Hnodup. inversion Hnodup as [|? ? Hnotin Hrest]; subst.
  cbn [find] in Hfind. unfold update_where. cbn [map filter].
  fold (update_where OrderItem.id (OrderItem.set_status "cancelled") itemId l).
  destruct (OrderItem.id r =? itemId) eqn:E.
  - injection Hfind as ->. apply Z.eqb_eq in E.
    rewrite update_where_fixed.
    2:{ intros r' Hin Hid. exfalso. apply Hnotin. rewrite E, <- Hid.
        apply in_map. exact Hin. }
    cbn [OrderItem.orderId OrderItem.set_status]. rewrite Z.eqb_refl.
    rewrite !derivedTotal_cons. cbn [OrderItem.status OrderItem.set_status].
    apply String.eqb_neq in Hstatus. rewrite Hstatus. ground_tests. cbn [negb].
    cbn [OrderItem.price OrderItem.quantity]. lia.
  - specialize (IH Hrest Hfind).
    destruct (OrderItem.orderId r =? OrderItem.orderId item); [|exact IH].
    rewrite !derivedTotal_cons, IH. lia.
Qed.

(** X12. With item ids pairwise distinct: cancelling a queued item through
    its own order, when the stored total of that order was the derived total
    of its items, lowers the stored total by exactly the price of the item
    times its quantity. *)
Theorem cancelOrderItem_lowers_total (d : Db) (orderId itemId : Z)
  (item : OrderItem.t) (o : Order.t) :
  NoDup (map OrderItem.id (orderItems d)) ->
  find (fun r => OrderItem.id r =? itemId) (orderItems d) = Some item ->
  In (OrderItem.status item) ["queued"; "pending"] ->
  OrderItem.orderId item = orderId ->
  find (fun r => Order.id r =? orderId) (orders d) = Some o ->
  Order.total o
  = derivedTotal (filter (fun i => OrderItem.orderId i =? orderId) (orderItems d)) ->
  find (fun r => Order.id r =? orderId) (orders (after (cancelOrderItem orderId itemId) d))
  = Some (Order.set_total
            (Order.total o - OrderItem.price item * OrderItem.quantity item) o).
Proof.
  intros Hnodup Hitem Hstatus Hown Horder Htotal.
  assert (Hlive : OrderItem.status item <> "cancelled").
  { cbn in Hstatus. destruct Hstatus as [<-|[<-|[]]]; discriminate. }
  apply includes_In in Hstatus.
  assert (Hid : Order.id o = orderId).
  { apply find_some in Horder. apply Z.eqb_eq. exact (proj2 Horder). }
  assert (Hlookup : Storage.lookupOrder (with_item_status itemId "cancelled" d) orderId
                    = Some (Storage.hydrate (with_item_status itemId "cancelled" d) o)).
  { unfold Storage.lookupOrder. cbn [orders with_item_status set_orderItems].
    rewrite Horder. reflexivity. }
  rewrite after_cancelOrderItem, Hitem, Hstatus. cbv zeta. rewrite Hlookup.
  cbn [Storage.hydrate OrderWithItems.order OrderWithItems.orderItems].
  rewrite Hid.
  cbn [orders orderItems with_order_total set_orders with_item_status set_orderItems].
  rewrite (find_update_where Order.id (Order.set_total _) (fun r => eq_refl)), Horder.
  cbn [option_map]. rewrite activeTotal_derived.
  rewrite (derivedTotal_after_cancel (orderItems d) itemId orderId item
             Hnodup Hitem Hown Hlive).
  rewrite <- Htotal. reflexivity.
Qed.

Lemma cancelOrderItem_lowers_total_witness :
  find (fun r => Order.id r =? 1) (orders (after (cancelOrderItem 1 2) db1))
  = Some (Order.mk 1 1 "pending" 2000).
Proof.
  assert (Hnodup : NoDup (map OrderItem.id (orderItems db1))).
  { repeat constructor; cbn; intuition discriminate. }
  exact (cancelOrderItem_lowers_total db1 1 2
           (OrderItem.mk 2 1 2 1 None "queued" 500) (Order.mk 1 1 "pending" 2500)
           Hnodup eq_refl ltac:(left; reflexivity) eq_refl eq_refl eq_refl).
Defined.

Lemma cancelOrderItem_recomputes_witness :
  totals_consistent db1_stale = false
  /\ find (fun r => Order.id r =? 1) (orders (after (cancelOrderItem 1 1) db1_stale))
     = Some (Order.mk 1 1 "pending" 0).
Proof.
  split; [reflexivity|].
  exact (cancelOrderItem_recomputes db1_stale 1 1
           (OrderItem.mk 1 1 1 2 None "queued" 1000) (Order.mk 1 1 "pending" 2500)
           eq_refl eq_refl eq_refl).
Defined.

Lemma order_ids_fresh_invariant_witness :
  order_ids_fresh db1 /\ order_ids_fresh (after (cancelOrderItem 1 2) db1).
Proof.
  assert (H0 : order_ids_fresh db0) by (split; intros ? []).
  pose proof (proj1 (order_ids_fresh_invariant db0 H0) 1 request0) as H1.
  split; [exact H1|].
  exact (proj1 (proj2 (proj2 (proj2 (order_ids_fresh_invariant db1 H1)))) 1 2).
Defined.

(** ** What a request never touches *)

(** X13. A split bill, accepted or refused, leaves every order row and every
    table row exactly as it was: the order is not completed and the table is
    not freed by the creation of the bill. *)
Theorem createSplitBill_keeps_order_and_table (commits : bool) (d : Db)
  (orderId tableId : Z) (method : string) (shares : list ShareRequest.t) :
  let d' := after (createSplitBill commits orderId tableId method shares) d in
  orders d' = orders d /\ tables d' = tables d /\ orderItems d' = orderItems d.
Proof.
  intros d'. unfold d', after.
  destruct (after_createSplitBill commits d orderId tableId method shares)
    as [[_ ->] | (order & _ & _ & _ & ->)]; repeat split.
Qed.

(** X14. Cancelling an item never changes the status of an order nor any
    table: an order whose items are all cancelled keeps its status and its
    table stays as it was. *)
Theorem cancelOrderItem_keeps_statuses (d : Db) (orderId itemId : Z) :
  let d' := after (cancelOrderItem orderId itemId) d in
  map Order.status (orders d') = map Order.status (orders d)
  /\ map Order.id (orders d') = map Order.id (orders d)
  /\ tables d' = tables d.
Proof.
  intros d'. unfold d'. rewrite after_cancelOrderItem.
  destruct (find (fun r => OrderItem.id r =? itemId) (orderItems d)) as [item|];
    [|repeat split].
  destruct (Js.includes ["queued"; "pending"] (OrderItem.status item)); [|repeat split].
  cbv zeta. destruct (Storage.lookupOrder _ orderId) as [o|]; [|repeat split].
  cbn [orders tables with_order_total set_orders with_item_status set_orderItems].
  repeat split; apply map_update_where; reflexivity.
Qed.

(** * The connected terminals *)

Lemma Ws_has_In (clients : Ws.Clients) (ws : Z) :
  Ws.has clients ws = true <-> In ws clients.
Proof.
  unfold Ws.has. rewrite existsb_exists. split.
  - intros (c & Hin & Heq). apply Z.eqb_eq in Heq. subst c. exact Hin.
  - intros Hin. exists ws. split; [exact Hin | apply Z.eqb_refl].
Qed.

Lemma Ws_add_NoDup (ws : Z) (clients : Ws.Clients) :
  NoDup clients -> NoDup (Ws.add ws clients).
Proof.
  intros Hnodup. unfold Ws.add. destruct (Ws.has clients ws) eqn:E; [exact Hnodup|].
  apply NoDup_snoc; [exact Hnodup|]. intros Hin. apply Ws_has_In in Hin. congruence.
Qed.

Lemma Ws_delete_NoDup (ws : Z) (clients : Ws.Clients) :
  NoDup clients -> NoDup (Ws.delete ws clients).
Proof. intros Hnodup. apply NoDup_filter. exact Hnodup. Qed.

Lemma Ws_handle_NoDup (clients : Ws.Clients) (e : Ws.Event) :
  NoDup clients -> NoDup (Ws.handle clients e).
Proof.
  intros Hnodup. destruct e; cbn; [apply Ws_add_NoDup | apply Ws_delete_NoDup
                                  | apply Ws_delete_NoDup]; exact Hnodup.
Qed.

Lemma Ws_fold_NoDup (history : list Ws.Event) (clients : Ws.Clients) :
  NoDup clients -> NoDup (fold_left Ws.handle history clients).
Proof.
  revert clients. induction history as [|e rest IH]; intros clients Hnodup; cbn.
  - exact Hnodup.
  - apply IH. apply Ws_handle_NoDup. exact Hnodup.
Qed.

Lemma Ws_In_add (ws c : Z) (clients : Ws.Clients) :
  In c (Ws.add ws clients) <-> c = ws \/ In c clients.
Proof.
  unfold Ws.add. destruct (Ws.has clients ws) eqn:E.
  - apply Ws_has_In in E. split; [intros H; right; exact H|].
    intros [-> | H]; assumption.
  - rewrite in_app_iff. cbn. split.
    + intros [H | [H | []]]; [right; exact H | left; symmetry; exact H].
    + intros [-> | H]; [right; left; reflexivity | left; exact H].
Qed.

Lemma Ws_In_delete (ws c : Z) (clients : Ws.Clients) :
  In c (Ws.delete ws clients) <-> c <> ws /\ In c clients.
Proof.
  unfold Ws.delete. rewrite filter_In, negb_true_iff, Z.eqb_neq. tauto.
Qed.

Lemma Ws_received_count {Payload : Type} (stringify : Payload -> string)
  (readyState : Z -> Ws.ReadyState) (clients : Ws.Clients) (message : Payload)
  (ws : Z) :
  NoDup clients ->
  Ws.received ws (Ws.broadcast stringify readyState clients message)
  = if Ws.has clients ws && Ws.isOpen (readyState ws)
    then [stringify message] else [].
Proof.
  unfold Ws.received, Ws.broadcast, Ws.has.
  induction clients as [|c rest IH]; intros Hnodup; [reflexivity|].
  inversion Hnodup as [|? ? Hnotin Hrest]; subst.
  cbn [flat_map existsb]. rewrite filter_app, map_app, (IH Hrest).
  destruct (c =? ws) eqn:E.
  - apply Z.eqb_eq in E. subst c.
    assert (Hnone : existsb (fun c => c =? ws) rest = false).
    { destruct (existsb (fun c => c =? ws) rest) eqn:Hex; [|reflexivity].
      exfalso. apply Hnotin. apply Ws_has_In. exact Hex. }
    rewrite Hnone. cbn [orb andb].
    destruct (Ws.isOpen (readyState ws)); cbn; [rewrite Z.eqb_refl|]; reflexivity.
  - cbn [orb].
    destruct (Ws.isOpen (readyState c)); cbn; [rewrite E|]; reflexivity.
Qed.

(** X15. Whatever the history of connections, closes and errors since the
    server started, a broadcast sends its message exactly once to each socket
    that is in the set and open, and nothing to a socket that is not in the
    set or whose state is connecting, closing or closed. *)
Theorem broadcast_reaches_open_clients_once {Payload : Type}
  (stringify : Payload -> string) (readyState : Z -> Ws.ReadyState)
  (history : list Ws.Event) (message : Payload) (ws : Z) :
  let clients := Ws.clients_after history in
  Ws.received ws (Ws.broadcast stringify readyState clients message)
  = if Ws.has clients ws && Ws.isOpen (readyState ws)
    then [stringify message] else [].
Proof.
  intros clients. apply Ws_received_count.
  unfold clients, Ws.clients_after. apply Ws_fold_NoDup. constructor.
Qed.

Lemma Ws_absent_kept (ws : Z) (later : list Ws.Event) (clients : Ws.Clients) :
  ~ In ws clients -> ~ In (Ws.connection ws) later ->
  ~ In ws (fold_left Ws.handle later clients).
Proof.
  revert clients. induction later as [|e rest IH]; intros clients Hout Hlater; cbn.
  - exact Hout.
  - apply IH.
    + destruct e as [c | c | c]; cbn; intros Hin.
      * apply Ws_In_add in Hin. destruct Hin as [-> | Hin]; [|contradiction].
        apply Hlater. left. reflexivity.
      * apply Ws_In_delete in Hin. apply Hout. exact (proj2 Hin).
      * apply Ws_In_delete in Hin. apply Hout. exact (proj2 Hin).
    + intros Hin. apply Hlater. right. exact Hin.
Qed.

(** X16. A socket is in the set exactly when it has connected and has not
    closed or failed since: after a [close] or an [error] of a socket, and
    until it connects again, no broadcast sends it anything, whatever its
    state; events of other sockets do not change that. *)
Theorem closed_client_receives_nothing {Payload : Type}
  (stringify : Payload -> string) (readyState : Z -> Ws.ReadyState)
  (before later : list Ws.Event) (e : Ws.Event) (message : Payload) (ws : Z) :
  e = Ws.close ws \/ e = Ws.error ws ->
  ~ In (Ws.connection ws) later ->
  Ws.received ws
    (Ws.broadcast stringify readyState
       (Ws.clients_after (before ++ e :: later)) message)
  = [].
Proof.
  intros He Hlater.
  rewrite Ws_received_count
    by (unfold Ws.clients_after; apply Ws_fold_NoDup; constructor).
  assert (Hout : ~ In ws (Ws.clients_after (before ++ e :: later))).
  { unfold Ws.clients_after. rewrite fold_left_app. cbn [fold_left].
    apply Ws_absent_kept; [|exact Hlater].
    destruct He as [-> | ->]; cbn; intros Hin; apply Ws_In_delete in Hin;
      destruct Hin as [Hne _]; apply Hne; reflexivity. }
  destruct (Ws.has (Ws.clients_after (before ++ e :: later)) ws) eqn:E;
    [|reflexivity].
  exfalso. apply Hout. apply Ws_has_In. exact E.
Qed.

Lemma closed_client_receives_nothing_witness :
  Ws.received 1
    (Ws.broadcast (fun m : string => m) (fun _ => Ws.OPEN)
       (Ws.clients_after [Ws.connection 1; Ws.connection 2; Ws.close 1; Ws.connection 3])
       "order_created")
  = [].
Proof.
  apply (closed_client_receives_nothing (fun m : string => m) (fun _ => Ws.OPEN)
           [Ws.connection 1; Ws.connection 2] [Ws.connection 3] (Ws.close 1)
           "order_created" 1).
  - left. reflexivity.
  - intros [H | []]. discriminate H.
Defined.

(** * Super-admin views *)

Lemma ceil_div_bounds (x d : Z) :
  0 < d -> d * (Admin.ceil_div x d - 1) < x <= d * Admin.ceil_div x d.
Proof.
  intros Hd. unfold Admin.ceil_div.
  pose proof (Z.div_mod (- x) d ltac:(lia)) as Hdm.
  pose proof (Z.mod_pos_bound (- x) d Hd) as Hmod.
  nia.
Qed.

(** X17. In the list of organisations, an organisation is shown active
    exactly when the first subscription attached to it has status active and
    ends after [now]; then [daysRemaining] is at least 1 and is the number of
    days, rounded up, until the end: the end lies in the last of those days.
    Otherwise it is shown expired with [daysRemaining] 0; without any
    subscription the plan and the expiry are null. *)
Theorem withStatus_days (now : Z) (o : Admin.Organization) :
  let r := Admin.withStatus now o in
  match hd_error (Admin.subscriptions o) with
  | None =>
      Admin.subscriptionStatus r = "expired" /\ Admin.daysRemaining r = 0
      /\ Admin.currentPlan r = None /\ Admin.expiresAt r = None
  | Some sub =>
      Admin.expiresAt r = Some (Admin.endDate sub)
      /\ Admin.currentPlan r = Some (Admin.plan sub)
      /\ if (Admin.status sub =? "active")%string && (now <? Admin.endDate sub)
         then Admin.subscriptionStatus r = "active"
              /\ 1 <= Admin.daysRemaining r
              /\ now + Admin.msPerDay * (Admin.daysRemaining r - 1)
                 < Admin.endDate sub
                 <= now + Admin.msPerDay * Admin.daysRemaining r
         else Admin.subscriptionStatus r = "expired" /\ Admin.daysRemaining r = 0
  end.
Proof.
  intros r. subst r. unfold Admin.withStatus.
  destruct (hd_error (Admin.subscriptions o)) as [sub|]; cbn.
  - repeat split.
    destruct ((Admin.status sub =? "active")%string && (now <? Admin.endDate sub))
      eqn:E; cbn; [|split; reflexivity].
    apply andb_true_iff in E. destruct E as [_ Hlt]. apply Z.ltb_lt in Hlt.
    pose proof (ceil_div_bounds (Admin.endDate sub - now) Admin.msPerDay
                  ltac:(reflexivity)) as Hb.
    split; [reflexivity|]. split; [|lia].
    assert (0 < Admin.msPerDay) by reflexivity. nia.
  - repeat split.
Qed.

(** X18. In the statistics, the subscriptions expiring within seven days are
    among the active ones, which are among all subscriptions.  A subscription
    that the list of organisations shows active is counted active by the
    statistics at the same instant; the two disagree only on an active
    subscription that ends exactly at [now], which the statistics count and
    the list shows expired. *)
Theorem stats_and_list_agree (now : Z) (organizations : list Admin.Organization)
  (subs : list Admin.Subscription) :
  let s := Admin.stats now organizations subs in
  (Admin.expiringSoon s <= Admin.activeSubscriptions s <= List.length subs)%nat
  /\ Admin.totalOrganizations s = List.length organizations
  /\ forall sub,
       (Admin.isActive now (Some sub) = true -> Admin.countsAsActive now sub = true)
       /\ (Admin.countsAsActive now sub = true /\ Admin.isActive now (Some sub) = false
           <-> Admin.status sub = "active" /\ Admin.endDate sub = now).
Proof.
  intros s. subst s. unfold Admin.stats. cbn.
  split; [split|split; [reflexivity|]].
  - induction subs as [|sub rest IH]; [apply Nat.le_refl|].
    cbn [filter]. unfold Admin.countsAsExpiring at 1, Admin.countsAsActive at 1.
    destruct ((Admin.status sub =? "active")%string && (now <=? Admin.endDate sub));
      cbn [andb].
    + destruct (Admin.endDate sub <=? now + 7 * 24 * 60 * 60 * 1000); cbn [List.length];
        lia.
    + exact IH.
  - apply filter_length_le.
  - intros sub. unfold Admin.isActive, Admin.countsAsActive. split.
    + intros H. apply andb_true_iff in H. destruct H as [Hs Hlt].
      apply Z.ltb_lt in Hlt. rewrite Hs. cbn. apply Z.leb_le. lia.
    + split.
      * intros [Hc Ha]. apply andb_true_iff in Hc. destruct Hc as [Hs Hle].
        rewrite Hs in Ha. cbn in Ha. apply Z.ltb_ge in Ha. apply Z.leb_le in Hle.
        apply String.eqb_eq in Hs. split; [exact Hs | lia].
      * intros [Hs He]. rewrite Hs, He. ground_tests. cbn.
        rewrite Z.leb_refl, Z.ltb_irrefl. split; reflexivity.
Qed.

(** * Settling a whole bill *)

Lemma find_map_key {A : Type} (key : A -> Z) (f : A -> A) (k : Z) (l : list A) :
  (forall r, key (f r) = key r) ->
  find (fun r => key r =? k) (map f l) = option_map f (find (fun r => key r =? k) l).
Proof.
  intros Hkey. induction l as [|r l IH]; [reflexivity|].
  cbn [map find]. rewrite Hkey. destruct (key r =? k); [reflexivity | exact IH].
Qed.

Lemma find_in_keys {A : Type} (key : A -> Z) (k : Z) (l : list A) :
  In k (map key l) -> exists r, find (fun r => key r =? k) l = Some r /\ In r l.
Proof.
  induction l as [|r l IH]; intros Hin; [contradiction|].
  cbn [find]. destruct (key r =? k) eqn:E.
  - exists r. split; [reflexivity | left; reflexivity].
  - destruct Hin as [Hin|Hin]; [apply Z.eqb_neq in E; contradiction|].
    destruct (IH Hin) as (r' & Hfind & Hin'). exists r'. split; [exact Hfind|].
    right. exact Hin'.
Qed.

Lemma set_billShares_twice (l l' : list BillShare.t) (d : Db) :
  set_billShares l (set_billShares l' d) = set_billShares l d.
Proof. reflexivity. Qed.

Lemma settle_app (P Q : list Z) (d : Db) :
  settle (P ++ Q) d
  = let (d1, m1) := settle P d in
    let (d2, m2) := settle Q d1 in
    (d2, m1 ++ m2).
Proof.
  revert d. induction P as [|x P IH]; intros d.
  - cbn. destruct (settle Q d). reflexivity.
  - cbn [app settle].
    rewrite IH.
    destruct (settle P (db (snd (serve (markShareAsPaid true x) d)))) as [d1 m1].
    destruct (settle Q d1) as [d2 m2]. rewrite app_assoc. reflexivity.
Qed.

Section Settlement.

Variables (base : Db) (old rows : list BillShare.t) (payment : Payment.t).

Let pid := Payment.id payment.
Let ids := map BillShare.id rows.

Hypothesis base_shares : billShares base = old ++ rows.
Hypothesis rows_unpaid :
  Forall (fun r => BillShare.paid r = false /\ BillShare.paymentId r = pid) rows.
Hypothesis old_apart :
  forall s, In s old ->
    BillShare.paymentId s <> pid /\ ~ In (BillShare.id s) ids.
Hypothesis payment_found :
  find (fun r => Payment.id r =? pid) (payments base) = Some payment.
Hypothesis pid_nonzero : pid <> 0.
Hypothesis order_nonzero : Payment.orderId payment <> 0.
Hypothesis table_nonzero : Payment.tableId payment <> 0.

(** The database once the shares of [S] are settled and the bill is not. *)
Definition partly_settled (S : list Z) : Db :=
  set_billShares (old ++ paidRows S rows) base.

Lemma partly_settled_nil : partly_settled [] = base.
Proof.
  unfold partly_settled, paidRows. cbn [existsb]. rewrite map_id, <- base_shares.
  apply set_billShares_same.
Qed.

Lemma paidRows_key (S : list Z) (r : BillShare.t) :
  BillShare.id (if existsb (fun x => x =? BillShare.id r) S
                then BillShare.set_paid true r else r)
  = BillShare.id r.
Proof. destruct (existsb _ S); reflexivity. Qed.

Lemma share_found (S : list Z) (x : Z) :
  In x ids ->
  exists r, find (fun r => BillShare.id r =? x) (billShares (partly_settled S)) = Some r
            /\ BillShare.paymentId r = pid.
Proof.
  intros Hin. unfold partly_settled. cbn [billShares set_billShares].
  rewrite find_app_none.
  2:{ intros s Hs. apply Z.eqb_neq. intros Heq.
      apply (proj2 (old_apart s Hs)). rewrite Heq. exact Hin. }
  unfold paidRows.
  rewrite (find_map_key BillShare.id _ x rows (paidRows_key S)).
  destruct (find_in_keys BillShare.id x rows Hin) as (r & Hfind & Hr).
  rewrite Hfind. cbn [option_map]. eexists. split; [reflexivity|].
  rewrite Forall_forall in rows_unpaid. destruct (rows_unpaid r Hr) as [_ Hp].
  destruct (existsb _ S); exact Hp.
Qed.

Lemma flip_partly_settled (S : list Z) (x : Z) :
  In x ids ->
  with_share_paid x (partly_settled S) = partly_settled (x :: S).
Proof.
  intros Hin. unfold with_share_paid, partly_settled.
  rewrite set_billShares_twice. cbn [billShares set_billShares].
  f_equal. rewrite update_where_app.
  rewrite (update_where_fixed BillShare.id (BillShare.set_paid true) x old).
  2:{ intros s Hs Heq. exfalso. apply (proj2 (old_apart s Hs)). rewrite Heq. exact Hin. }
  f_equal.
  unfold update_where, paidRows. rewrite map_map. apply map_ext. intros r.
  rewrite paidRows_key. cbn [existsb]. rewrite (Z.eqb_sym x).
  destruct (BillShare.id r =? x); cbn [orb].
  - destruct (existsb _ S); reflexivity.
  - reflexivity.
Qed.

Lemma siblings_partly_settled (S : list Z) (x : Z) :
  forallb BillShare.paid (siblings (partly_settled S) pid x)
  = forallb (fun y => (y =? x) || existsb (fun s => s =? y) S) ids.
Proof.
  unfold siblings, partly_settled. cbn [billShares set_billShares].
  rewrite filter_app, filter_none, app_nil_l.
  2:{ intros s Hs. apply andb_false_iff. left. apply Z.eqb_neq.
      exact (proj1 (old_apart s Hs)). }
  unfold ids, paidRows. clear - rows_unpaid.
  induction rows as [|r rest IH]; [reflexivity|].
  inversion rows_unpaid as [|? ? [Hpaid Hp] Hrest]; subst.
  cbn [map filter forallb]. rewrite paidRows_key.
  assert (Hpr : BillShare.paymentId
                  (if existsb (fun s => s =? BillShare.id r) S
                   then BillShare.set_paid true r else r) = pid)
    by (destruct (existsb _ S); exact Hp).
  rewrite Hpr, Z.eqb_refl. cbn [andb].
  destruct (BillShare.id r =? x); cbn [negb orb forallb].
  - apply IH. exact Hrest.
  - rewrite (IH Hrest). f_equal.
    destruct (existsb (fun s => s =? BillShare.id r) S); [reflexivity | exact Hpaid].
Qed.

Lemma payments_partly_settled (S : list Z) :
  payments (partly_settled S) = payments base.
Proof. reflexivity. Qed.

(** One request on a share of the bill. *)
Lemma settle_step (S : list Z) (x : Z) :
  In x ids ->
  serve (markShareAsPaid true x) (partly_settled S)
  = if forallb (fun y => (y =? x) || existsb (fun s => s =? y) S) ids then
      (Response.mk 200 JSuccess,
       mkWorld (settled (Payment.orderId payment) (Payment.tableId payment)
                  (partly_settled (x :: S)))
         [TxBegin;
          Broadcast (split_bill_completed pid (Payment.orderId payment)
                       (Payment.tableId payment));
          TxCommit])
    else
      (Response.mk 200 JSuccess, mkWorld (partly_settled (x :: S)) [TxBegin; TxCommit]).
Proof.
  intros Hin. destruct (share_found S x Hin) as (r & Hfind & Hp).
  assert (Hr : BillShare.paymentId r <> 0) by (rewrite Hp; exact pid_nonzero).
  rewrite <- (flip_partly_settled S x Hin).
  rewrite <- siblings_partly_settled, <- Hp.
  destruct (forallb BillShare.paid
              (siblings (partly_settled S) (BillShare.paymentId r) x)) eqn:Hsib.
  - assert (Hpay : find (fun q => Payment.id q =? BillShare.paymentId r)
                     (payments (partly_settled S)) = Some payment)
      by (rewrite Hp; exact payment_found).
    pose proof (markShareAsPaid_completion true (partly_settled S) x r payment
                  Hfind Hr Hpay order_nonzero table_nonzero Hsib) as Hrun.
    cbv zeta in Hrun. exact Hrun.
  - exact (markShareAsPaid_partial true (partly_settled S) x r Hfind Hr Hsib).
Qed.

Lemma check_complete (S : list Z) (x : Z) :
  incl ids (x :: S) ->
  forallb (fun y => (y =? x) || existsb (fun s => s =? y) S) ids = true.
Proof.
  intros Hincl. apply forallb_forall. intros y Hy.
  destruct (Hincl y Hy) as [<- | HS].
  - rewrite Z.eqb_refl. reflexivity.
  - apply orb_true_iff. right. apply existsb_exists. exists y.
    split; [exact HS | apply Z.eqb_refl].
Qed.

Lemma check_incomplete (S : list Z) (x q : Z) :
  In q ids -> q <> x -> ~ In q S ->
  forallb (fun y => (y =? x) || existsb (fun s => s =? y) S) ids = false.
Proof.
  intros Hq Hqx HqS.
  destruct (forallb _ ids) eqn:E; [|reflexivity].
  rewrite forallb_forall in E. specialize (E q Hq).
  apply orb_true_iff in E. destruct E as [E|E].
  - apply Z.eqb_eq in E. contradiction.
  - apply existsb_exists in E. destruct E as (s & Hs & Heq).
    apply Z.eqb_eq in Heq. subst s. contradiction.
Qed.

(** While a share of the bill is left out, nothing completes. *)
Lemma settle_incomplete (P S : list Z) (q : Z) :
  incl P ids -> In q ids -> ~ In q P -> ~ In q S ->
  settle P (partly_settled S) = (partly_settled (rev P ++ S), []).
Proof.
  revert S. induction P as [|x P IH]; intros S Hincl Hq HqP HqS.
  - reflexivity.
  - cbn [settle].
    assert (Hx : In x ids) by (apply Hincl; left; reflexivity).
    rewrite (settle_step S x Hx).
    rewrite (check_incomplete S x q Hq).
    + cbn [snd db trace broadcasts].
      rewrite (IH (x :: S)).
      * cbn [rev]. rewrite <- app_assoc. reflexivity.
      * intros y Hy. apply Hincl. right. exact Hy.
      * exact Hq.
      * intros Hin. apply HqP. right. exact Hin.
      * intros [Heq | Hin]; [apply HqP; left; exact Heq | contradiction].
    + intros Heq. apply HqP. left. symmetry. exact Heq.
    + exact HqS.
Qed.

End Settlement.

Lemma shareRows_ids_from (paymentId first : Z) (l : list ShareRequest.t) :
  forall y, In y (map BillShare.id (shareRows paymentId first l)) -> first <= y.
Proof.
  revert first. induction l as [|s rest IH]; intros first y Hin; [contradiction|].
  cbn in Hin. destruct Hin as [<- | Hin]; [lia|].
  specialize (IH (first + 1) y Hin). lia.
Qed.

Lemma shareRows_ids_NoDup (paymentId first : Z) (l : list ShareRequest.t) :
  NoDup (map BillShare.id (shareRows paymentId first l)).
Proof.
  revert first. induction l as [|s rest IH]; intros first; cbn; constructor.
  - intros Hin. pose proof (shareRows_ids_from paymentId (first + 1) rest _ Hin). lia.
  - apply IH.
Qed.



(** * Login and session *)

Section AuthProperties.

Variable authenticateUser : string -> string -> option Auth.User.
Variable checkSubscriptionActive : Z -> bool.
Variable users : list Auth.User.
Variable organizations : list Auth.Organization.

Let login := Auth.login authenticateUser checkSubscriptionActive organizations.
Let getSession := Auth.getSession users organizations.


(** X21. The subscription gate never stops a super admin, nor a user without
    organisation: such a user, active and authenticated, is logged in whatever
    [checkSubscriptionActive] answers.  Any other active user is logged in
    exactly when [checkSubscriptionActive] accepts the organisation. *)
Theorem login_subscription_gate (u p : string) (user : Auth.User)
  (session : option Auth.Session) :
  u <> EmptyString -> p <> EmptyString ->
  authenticateUser u p = Some user ->
  Auth.isActive user = true ->
  let answer := Auth.status (fst (login (Some u) (Some p) session)) in
  (Auth.globalRole user = "super_admin" -> answer = 200)
  /\ (Auth.truthy_id (Auth.organizationId user) = false -> answer = 200)
  /\ (forall oid,
        Auth.globalRole user <> "super_admin" ->
        Auth.organizationId user = Some oid -> oid <> 0 ->
        (answer = 200 <-> checkSubscriptionActive oid = true)
        /\ (answer = 403 <-> checkSubscriptionActive oid = false)).
Proof.
  intros Hu Hp Hauth Hactive answer. subst answer. unfold login, Auth.login.
  cbn [Auth.truthy_field Auth.text].
  apply truthy_string_iff in Hu, Hp. rewrite Hu, Hp. cbn [negb orb].
  rewrite Hauth, Hactive. cbn [negb].
  unfold Auth.subscriptionRefused.
  split; [|split].
  - intros Hrole. rewrite Hrole. ground_tests.
    destruct (Auth.organizationId user); reflexivity.
  - intros Horg. destruct (Auth.organizationId user) as [oid|]; [|reflexivity].
    cbn in Horg. rewrite Horg, andb_false_r. reflexivity.
  - intros oid Hrole Horg Hoid. rewrite Horg.
    apply String.eqb_neq in Hrole. rewrite Hrole.
    rewrite (truthy_int_nonzero oid Hoid). cbn [negb andb].
    destruct (checkSubscriptionActive oid); cbn; split; split;
      intros H; first [reflexivity | discriminate H].
Qed.

(** X22. Round trip: when the user that [authenticateUser] returned is the row
    that the table of users holds under its id, and that id is not 0, the
    session written by a successful login is answered by the session endpoint
    as authenticated, with the same user and the same organisation as the
    login answered. *)
Theorem login_then_session (reqUsername reqPassword : option string)
  (session : option Auth.Session) (user : Auth.UserSummary)
  (organization : option Auth.Organization) :
  Auth.body (fst (login reqUsername reqPassword session))
  = Auth.LoggedIn user organization ->
  (forall u, In u users -> Auth.id u = Auth.sId user -> Auth.summary u = user
             /\ Auth.organizationOf organizations u = organization) ->
  (exists u, In u users /\ Auth.id u = Auth.sId user) ->
  Auth.sId user <> 0 ->
  getSession (snd (login reqUsername reqPassword session))
  = Auth.mkResponse 200 (Auth.Authenticated user organization).
Proof.
  intros Hbody Hrow Hexists Hid. revert Hbody.
  unfold getSession, login, Auth.login.
  destruct (negb (Auth.truthy_field reqUsername)
            || negb (Auth.truthy_field reqPassword)); [discriminate|].
  destruct (authenticateUser _ _) as [u0|]; [|discriminate].
  destruct (negb (Auth.isActive u0)); [discriminate|].
  destruct (Auth.subscriptionRefused checkSubscriptionActive u0); [discriminate|].
  cbn [fst snd Auth.body]. intros Hbody. injection Hbody as Hsum Horg.
  unfold Auth.getSession. cbn [Auth.userId].
  assert (Hu0 : Auth.id u0 = Auth.sId user) by (rewrite <- Hsum; reflexivity).
  rewrite Hu0, (truthy_int_nonzero _ Hid). cbn [negb].
  destruct (find (fun u => Auth.id u =? Auth.sId user) users) as [row|] eqn:Hfind.
  - apply find_some in Hfind. destruct Hfind as [Hin Heq]. apply Z.eqb_eq in Heq.
    destruct (Hrow row Hin Heq) as [-> ->]. reflexivity.
  - exfalso. destruct Hexists as (u & Hin & Heq).
    pose proof (find_none _ _ Hfind u Hin) as Hnone. cbv beta in Hnone.
    apply Z.eqb_neq in Hnone. contradiction.
Qed.

End AuthProperties.


Lemma login_subscription_gate_witness :
  Auth.status (fst (Auth.login exampleAuthenticate (fun _ => false) [bistro]
                      (Some "root") (Some "toor") None)) = 200
  /\ Auth.status (fst (Auth.login exampleAuthenticate (fun _ => false) [bistro]
                         (Some "ana") (Some "secret") None)) = 403.
Proof.
  split.
  - apply (proj1 (login_subscription_gate exampleAuthenticate (fun _ => false) [bistro]
                    "root" "toor" root None ltac:(discriminate) ltac:(discriminate)
                    eq_refl eq_refl)).
    reflexivity.
  - apply (proj2 (proj2 (proj2 (login_subscription_gate exampleAuthenticate
                                  (fun _ => false) [bistro]
                                  "ana" "secret" ana None ltac:(discriminate)
                                  ltac:(discriminate) eq_refl eq_refl))
                   1 ltac:(discriminate) eq_refl ltac:(discriminate))).
    reflexivity.
Defined.

Lemma login_then_session_witness :
  Auth.getSession [ana; root] [bistro]
    (snd (Auth.login exampleAuthenticate (fun _ => true) [bistro]
            (Some "ana") (Some "secret") None))
  = Auth.mkResponse 200 (Auth.Authenticated (Auth.summary ana) (Some bistro)).
Proof.
  apply (login_then_session exampleAuthenticate (fun _ => true) [ana; root] [bistro]
           (Some "ana") (Some "secret") None (Auth.summary ana) (Some bistro) eq_refl).
  - intros u [<- | [<- | []]] Hid; [split; reflexivity | discriminate Hid].
  - exists ana. split; [left; reflexivity | reflexivity].
  - discriminate.
Defined.

(** * The slug of an organisation *)

Lemma Slug_replaced_safe (s : string) :
  Slug.urlSafe (Slug.mapChars Slug.replaceOther s) = true.
Proof.
  induction s as [|c rest IH]; [reflexivity|].
  cbn [Slug.mapChars Slug.urlSafe]. rewrite IH, andb_true_r.
  unfold Slug.replaceOther. destruct (Slug.alphanumeric c) eqn:E.
  - rewrite E. reflexivity.
  - apply orb_true_r.
Qed.

Lemma Slug_collapse_safe (s : string) :
  Slug.urlSafe s = true -> Slug.urlSafe (Slug.collapseDashes s) = true.
Proof.
  induction s as [|c rest IH]; [reflexivity|].
  cbn [Slug.urlSafe Slug.collapseDashes]. intros H.
  apply andb_true_iff in H. destruct H as [Hc Hrest]. specialize (IH Hrest).
  destruct (Ascii.eqb c Slug.dash) eqn:E.
  - destruct (Slug.collapseDashes rest) as [|c' rest']; [reflexivity|].
    destruct (Ascii.eqb c' Slug.dash); [exact IH|].
    cbn [Slug.urlSafe] in *. rewrite IH. reflexivity.
  - cbn [Slug.urlSafe]. rewrite E, Hc, IH. reflexivity.
Qed.

Lemma Slug_noDoubleDash_cons (c c' : ascii) (rest : string) :
  Slug.noDoubleDash (String c (String c' rest))
  = negb (Ascii.eqb c Slug.dash && Ascii.eqb c' Slug.dash)
    && Slug.noDoubleDash (String c' rest).
Proof. reflexivity. Qed.

Lemma Slug_collapse_noDoubleDash (s : string) :
  Slug.noDoubleDash (Slug.collapseDashes s) = true.
Proof.
  induction s as [|c rest IH]; [reflexivity|].
  cbn [Slug.collapseDashes].
  destruct (Ascii.eqb c Slug.dash) eqn:E.
  - destruct (Slug.collapseDashes rest) as [|c' rest']; [reflexivity|].
    destruct (Ascii.eqb c' Slug.dash) eqn:E'; [exact IH|].
    rewrite Slug_noDoubleDash_cons, E', andb_false_r, IH. reflexivity.
  - destruct (Slug.collapseDashes rest) as [|c' rest'] eqn:Hrest; [reflexivity|].
    rewrite Slug_noDoubleDash_cons, E, IH. reflexivity.
Qed.

Lemma Slug_collapse_fixed (s : string) :
  Slug.noDoubleDash s = true -> Slug.collapseDashes s = s.
Proof.
  induction s as [|c rest IH]; [reflexivity|].
  intros H. cbn [Slug.collapseDashes].
  assert (Hrest : Slug.noDoubleDash rest = true).
  { destruct rest as [|c' rest']; [reflexivity|].
    rewrite Slug_noDoubleDash_cons in H. apply andb_true_iff in H. exact (proj2 H). }
  rewrite (IH Hrest).
  destruct (Ascii.eqb c Slug.dash) eqn:E; [|reflexivity].
  destruct rest as [|c' rest']; [apply Ascii.eqb_eq in E; subst c; reflexivity|].
  rewrite Slug_noDoubleDash_cons, E in H. apply andb_true_iff in H. destruct H as [H _].
  cbn [andb] in H. apply negb_true_iff in H. rewrite H.
  apply Ascii.eqb_eq in E. subst c. reflexivity.
Qed.

Lemma Slug_safe_char_fixed (c : ascii) :
  Slug.alphanumeric c || Ascii.eqb c Slug.dash = true ->
  Slug.replaceOther (Slug.toLowerCase c) = c.
Proof.
  destruct c as [[] [] [] [] [] [] [] []]; vm_compute; intros H;
    first [reflexivity | discriminate H].
Qed.

Lemma Slug_safe_fixed (s : string) :
  Slug.urlSafe s = true ->
  Slug.mapChars Slug.replaceOther (Slug.mapChars Slug.toLowerCase s) = s.
Proof.
  induction s as [|c rest IH]; [reflexivity|].
  cbn [Slug.urlSafe Slug.mapChars]. intros H.
  apply andb_true_iff in H. destruct H as [Hc Hrest].
  rewrite (Slug_safe_char_fixed c Hc), (IH Hrest). reflexivity.
Qed.

(** X23. The slug computed for a new organisation is made of lower-case
    letters, digits and dashes only, never has two dashes in a row, and is
    left unchanged when the computation is applied to it again; a name that is
    already of that form is its own slug. *)
Theorem slug_url_safe (organizationName : string) :
  let s := Slug.slug organizationName in
  Slug.urlSafe s = true
  /\ Slug.noDoubleDash s = true
  /\ Slug.slug s = s
  /\ (Slug.urlSafe organizationName = true ->
      Slug.noDoubleDash organizationName = true ->
      s = organizationName).
Proof.
  intros s. subst s. unfold Slug.slug.
  assert (Hsafe : Slug.urlSafe
                    (Slug.collapseDashes
                       (Slug.mapChars Slug.replaceOther
                          (Slug.mapChars Slug.toLowerCase organizationName))) = true)
    by (apply Slug_collapse_safe; apply Slug_replaced_safe).
  assert (Hdash := Slug_collapse_noDoubleDash
                     (Slug.mapChars Slug.replaceOther
                        (Slug.mapChars Slug.toLowerCase organizationName))).
  split; [exact Hsafe|]. split; [exact Hdash|]. split.
  - rewrite (Slug_safe_fixed _ Hsafe). apply Slug_collapse_fixed. exact Hdash.
  - intros Hs Hd. rewrite (Slug_safe_fixed _ Hs). apply Slug_collapse_fixed. exact Hd.
Qed.

Lemma slug_url_safe_witness :
  Slug.slug "Chez  Ana & Co." = "chez-ana-co-" /\ Slug.slug "chez-ana-co-" = "chez-ana-co-".
Proof.
  split; [reflexivity|].
  apply (proj2 (proj2 (proj2 (slug_url_safe "chez-ana-co-")))); reflexivity.
Defined.
